(** * FeedGen: the row-optimisation and export pipeline of [src/app.ts]

    A shallow embedding of the controller of the FeedGen spreadsheet add-on:
    the response parser, the row reconciler, the metrics scorer, the per-row
    driver, the export reconciler, the approval of the filtered rows and the
    few-shot context of an item, followed by the properties the
    specification states about them and by further properties of the code.

    Conventions of the embedding.
    - A JavaScript string is a sequence of UTF-16 code units; the model keeps
      the code units below 256, one [ascii] each.  Of these, code units 9 to
      13, 32 and 160 are white space for [trim] and for the regular
      expression class \s.
    - An object is the list of its own enumerable properties in creation
      order; property reads fall back on the members of [Object.prototype],
      as they do for the plain objects the program builds.
    - Code that can throw returns a [result]; sheet and logger calls are
      recorded as the sequence of effects they issue, or applied to an
      explicit sheet where a property is about positions.
    - What lives in [./config] and [./helpers] is not part of the sources:
      constants are fields of [Config], services are parameters, and the two
      helpers whose behaviour matters are modelled from the specification. *)

From Stdlib Require Import String Ascii List Bool Arith ZArith NArith QArith Lia.
From Stdlib Require Import DecimalString Permutation.
Import ListNotations.
Close Scope Q_scope.
Open Scope string_scope.
Open Scope nat_scope.

(* ================================================================== *)
(** ** Characters and strings *)

Module Str.

(** The double quote, U+0022. *)
Definition dquote : ascii := ascii_of_nat 34.
(** Line feed, U+000A: the [\n] of the source. *)
Definition LF : ascii := ascii_of_nat 10.

(** WhiteSpace and LineTerminator code units below 256. *)
Definition is_white_space (c : ascii) : bool :=
  let n := nat_of_ascii c in
  ((9 <=? n) && (n <=? 13)) || (n =? 32) || (n =? 160).

(** The class \w of a regular expression without flags: [A-Za-z0-9_]. *)
Definition is_word_char (c : ascii) : bool :=
  let n := nat_of_ascii c in
  ((65 <=? n) && (n <=? 90)) || ((97 <=? n) && (n <=? 122))
  || ((48 <=? n) && (n <=? 57)) || (n =? 95).

Fixpoint trimStart (s : string) : string :=
  match s with
  | String c s' => if is_white_space c then trimStart s' else s
  | EmptyString => EmptyString
  end.

Fixpoint trimEnd (s : string) : string :=
  match s with
  | EmptyString => EmptyString
  | String c s' =>
      match trimEnd s' with
      | EmptyString => if is_white_space c then EmptyString else String c EmptyString
      | t => String c t
      end
  end.

(** [String.prototype.trim]. *)
Definition trim (s : string) : string := trimEnd (trimStart s).

Fixpoint drop (n : nat) (s : string) : string :=
  match n, s with
  | S k, String _ s' => drop k s'
  | _, _ => s
  end.

(** [s.replace(pat, rep)] with a string pattern: the first occurrence of
    [pat] is replaced.  The program only replaces by the empty string, so
    the dollar patterns of a replacement text play no part. *)
Fixpoint replace (pat rep s : string) : string :=
  if String.prefix pat s then rep ++ drop (String.length pat) s
  else match s with
       | EmptyString => EmptyString
       | String c s' => String c (replace pat rep s')
       end.

(** [s.split(sep)] for a separator of one code unit, which is what both
    separators of the program are. *)
Fixpoint split (sep : ascii) (s : string) : list string :=
  match s with
  | EmptyString => [EmptyString]
  | String c s' =>
      if Ascii.eqb c sep then EmptyString :: split sep s'
      else match split sep s' with
           | piece :: rest => String c piece :: rest
           | [] => [String c EmptyString]
           end
  end.

(** [arr.join(sep)] on an array of strings. *)
Fixpoint join (sep : string) (l : list string) : string :=
  match l with
  | [] => EmptyString
  | [x] => x
  | x :: rest => x ++ sep ++ join sep rest
  end.

(** [arr.includes(x)] on an array of strings. *)
Definition includes (l : list string) (x : string) : bool :=
  existsb (String.eqb x) l.

Definition lower_char (c : ascii) : ascii :=
  let n := nat_of_ascii c in
  if ((65 <=? n) && (n <=? 90))
     || ((192 <=? n) && (n <=? 222) && negb (n =? 215))
  then ascii_of_nat (n + 32) else c.

(** [String.prototype.toLowerCase] on code units below 256. *)
Fixpoint toLowerCase (s : string) : string :=
  match s with
  | EmptyString => EmptyString
  | String c s' => String (lower_char c) (toLowerCase s')
  end.

(** Truthiness of a string: non-empty. *)
Definition nonempty (s : string) : bool :=
  match s with EmptyString => false | _ => true end.

(** [new Set(arr)] then spread: first occurrences, in order. *)
Fixpoint dedup (l : list string) : list string :=
  match l with
  | [] => []
  | x :: rest => x :: filter (fun y => negb (String.eqb x y)) (dedup rest)
  end.

End Str.

(* ================================================================== *)
(** ** The word expression

    [WORD_MATCH_REGEX] is the global expression with two alternatives:
    - a greedy run of \w-or-\s characters, then one \w, then a look-ahead
      for a double quote;
    - a greedy run of one or more \w.
    A double quote is neither \w nor \s, so the first alternative succeeds
    at a position exactly when the maximal \w-or-\s run starting there is
    followed by a double quote and ends in a \w; backtracking into the run
    can never meet the look-ahead.  The match is then the whole run. *)

Module Words.

(** The longest prefix of [s] whose characters satisfy [p], and the rest. *)
Fixpoint span (p : ascii -> bool) (s : string) : string * string :=
  match s with
  | String c s' =>
      if p c then let (run, rest) := span p s' in (String c run, rest)
      else (EmptyString, s)
  | EmptyString => (EmptyString, EmptyString)
  end.

Fixpoint ends_in_word_char (s : string) : bool :=
  match s with
  | EmptyString => false
  | String c EmptyString => Str.is_word_char c
  | String _ s' => ends_in_word_char s'
  end.

Definition starts_with_dquote (s : string) : bool :=
  match s with
  | String c _ => Ascii.eqb c Str.dquote
  | EmptyString => false
  end.

(** The match of the expression anchored at the head of [s], if any. *)
Definition match_here (s : string) : option string :=
  let (run, rest) :=
    span (fun c => Str.is_word_char c || Str.is_white_space c) s in
  if ends_in_word_char run && starts_with_dquote rest then Some run
  else
    let (word, _) := span Str.is_word_char s in
    if Str.nonempty word then Some word else None.

(** The scan of a global match: [skip] characters of the current match are
    still to be passed over. *)
Fixpoint scan (skip : nat) (s : string) : list string :=
  match s with
  | EmptyString => []
  | String _ s' =>
      match skip with
      | S k => scan k s'
      | O =>
          match match_here s with
          | Some m => m :: scan (String.length m - 1) s'
          | None => scan 0 s'
          end
      end
  end.

(** [s.match(WORD_MATCH_REGEX)]: the matches in order; the empty list
    stands for [null]. *)
Definition match_words (s : string) : list string := scan 0 s.

End Words.

(* ================================================================== *)
(** ** Values and plain objects *)

Module JS.

(** The values that flow through the controller.  [Native name] is the
    member [name] of [Object.prototype], which a property read on a plain
    object yields when the object has no own property of that name. *)
Inductive value : Type :=
| Undefined
| Bool (b : bool)
| Str (s : string)
| Native (name : string).

Definition value_eqb (a b : value) : bool :=
  match a, b with
  | Undefined, Undefined => true
  | Bool x, Bool y => Bool.eqb x y
  | Str x, Str y => String.eqb x y
  | Native x, Native y => String.eqb x y
  | _, _ => false
  end.

(** ToBoolean. *)
Definition truthy (v : value) : bool :=
  match v with
  | Undefined => false
  | Bool b => b
  | Str s => Str.nonempty s
  | Native _ => true
  end.

(** [a || b]. *)
Definition or_else (a b : value) : value := if truthy a then a else b.

(** ToString, with the text V8 gives for the members of
    [Object.prototype]. *)
Definition toString (v : value) : string :=
  match v with
  | Undefined => "undefined"
  | Bool true => "true"
  | Bool false => "false"
  | Str s => s
  | Native name =>
      if String.eqb name "__proto__" then "[object Object]"
      else "function " ++ (if String.eqb name "constructor" then "Object" else name)
           ++ "() { [native code] }"
  end.

(** [arr.join(sep)] on an array of values: [undefined] contributes the
    empty string. *)
Definition join (sep : string) (l : list value) : string :=
  Str.join sep
    (map (fun v => match v with Undefined => EmptyString | _ => toString v end) l).

(** [arr[i]]: [undefined] beyond the end. *)
Definition at_index (l : list value) (i : nat) : value := nth i l Undefined.

(** The own enumerable properties of a plain object, in creation order. *)
Definition object : Type := list (string * value).

Definition Object_prototype_members : list string :=
  [ "constructor"; "__defineGetter__"; "__defineSetter__"; "hasOwnProperty";
    "__lookupGetter__"; "__lookupSetter__"; "isPrototypeOf";
    "propertyIsEnumerable"; "toString"; "valueOf"; "__proto__";
    "toLocaleString" ].

Fixpoint get_own (o : object) (k : string) : option value :=
  match o with
  | [] => None
  | (k', v) :: rest => if String.eqb k k' then Some v else get_own rest k
  end.

Definition has_own (o : object) (k : string) : bool :=
  match get_own o k with Some _ => true | None => false end.

(** [o[k]]. *)
Definition get (o : object) (k : string) : value :=
  match get_own o k with
  | Some v => v
  | None => if Str.includes Object_prototype_members k then Native k else Undefined
  end.

(** [k in o]. *)
Definition has_property (o : object) (k : string) : bool :=
  has_own o k || Str.includes Object_prototype_members k.

(** CreateDataProperty, as [Object.fromEntries] and [JSON.parse] use it: an
    existing own property keeps its place and takes the new value, a new
    one is added last. *)
Fixpoint define (o : object) (k : string) (v : value) : object :=
  match o with
  | [] => [(k, v)]
  | (k', v') :: rest =>
      if String.eqb k k' then (k', v) :: rest else (k', v') :: define rest k v
  end.

(** [o[k] = v] for a value that is no object.  Without an own property
    [__proto__] the assignment reaches the accessor of [Object.prototype],
    whose setter ignores such a value; every other name, inherited or not,
    becomes or stays an own data property. *)
Definition set (o : object) (k : string) (v : value) : object :=
  if String.eqb k "__proto__" && negb (has_own o k) then o else define o k v.

(** [Object.fromEntries(entries)]. *)
Definition fromEntries (entries : list (string * value)) : object :=
  fold_left (fun o kv => define o (fst kv) (snd kv)) entries [].

(** [Object.assign(target, source)]: the target itself is updated, and it is
    the object every holder of [target] sees from then on. *)
Definition assign (target source : object) : object :=
  fold_left (fun o kv => set o (fst kv) (snd kv)) source target.

(** *** Property order

    The own keys of an object are enumerated with the array indices first,
    in ascending numeric order, then the other names in creation order. *)

Definition digit_of (c : ascii) : option N :=
  let n := nat_of_ascii c in
  if (48 <=? n) && (n <=? 57) then Some (N.of_nat (n - 48)) else None.

Fixpoint decimal (s : string) (acc : N) : option N :=
  match s with
  | EmptyString => Some acc
  | String c s' =>
      match digit_of c with
      | Some d => decimal s' (acc * 10 + d)%N
      | None => None
      end
  end.

(** The array index a property name denotes: a canonical decimal numeral
    of at most 2^32 - 2. *)
Definition array_index (k : string) : option N :=
  match k with
  | EmptyString => None
  | String c rest =>
      if Ascii.eqb c "0" && Str.nonempty rest then None
      else match decimal k 0 with
           | Some n => if (n <=? 4294967294)%N then Some n else None
           | None => None
           end
  end.

Fixpoint insert_by_index (n : N) (e : string * value)
    (l : list (N * (string * value))) : list (N * (string * value)) :=
  match l with
  | [] => [(n, e)]
  | (m, e') :: rest =>
      if (n <=? m)%N then (n, e) :: l else (m, e') :: insert_by_index n e rest
  end.

Fixpoint indexed_entries (o : object) : list (N * (string * value)) :=
  match o with
  | [] => []
  | (k, v) :: rest =>
      match array_index k with
      | Some n => insert_by_index n (k, v) (indexed_entries rest)
      | None => indexed_entries rest
      end
  end.

Definition named_entries (o : object) : object :=
  filter (fun kv => match array_index (fst kv) with Some _ => false | None => true end) o.

(** [Object.entries(o)]. *)
Definition Object_entries (o : object) : list (string * value) :=
  (map snd (indexed_entries o) ++ named_entries o)%list.

(** [Object.keys(o)]. *)
Definition Object_keys (o : object) : list string := map fst (Object_entries o).

(** [Object.values(o)]. *)
Definition Object_values (o : object) : list value := map snd (Object_entries o).

(** *** JSON.stringify *)

Definition hex_digit (n : nat) : ascii :=
  if n <? 10 then ascii_of_nat (48 + n) else ascii_of_nat (87 + n).

Definition backslash : ascii := ascii_of_nat 92.

(** The escape of one code unit in QuoteJSONString. *)
Definition json_escape (c : ascii) : string :=
  let n := nat_of_ascii c in
  if n =? 8 then String backslash "b"
  else if n =? 9 then String backslash "t"
  else if n =? 10 then String backslash "n"
  else if n =? 12 then String backslash "f"
  else if n =? 13 then String backslash "r"
  else if n =? 34 then String backslash (String Str.dquote EmptyString)
  else if n =? 92 then String backslash (String backslash EmptyString)
  else if n <? 32 then
    String backslash ("u00" ++ String (hex_digit (n / 16)) (String (hex_digit (n mod 16)) EmptyString))
  else String c EmptyString.

Fixpoint json_escape_all (s : string) : string :=
  match s with
  | EmptyString => EmptyString
  | String c s' => json_escape c ++ json_escape_all s'
  end.

Definition json_quote (s : string) : string :=
  String Str.dquote (json_escape_all s ++ String Str.dquote EmptyString).

(** The text of a member value; [None] for a value that has none, whose
    member is left out. *)
Definition json_value (v : value) : option string :=
  match v with
  | Str s => Some (json_quote s)
  | Bool true => Some "true"
  | Bool false => Some "false"
  | Undefined | Native _ => None
  end.

Fixpoint json_members (entries : list (string * value)) : list string :=
  match entries with
  | [] => []
  | (k, v) :: rest =>
      match json_value v with
      | Some t => (json_quote k ++ ":" ++ t) :: json_members rest
      | None => json_members rest
      end
  end.

(** [JSON.stringify(o)] for a plain object [o]. *)
Definition JSON_stringify (o : object) : string :=
  "{" ++ Str.join "," (json_members (Object_entries o)) ++ "}".

End JS.

(* ================================================================== *)
(** ** Exceptions *)

Inductive exn : Type :=
| TypeError (message : string)
| Failure (text : string).

Inductive result (A : Type) : Type :=
| Ok (a : A)
| Throw (e : exn).

Arguments Ok {A} a.
Arguments Throw {A} e.

Definition bind {A B : Type} (r : result A) (k : A -> result B) : result B :=
  match r with
  | Ok a => k a
  | Throw e => Throw e
  end.

Notation "x <- r ;; k" := (bind r (fun x => k))
  (at level 61, r at next level, right associativity).

(** The text of an exception inside a template literal. *)
Definition exn_toString (e : exn) : string :=
  match e with
  | TypeError message => "TypeError: " ++ message
  | Failure text => text
  end.

(** What V8 throws for [undefined.replace]. *)
Definition replace_of_undefined : exn :=
  TypeError "Cannot read properties of undefined (reading 'replace')".

(* ================================================================== *)
(** ** Configuration

    [CONFIG] and [Status] of [./config], and the user settings the
    controller reads from the configuration sheet with
    [getConfigSheetValue].  Column fields are zero-based indices into a
    row array; row fields are sheet rows. *)

Record Config : Type := {
  input_startRow : Z;
  generated_name : string;
  generated_startRow : Z;
  generated_cols_approval : nat;
  generated_cols_status : nat;
  generated_cols_id : nat;
  generated_cols_titleGenerated : nat;
  generated_cols_descriptionGenerated : nat;
  generated_cols_gapAttributes : nat;
  generated_cols_originalInput : nat;
  output_name : string;
  output_startRow : Z;
  output_cols_modificationTimestamp : nat;
  output_cols_id_idx : nat;
  output_cols_id_name : string;
  output_cols_title_idx : nat;
  output_cols_title_name : string;
  output_cols_description_idx : nat;
  output_cols_description_name : string;
  output_cols_gapCols_start : nat;
  Status_SUCCESS : string;
  Status_FAILED : string;
  itemIdColumnName : string;
  titleColumnName : string;
  descriptionColumnName : string;
  title_fullPrompt : string;
  description_fullPrompt : string
}.

Definition ORIGINAL_TITLE_TEMPLATE_PROMPT_PART : string :=
  "product attribute keys in original title:".
Definition CATEGORY_PROMPT_PART : string := "product category:".
Definition TEMPLATE_PROMPT_PART : string := "product attribute keys:".
Definition ATTRIBUTES_PROMPT_PART : string := "product attribute values:".
Definition SEPARATOR : ascii := "|".

Definition newline : string := String Str.LF EmptyString.

(* ================================================================== *)
(** ** Metrics scorer: [getGenerationMetrics] *)

(** Modelled from the spec: [Util.getSetDifference] of [./helpers/util] is
    not part of the sources; the specification describes it as the
    set-difference, here of the first set minus the second, as an array in
    the first set's order. *)
Definition getSetDifference (a b : list string) : list string :=
  filter (fun x => negb (Str.includes b x)) a.

(** The locals of [getGenerationMetrics] the score is computed from. *)
Record Signals : Type := {
  sig_titleChanged : bool;
  sig_addedAttributes : list string;
  sig_newWordsAdded : list string;
  sig_gapAttributesPresent : list string;
  sig_gapAttributesInvented : list string
}.

Definition generationSignals (origTitle : JS.value) (genTitle : string)
    (origAttributes genAttributes inputWords : list string)
    (gapAttributesAndValues originalInput : JS.object) : Signals :=
  {| sig_titleChanged := negb (JS.value_eqb origTitle (JS.Str genTitle));
     sig_addedAttributes := getSetDifference genAttributes origAttributes;
     sig_newWordsAdded :=
       Str.dedup
         (filter (fun genTitleWord =>
                    negb (Str.includes inputWords (Str.toLowerCase genTitleWord)))
                 (Words.match_words genTitle));
     sig_gapAttributesPresent :=
       filter (fun gapKey => JS.has_property originalInput gapKey)
              (JS.Object_keys gapAttributesAndValues);
     sig_gapAttributesInvented :=
       filter (fun gapKey => negb (JS.has_property originalInput gapKey))
              (JS.Object_keys gapAttributesAndValues) |}.

(** [Number(b)] of a boolean. *)
Definition Number (b : bool) : nat := if b then 1 else 0.

(** The numerator of [totalScore]: the sum of the five indicators. *)
Definition scoreSum (s : Signals) : nat :=
  Number (0 <? length (sig_addedAttributes s))
  + Number (sig_titleChanged s)
  + Number (length (sig_newWordsAdded s) =? 0)
  + Number (0 <? length (sig_gapAttributesPresent s))
  + Number (0 <? length (sig_gapAttributesInvented s)).

(** [totalScore] as a number: the sum divided by 5. *)
Definition totalScoreValue (s : Signals) : Q :=
  (inject_Z (Z.of_nat (scoreSum s)) / inject_Z 5)%Q.

(** [(n / 5).toString()] for [n] from 0 to 5: the shortest decimal that
    reads back as the double nearest to n/5. *)
Definition fifths_toString (n : nat) : string :=
  match n with
  | 0 => "0"
  | 1 => "0.2"
  | 2 => "0.4"
  | 3 => "0.6"
  | 4 => "0.8"
  | _ => "1"
  end.

Record Metrics : Type := {
  totalScore : string;
  titleChanged : string;
  addedAttributes : string;
  newWordsAdded : string
}.

Definition getGenerationMetrics (origTitle : JS.value) (genTitle : string)
    (origAttributes genAttributes inputWords : list string)
    (gapAttributesAndValues originalInput : JS.object) : Metrics :=
  let s := generationSignals origTitle genTitle origAttributes genAttributes
             inputWords gapAttributesAndValues originalInput in
  {| totalScore := fifths_toString (scoreSum s);
     titleChanged := JS.toString (JS.Bool (sig_titleChanged s));
     addedAttributes :=
       Str.join " " (map (fun attr => "<" ++ attr ++ ">") (sig_addedAttributes s));
     newWordsAdded :=
       Str.join (" " ++ String SEPARATOR " ") (sig_newWordsAdded s) |}.

(* ================================================================== *)
(** ** Response parser and row reconciler: [optimizeRow] *)

(** [row.replace(prefix, '')] on a destructured line that may be
    [undefined]. *)
Definition replacePrefix (row : option string) (prefix : string) : result string :=
  match row with
  | Some r => Ok (Str.replace prefix "" r)
  | None => Throw replace_of_undefined
  end.

(** [text.split(SEPARATOR).filter(x => x).map(x => x.trim())]: the empty
    pieces are dropped first, the remaining ones are trimmed afterwards. *)
Definition pieces (text : string) : list string :=
  map Str.trim (filter Str.nonempty (Str.split SEPARATOR text)).

(** [row.replace(prefix, '').split(SEPARATOR).filter(x => x).map(x => x.trim())]. *)
Definition parseSegment (row : option string) (prefix : string)
    : result (list string) :=
  text <- replacePrefix row prefix ;;
  Ok (pieces text).

(** [keys.map(x => `<${x.trim()}>`).join(' ')]. *)
Definition templateOf (keys : list string) : string :=
  Str.join " " (map (fun x => "<" ++ Str.trim x ++ ">") keys).

(** [values[index]] on an array of strings. *)
Definition string_at (l : list string) (index : nat) : JS.value :=
  match nth_error l index with
  | Some s => JS.Str s
  | None => JS.Undefined
  end.

(** [arr.map((item, index) => ...)] and [forEach] see each element with its
    index. *)
Definition indexed {A : Type} (l : list A) : list (nat * A) :=
  combine (seq 0 (length l)) l.

(** The test of the loop body: the row has no truthy value for the
    attribute, and the attribute is outside the original template or is one
    of the row's own keys. *)
Definition isGap (dataObj : JS.object) (origAttributes : list string)
    (attribute : string) : bool :=
  negb (JS.truthy (JS.get dataObj attribute))
  && (negb (Str.includes origAttributes attribute)
      || Str.includes (JS.Object_keys dataObj) attribute).

(** One iteration of [genAttributes.forEach], on the pair of arrays the
    loop fills. *)
Definition reconcileStep (dataObj : JS.object)
    (origAttributes genAttributeValues : list string)
    (acc : list JS.value * JS.object) (item : nat * string)
    : list JS.value * JS.object :=
  let '(titleFeatures, gapAttributesAndValues) := acc in
  let '(index, attribute) := item in
  (titleFeatures
     ++ [JS.or_else (JS.get dataObj attribute) (string_at genAttributeValues index)],
   if isGap dataObj origAttributes attribute
   then JS.set gapAttributesAndValues attribute (string_at genAttributeValues index)
   else gapAttributesAndValues)%list.

(** The loop: [titleFeatures] and [gapAttributesAndValues] when it ends. *)
Definition reconcile (dataObj : JS.object)
    (origAttributes genAttributes genAttributeValues : list string)
    : list JS.value * JS.object :=
  fold_left (reconcileStep dataObj origAttributes genAttributeValues)
            (indexed genAttributes) ([], []).

(** [headers[index]] as a property name: a missing header is the name
    [undefined]. *)
Definition headerAt (headers : list string) (index : nat) : string :=
  nth index headers "undefined".

(** [Object.fromEntries(data.map((item, index) => [headers[index], item]))]. *)
Definition rowObject (headers data : list string) : JS.object :=
  JS.fromEntries
    (map (fun item => (headerAt headers (fst item), JS.Str (snd item))) (indexed data)).

(** The words of all values of the row object, lower-cased: [inputWords]. *)
Definition inputWordsOf (dataObj : JS.object) : list string :=
  Str.dedup
    (flat_map (fun value => map Str.toLowerCase (Words.match_words (JS.toString value)))
              (JS.Object_values dataObj)).

(** The locals of [optimizeRow] up to the generated title. *)
Record TitlePhase : Type := {
  tp_dataObj : JS.object;
  tp_res : string;
  tp_genCategory : string;
  tp_genAttributes : list string;
  tp_genTemplate : string;
  tp_origAttributes : list string;
  tp_origTemplate : string;
  tp_genAttributeValues : list string;
  tp_titleFeatures : list JS.value;
  tp_gapAttributesAndValues : JS.object;
  tp_genTitle : string
}.

Section Controller.

Variable cfg : Config.

(** The two calls of the language model, each with its own generation
    parameters, retries included: the prompt goes in, the text comes out or
    the call throws. *)
Variable predictTitle : string -> result string.
Variable predictDescription : string -> result string.

Definition fetchTitleGenerationData (data : JS.object) : result string :=
  let dataContext := "Context: " ++ JS.JSON_stringify data ++ newline ++ newline in
  let prompt := title_fullPrompt cfg ++ dataContext in
  predictTitle prompt.

(** [Object.assign(data, ...)] updates the caller's object: the object is
    returned with the text so that the caller goes on with it. *)
Definition fetchDescriptionGenerationData (data : JS.object)
    (generatedTitle : string) : result (string * JS.object) :=
  let modifiedData := JS.assign data [("Generated Title", JS.Str generatedTitle)] in
  let dataContext := "Context: " ++ JS.JSON_stringify modifiedData ++ newline ++ newline in
  let prompt := description_fullPrompt cfg ++ dataContext in
  res <- predictDescription prompt ;;
  Ok (res, modifiedData).

(** [optimizeRow] from the row object to the generated title. *)
Definition titlePhase (headers data : list string) : result TitlePhase :=
  let dataObj := rowObject headers data in
  res <- fetchTitleGenerationData dataObj ;;
  let lines := Str.split Str.LF res in
  let origTemplateRow := nth_error lines 0 in
  let genCategoryRow := nth_error lines 1 in
  let genTemplateRow := nth_error lines 2 in
  let genAttributesRow := nth_error lines 3 in
  genCategoryText <- replacePrefix genCategoryRow CATEGORY_PROMPT_PART ;;
  let genCategory := Str.trim genCategoryText in
  genAttributes <- parseSegment genTemplateRow TEMPLATE_PROMPT_PART ;;
  let genTemplate := templateOf genAttributes in
  origAttributes <- parseSegment origTemplateRow ORIGINAL_TITLE_TEMPLATE_PROMPT_PART ;;
  let origTemplate := templateOf origAttributes in
  genAttributeValues <- parseSegment genAttributesRow ATTRIBUTES_PROMPT_PART ;;
  let '(titleFeatures, gapAttributesAndValues) :=
    reconcile dataObj origAttributes genAttributes genAttributeValues in
  let genTitle := JS.join " " titleFeatures in
  Ok {| tp_dataObj := dataObj;
        tp_res := res;
        tp_genCategory := genCategory;
        tp_genAttributes := genAttributes;
        tp_genTemplate := genTemplate;
        tp_origAttributes := origAttributes;
        tp_origTemplate := origTemplate;
        tp_genAttributeValues := genAttributeValues;
        tp_titleFeatures := titleFeatures;
        tp_gapAttributesAndValues := gapAttributesAndValues;
        tp_genTitle := genTitle |}.

(** [optimizeRow] from the description call to the returned array.  The
    row object the remaining code reads is the one
    [fetchDescriptionGenerationData] has updated. *)
Definition finishRow (t : TitlePhase) : result (list JS.value) :=
  let itemId := JS.get (tp_dataObj t) (itemIdColumnName cfg) in
  let origTitle := JS.get (tp_dataObj t) (titleColumnName cfg) in
  let origDescription := JS.get (tp_dataObj t) (descriptionColumnName cfg) in
  described <- fetchDescriptionGenerationData (tp_dataObj t) (tp_genTitle t) ;;
  let '(genDescription, dataObj) := described in
  let inputWords := inputWordsOf dataObj in
  let m := getGenerationMetrics origTitle (tp_genTitle t)
             (Str.dedup (tp_origAttributes t)) (Str.dedup (tp_genAttributes t))
             inputWords (tp_gapAttributesAndValues t) dataObj in
  Ok [ JS.Bool false;
       JS.Str "Success";
       itemId;
       JS.Str (tp_genTitle t);
       JS.Str genDescription;
       JS.Str (tp_genCategory t);
       JS.Str (totalScore m);
       JS.Str (titleChanged m);
       JS.Str (tp_origTemplate t);
       JS.Str (tp_genTemplate t);
       JS.Str (addedAttributes m);
       JS.Str (newWordsAdded m);
       JS.Str (if 0 <? length (JS.Object_keys (tp_gapAttributesAndValues t))
               then JS.JSON_stringify (tp_gapAttributesAndValues t) else "");
       JS.Str (JS.JSON_stringify dataObj);
       origTitle;
       origDescription;
       JS.Str (tp_res t ++ newline ++ "product description: " ++ genDescription) ].

Definition optimizeRow (headers data : list string) : result (list JS.value) :=
  t <- titlePhase headers data ;;
  finishRow t.

End Controller.

(* ================================================================== *)
(** ** Sheets, the logger and their effects *)

(** A call of the sheet service or of the logger that changes something. *)
Inductive effect : Type :=
| Log (message : string)
| ClearDefinedRange (sheetName : string) (row col : Z)
| SetValuesInDefinedRange (sheetName : string) (row col : Z) (rows : list (list JS.value))
| AppendRow (sheetName : string) (row : list JS.value).

(** A computation that issues effects and then returns or throws. *)
Definition io (A : Type) : Type := list effect * result A.

Definition io_ret {A : Type} (a : A) : io A := ([], Ok a).

Definition io_lift {A : Type} (r : result A) : io A := ([], r).

Definition emit (e : effect) : io unit := ([e], Ok tt).

Definition io_bind {A B : Type} (m : io A) (k : A -> io B) : io B :=
  match m with
  | (issued, Ok a) => let (more, r) := k a in ((issued ++ more)%list, r)
  | (issued, Throw e) => (issued, Throw e)
  end.

(** [try { m } catch (e) { handler e }]. *)
Definition try_catch {A : Type} (m : io A) (handler : exn -> io A) : io A :=
  match m with
  | (issued, Throw e) => let (more, r) := handler e in ((issued ++ more)%list, r)
  | (issued, Ok a) => (issued, Ok a)
  end.

Notation "x <~ m ;; k" := (io_bind m (fun x => k))
  (at level 61, m at next level, right associativity).

Module Sheet.

(** The grid of a sheet: row 1 first, column 1 first in each row. *)
Definition sheet : Type := list (list JS.value).

Definition blank_cell (v : JS.value) : bool :=
  match v with
  | JS.Undefined => true
  | JS.Str s => negb (Str.nonempty s)
  | _ => false
  end.

Definition blank_row (r : list JS.value) : bool := forallb blank_cell r.

(** [sheet.getLastRow()]: the position of the last row that has content. *)
Fixpoint getLastRow (s : sheet) : nat :=
  match s with
  | [] => 0
  | r :: rest =>
      match getLastRow rest with
      | 0 => if blank_row r then 0 else 1
      | S n => S (S n)
      end
  end.

(** The value [getValues] reports for the cell at [row], [col]: the empty
    string for an empty cell. *)
Definition cell (s : sheet) (row col : nat) : JS.value :=
  match nth (col - 1) (nth (row - 1) s []) JS.Undefined with
  | JS.Undefined => JS.Str ""
  | v => v
  end.

(** [new] written over [old] from position [n] (zero-based), the gap
    between them filled with [pad]. *)
Fixpoint overwrite {A : Type} (pad : A) (n : nat) (new old : list A) : list A :=
  match n with
  | S k =>
      match old with
      | [] => pad :: overwrite pad k new []
      | x :: rest => x :: overwrite pad k new rest
      end
  | O => (new ++ skipn (length new) old)%list
  end.

(** The rows [rows] written from [row], each from column [col]. *)
Fixpoint writeRows (s : sheet) (row col : nat) (rows : list (list JS.value)) : sheet :=
  match rows with
  | [] => s
  | r :: rest =>
      let old := nth (row - 1) s [] in
      writeRows (overwrite [] (row - 1) [overwrite JS.Undefined (col - 1) r old] s)
                (S row) col rest
  end.

(** [sheet.appendRow(r)]: the row goes below the last row with content. *)
Definition appendRow (s : sheet) (r : list JS.value) : sheet :=
  writeRows s (S (getLastRow s)) 1 [r].

End Sheet.

(** [arr[i] = v] on an array: the array grows, with holes, up to [i]. *)
Definition set_index (l : list JS.value) (i : nat) (v : JS.value) : list JS.value :=
  Sheet.overwrite JS.Undefined i [v] l.

(* ================================================================== *)
(** ** Export reconciler: [getGapAndInventedAttributes], [exportApproved] *)

Section ExportReconciler.

Variable cfg : Config.

(** [JSON.parse] on the text of a cell of the two blob columns: the plain
    object it denotes, or the exception it throws. *)
Variable JSON_parse : string -> result JS.object.

(** [new Date().toISOString()] at the time the export row numbered [i] is
    built. *)
Variable timestamp : nat -> string.

(** [row[col] ? JSON.parse(row[col]) : {}]. *)
Definition parseCellOr (row : list JS.value) (col : nat) : result JS.object :=
  if JS.truthy (JS.at_index row col)
  then JSON_parse (JS.toString (JS.at_index row col))
  else Ok [].

(** [rows.filter(row => row[col]).map(row => Object.keys(JSON.parse(row[col]))).flat(1)]. *)
Fixpoint keysOfColumn (col : nat) (rows : list (list JS.value)) : result (list string) :=
  match rows with
  | [] => Ok []
  | row :: rest =>
      if JS.truthy (JS.at_index row col) then
        parsed <- JSON_parse (JS.toString (JS.at_index row col)) ;;
        keys <- keysOfColumn col rest ;;
        Ok (JS.Object_keys parsed ++ keys)%list
      else keysOfColumn col rest
  end.

(** The pair [[inventedAttributes, gapAttributes]]. *)
Definition getGapAndInventedAttributes (rows : list (list JS.value))
    : result (list string * list string) :=
  filledIn <- keysOfColumn (generated_cols_gapAttributes cfg) rows ;;
  let filledInGapAttributes := Str.dedup filledIn in
  allInput <- keysOfColumn (generated_cols_originalInput cfg) rows ;;
  let allInputAttributes := Str.dedup allInput in
  let inventedAttributes :=
    filter (fun gapKey => negb (Str.includes allInputAttributes gapKey))
           filledInGapAttributes in
  let gapAttributes :=
    filter (fun gapKey => negb (Str.includes inventedAttributes gapKey))
           filledInGapAttributes in
  Ok (inventedAttributes, gapAttributes).

(** The value the loop body puts under a gap or invented column. *)
Definition exportedValue (gapAttributesAndValues originalInput : JS.object)
    (attribute : string) : JS.value :=
  if Str.includes (JS.Object_keys gapAttributesAndValues) attribute
  then JS.get gapAttributesAndValues attribute
  else JS.get originalInput attribute.

(** One iteration of the [for] loop: the export row built from [row]. *)
Definition exportRow (gapAndInventedAttributes : list string) (i : nat)
    (row : list JS.value) : result (list JS.value) :=
  let resRow := [] in
  let resRow := set_index resRow (output_cols_modificationTimestamp cfg)
                  (JS.Str (timestamp i)) in
  let resRow := set_index resRow (output_cols_id_idx cfg)
                  (JS.at_index row (generated_cols_id cfg)) in
  let resRow := set_index resRow (output_cols_title_idx cfg)
                  (JS.at_index row (generated_cols_titleGenerated cfg)) in
  let resRow := set_index resRow (output_cols_description_idx cfg)
                  (JS.at_index row (generated_cols_descriptionGenerated cfg)) in
  gapAttributesAndValues <- parseCellOr row (generated_cols_gapAttributes cfg) ;;
  originalInput <- parseCellOr row (generated_cols_originalInput cfg) ;;
  Ok (fold_left
        (fun resRow item =>
           set_index resRow (output_cols_gapCols_start cfg + fst item)
             (exportedValue gapAttributesAndValues originalInput (snd item)))
        (indexed gapAndInventedAttributes) resRow).

(** The [for] loop over the approved rows, from the row numbered [i]. *)
Fixpoint exportRows (gapAndInventedAttributes : list string) (i : nat)
    (rows : list (list JS.value)) : result (list (list JS.value)) :=
  match rows with
  | [] => Ok []
  | row :: rest =>
      resRow <- exportRow gapAndInventedAttributes i row ;;
      others <- exportRows gapAndInventedAttributes (S i) rest ;;
      Ok (resRow :: others)
  end.

Definition clearApprovedData : io unit :=
  _ <~ emit (Log "Clearing approved data...") ;;
  _ <~ emit (ClearDefinedRange (output_name cfg) (output_startRow cfg)
               (Z.of_nat (output_cols_id_idx cfg) + 1)) ;;
  emit (ClearDefinedRange (output_name cfg) (output_startRow cfg + 1) 1).

Definition writeApprovedData (header : list string) (rows : list (list JS.value))
    : io unit :=
  _ <~ emit (Log "Writing approved data...") ;;
  _ <~ emit (SetValuesInDefinedRange (output_name cfg) (output_startRow cfg)
               (Z.of_nat (output_cols_id_idx cfg) + 1) [map JS.Str header]) ;;
  emit (SetValuesInDefinedRange (output_name cfg) (output_startRow cfg + 1) 1 rows).

(** The rows of [getGeneratedRows()] with the approval cell strictly equal
    to [true]. *)
Definition approvedRows (generatedRows : list (list JS.value)) : list (list JS.value) :=
  filter (fun row =>
            JS.value_eqb (JS.at_index row (generated_cols_approval cfg)) (JS.Bool true))
         generatedRows.

(** The header row of the export. *)
Definition outputHeaderOf (inventedAttributes gapAttributes : list string) : list string :=
  ([ output_cols_id_name cfg; output_cols_title_name cfg;
     output_cols_description_name cfg ]
   ++ gapAttributes ++ map (fun key => String.append "new_" key) inventedAttributes)%list.

(** [exportApproved], given what [getGeneratedRows()] returns. *)
Definition exportApproved (generatedRows : list (list JS.value)) : io unit :=
  _ <~ emit (Log "Exporting approved rows...") ;;
  let feedGenRows := approvedRows generatedRows in
  if length feedGenRows =? 0 then io_ret tt
  else
    attrs <~ io_lift (getGapAndInventedAttributes feedGenRows) ;;
    let '(inventedAttributes, gapAttributes) := attrs in
    let gapAndInventedAttributes := (gapAttributes ++ inventedAttributes)%list in
    let outputHeader := outputHeaderOf inventedAttributes gapAttributes in
    rowsToWrite <~ io_lift (exportRows gapAndInventedAttributes 0 feedGenRows) ;;
    _ <~ clearApprovedData ;;
    writeApprovedData outputHeader rowsToWrite.

End ExportReconciler.

(* ================================================================== *)
(** ** Per-row driver: [findRowIndex], [getNextRowIndexToBeGenerated],
       [generateNextRow] *)

(** What the driver reads from the input sheet: [getLastRow()], the row
    [SheetsService.getHeaders] returns, and the values of
    [getRange(row, 1, 1, getLastColumn()).getValues()[0]]. *)
Record InputSheet : Type := {
  in_lastRow : Z;
  in_headers : list string;
  in_rowValues : Z -> result (list string)
}.

(** The two sheets [getSheetByName] looks up; [None] when there is no sheet
    of that name. *)
Record World : Type := {
  inputSheet : option InputSheet;
  generatedSheet : option Sheet.sheet
}.

(** [`${n}`] for an integer. *)
Definition Z_toString (n : Z) : string := NilZero.string_of_int (Z.to_int n).

(** [arr.findIndex(p)]: the first index whose element satisfies [p], or -1. *)
Fixpoint findIndex {A : Type} (p : A -> bool) (l : list A) : Z :=
  match l with
  | [] => -1
  | x :: rest =>
      if p x then 0
      else let i := findIndex p rest in if (i <? 0)%Z then -1 else (i + 1)%Z
  end.

(** [searchValues.includes(cell)] for an array of strings and a cell. *)
Definition includesCell (searchValues : list string) (cell : JS.value) : bool :=
  match cell with
  | JS.Str s => Str.includes searchValues s
  | _ => false
  end.

Definition findRowIndex (sheet : option Sheet.sheet) (sheetName : string)
    (searchValues : list string) (column offset : Z) (negate : bool) : result Z :=
  match sheet with
  | None => Throw (Failure ("Error: Sheet " ++ sheetName ++ " not found"))
  | Some s =>
      let lastRow := Z.of_nat (Sheet.getLastRow s) in
      if (lastRow - offset + 1 =? 0)%Z then Ok 0%Z
      else if (offset <? 1)%Z || (column <? 1)%Z || (lastRow - offset + 1 <? 0)%Z
      then Throw (Failure "Exception: The range is not valid")
      else
        let data :=
          map (fun row => Sheet.cell s row (Z.to_nat column))
              (seq (Z.to_nat offset) (Z.to_nat (lastRow - offset + 1))) in
        let rowIndex :=
          findIndex (fun cell => if negate then negb (includesCell searchValues cell)
                                 else includesCell searchValues cell) data in
        Ok (if (0 <=? rowIndex)%Z then rowIndex else (-1)%Z)
  end.

(** Modelled from the spec: [SheetsService.getTotalRows] of
    [./helpers/sheets] is not part of the sources; the specification gives
    it as the count of rows of the named sheet, here the position of its
    last row with content, and [undefined] without such a sheet. *)
Definition getTotalRows (sheet : option Sheet.sheet) : option Z :=
  match sheet with
  | Some s => Some (Z.of_nat (Sheet.getLastRow s))
  | None => None
  end.

Section Driver.

Variable cfg : Config.
Variable predictTitle : string -> result string.
Variable predictDescription : string -> result string.

Definition getNextRowIndexToBeGenerated (w : World) : result Z :=
  index <- findRowIndex (generatedSheet w) (generated_name cfg)
             [Status_SUCCESS cfg]
             (Z.of_nat (generated_cols_status cfg) + 1)
             (generated_startRow cfg + 1) true ;;
  if (index <? 0)%Z then
    match getTotalRows (generatedSheet w) with
    | None => Throw (Failure "Error: Error reading generated rows")
    | Some totalGeneratedRows => Ok (totalGeneratedRows - generated_startRow cfg)%Z
    end
  else Ok index.

(** The row the [catch] block appends. *)
Definition failedRow : list JS.value :=
  set_index [] (generated_cols_status cfg)
    (JS.Str (Status_FAILED cfg ++ ". See log for more details.")).

(** [generateNextRow]: [None] is the [undefined] of the bare [return]. *)
Definition generateNextRow (w : World) : io (option Z) :=
  match inputSheet w, generatedSheet w with
  | Some input, Some _ =>
      rowIndex <~ io_lift (getNextRowIndexToBeGenerated w) ;;
      if (in_lastRow input - input_startRow cfg <=? rowIndex)%Z
      then io_ret (Some (-1)%Z)
      else
        _ <~ emit (Log ("Generating for row " ++ Z_toString rowIndex)) ;;
        row <~ io_lift (in_rowValues input (input_startRow cfg + 1 + rowIndex)%Z) ;;
        _ <~ try_catch
               (optimizedRow <~ io_lift (optimizeRow cfg predictTitle predictDescription
                                           (in_headers input) row) ;;
                _ <~ emit (SetValuesInDefinedRange (generated_name cfg)
                             (generated_startRow cfg + 1 + rowIndex)%Z 1 [optimizedRow]) ;;
                emit (Log (Status_SUCCESS cfg)))
               (fun e =>
                  _ <~ emit (Log ("Error: " ++ exn_toString e)) ;;
                  emit (AppendRow (generated_name cfg) failedRow)) ;;
        io_ret (Some rowIndex)
  | _, _ => io_ret None
  end.

(** What an effect of the driver does to the grid of the generated sheet.
    [ClearDefinedRange] is not one of them and has no reading here. *)
Definition applyEffect (s : Sheet.sheet) (e : effect) : option Sheet.sheet :=
  match e with
  | Log _ => Some s
  | SetValuesInDefinedRange name row col rows =>
      if String.eqb name (generated_name cfg)
      then Some (Sheet.writeRows s (Z.to_nat row) (Z.to_nat col) rows)
      else Some s
  | AppendRow name r =>
      if String.eqb name (generated_name cfg) then Some (Sheet.appendRow s r) else Some s
  | ClearDefinedRange _ _ _ => None
  end.

Fixpoint applyEffects (s : Sheet.sheet) (issued : list effect) : option Sheet.sheet :=
  match issued with
  | [] => Some s
  | e :: rest =>
      match applyEffect s e with
      | Some s' => applyEffects s' rest
      | None => None
      end
  end.

(** One invocation of [generateNextRow] on a world with both sheets: the
    generated sheet afterwards, the log lines written and the outcome. *)
Definition invoke (w : World) : option (World * list effect * result (option Z)) :=
  let (issued, outcome) := generateNextRow w in
  match generatedSheet w with
  | Some s =>
      match applyEffects s issued with
      | Some s' =>
          Some ({| inputSheet := inputSheet w; generatedSheet := Some s' |}, issued, outcome)
      | None => None
      end
  | None => Some (w, issued, outcome)
  end.

End Driver.

(* ================================================================== *)
(** ** Reading the blobs back

    The two blob columns hold what [optimizeRow] wrote with
    [JSON.stringify]: the text of an object whose members are strings.
    [Blob.parse] is [JSON.parse] on such text; text of any other shape is
    reported as a syntax error.  The export reconciler above is stated for
    an arbitrary parser; this one runs it on concrete sheets. *)

Module Blob.

Definition is_json_space (c : ascii) : bool :=
  let n := nat_of_ascii c in (n =? 32) || (n =? 9) || (n =? 10) || (n =? 13).

Fixpoint skip_space (s : string) : string :=
  match s with
  | String c s' => if is_json_space c then skip_space s' else s
  | EmptyString => EmptyString
  end.

Definition hex_value (c : ascii) : option nat :=
  let n := nat_of_ascii c in
  if (48 <=? n) && (n <=? 57) then Some (n - 48)
  else if (97 <=? n) && (n <=? 102) then Some (n - 87)
  else if (65 <=? n) && (n <=? 70) then Some (n - 55)
  else None.

(** The character a one-letter escape stands for. *)
Definition simple_escape (c : ascii) : option ascii :=
  let n := nat_of_ascii c in
  if n =? 34 then Some Str.dquote
  else if n =? 92 then Some JS.backslash
  else if n =? 47 then Some "/"%char
  else if n =? 98 then Some (ascii_of_nat 8)
  else if n =? 102 then Some (ascii_of_nat 12)
  else if n =? 110 then Some (ascii_of_nat 10)
  else if n =? 114 then Some (ascii_of_nat 13)
  else if n =? 116 then Some (ascii_of_nat 9)
  else None.

(** The code unit of a four-digit escape, when it is below 256. *)
Definition unicode_escape (a b c d : ascii) : option ascii :=
  match hex_value a, hex_value b, hex_value c, hex_value d with
  | Some 0, Some 0, Some x, Some y => Some (ascii_of_nat (16 * x + y))
  | _, _, _, _ => None
  end.

(** The rest of a string literal after its opening quote: the string it
    denotes and the text after the closing quote. *)
Fixpoint string_body (s : string) : option (string * string) :=
  match s with
  | EmptyString => None
  | String c rest =>
      if Ascii.eqb c Str.dquote then Some (EmptyString, rest)
      else if Ascii.eqb c JS.backslash then
        match rest with
        | String e rest1 =>
            match simple_escape e with
            | Some ch =>
                match string_body rest1 with
                | Some (t, r) => Some (String ch t, r)
                | None => None
                end
            | None =>
                match rest1 with
                | String h1 (String h2 (String h3 (String h4 rest2))) =>
                    if Ascii.eqb e "u" then
                      match unicode_escape h1 h2 h3 h4, string_body rest2 with
                      | Some ch, Some (t, r) => Some (String ch t, r)
                      | _, _ => None
                      end
                    else None
                | _ => None
                end
            end
        | EmptyString => None
        end
      else if nat_of_ascii c <? 32 then None
      else
        match string_body rest with
        | Some (t, r) => Some (String c t, r)
        | None => None
        end
  end.

(** A string literal at the head of [s], after white space. *)
Definition string_literal (s : string) : option (string * string) :=
  match skip_space s with
  | String c rest => if Ascii.eqb c Str.dquote then string_body rest else None
  | EmptyString => None
  end.

Definition expect (c : ascii) (s : string) : option string :=
  match skip_space s with
  | String c' rest => if Ascii.eqb c c' then Some rest else None
  | EmptyString => None
  end.

(** The members after the first one has been announced, up to the closing
    brace; [fuel] bounds the number of members. *)
Fixpoint members (fuel : nat) (s : string) (acc : JS.object) : option (JS.object * string) :=
  match fuel with
  | O => None
  | S fuel' =>
      match string_literal s with
      | None => None
      | Some (key, s1) =>
          match expect ":" s1 with
          | None => None
          | Some s2 =>
              match string_literal s2 with
              | None => None
              | Some (text, s3) =>
                  let acc' := JS.define acc key (JS.Str text) in
                  match expect "," s3 with
                  | Some s4 => members fuel' s4 acc'
                  | None =>
                      match expect "}" s3 with
                      | Some s4 => Some (acc', s4)
                      | None => None
                      end
                  end
              end
          end
      end
  end.

Definition parse_object (s : string) : option JS.object :=
  match expect "{" s with
  | None => None
  | Some s1 =>
      match expect "}" s1 with
      | Some s2 => match skip_space s2 with EmptyString => Some [] | _ => None end
      | None =>
          match members (String.length s) s1 [] with
          | Some (o, s2) => match skip_space s2 with EmptyString => Some o | _ => None end
          | None => None
          end
      end
  end.

Definition parse (s : string) : result JS.object :=
  match parse_object s with
  | Some o => Ok o
  | None => Throw (Failure "SyntaxError: Unexpected token in JSON")
  end.

End Blob.

(* ================================================================== *)
(** ** Approval: [writeGeneratedRows], [approveFiltered] *)

Section Approval.

Variable cfg : Config.

(** [writeGeneratedRows(rows, withHeader)]. *)
Definition writeGeneratedRows (rows : list (list JS.value)) (withHeader : bool) : io unit :=
  let offset := if withHeader then 0%Z else 1%Z in
  emit (SetValuesInDefinedRange (generated_name cfg) (generated_startRow cfg + offset)%Z 1
          rows).

(** The body of [rows.map((row, index) => ...)]: the approval cell of a
    row the filter hides is assigned its own value, the one of any other
    row is assigned [true]. *)
Definition approveRow (isRowHiddenByFilter : Z -> bool) (index : nat)
    (row : list JS.value) : list JS.value :=
  set_index row (generated_cols_approval cfg)
    (if isRowHiddenByFilter (Z.of_nat index + generated_startRow cfg + 1)%Z
     then JS.at_index row (generated_cols_approval cfg)
     else JS.Bool true).

Definition approveRows (isRowHiddenByFilter : Z -> bool) (rows : list (list JS.value))
    : list (list JS.value) :=
  map (fun item => approveRow isRowHiddenByFilter (fst item) (snd item)) (indexed rows).

(** [approveFiltered], given the [isRowHiddenByFilter] of the generated
    sheet, when there is such a sheet, and what [getGeneratedRows()]
    returns, [None] standing for [undefined]. *)
Definition approveFiltered (sheet : option (Z -> bool))
    (rows : option (list (list JS.value))) : io unit :=
  _ <~ emit (Log "Approving filtered rows...") ;;
  match sheet, rows with
  | Some isRowHiddenByFilter, Some rows =>
      _ <~ writeGeneratedRows (approveRows isRowHiddenByFilter rows) false ;;
      emit (Log "Writing approved rows...")
  | _, _ => io_ret tt
  end.

End Approval.

(* ================================================================== *)
(** ** Few-shot context: [FEEDGEN_CREATE_JSON_CONTEXT_FOR_ITEM] *)

(** What V8 throws for a property read on [undefined]. *)
Definition read_of_undefined (property : string) : exn :=
  TypeError ("Cannot read properties of undefined (reading '" ++ property ++ "')").

(** [row[index]] for an index that may be -1. *)
Definition cellAt (row : list string) (index : Z) : JS.value :=
  if (index <? 0)%Z then JS.Undefined else string_at row (Z.to_nat index).

(** [headers.indexOf(name)]. *)
Definition indexOf (headers : list string) (name : string) : Z :=
  findIndex (String.eqb name) headers.

(** [rows.filter(row => row[itemIdIndex] === itemId)[0]]. *)
Definition selectRow (rows : list (list string)) (itemIdIndex : Z) (itemId : string)
    : option (list string) :=
  nth_error
    (filter (fun row => JS.value_eqb (cellAt row itemIdIndex) (JS.Str itemId)) rows) 0.

(** [headers.filter(key => key).map((key, index) => [key, selectedRow[index]])]:
    the index is the one in the filtered array.  Without a selected row the
    first read throws. *)
Definition contextEntries (headers : list string) (selectedRow : option (list string))
    : result (list (string * JS.value)) :=
  match selectedRow, filter Str.nonempty headers with
  | _, [] => Ok []
  | None, _ :: _ => Throw (read_of_undefined "0")
  | Some row, keys => Ok (map (fun item => (snd item, string_at row (fst item))) (indexed keys))
  end.

(** [FEEDGEN_CREATE_JSON_CONTEXT_FOR_ITEM(itemId)], given the values of
    the input sheet from its first row on, when there is such a sheet;
    [Ok None] is the [undefined] of the bare [return]. *)
Definition FEEDGEN_CREATE_JSON_CONTEXT_FOR_ITEM (cfg : Config)
    (inputValues : option (list (list string))) (itemId : string)
    : result (option string) :=
  match inputValues with
  | None => Ok None
  | Some [] => Throw (read_of_undefined "indexOf")
  | Some (headers :: rows) =>
      let itemIdIndex := indexOf headers (itemIdColumnName cfg) in
      let selectedRow := selectRow rows itemIdIndex itemId in
      entries <- contextEntries headers selectedRow ;;
      let contextObject := JS.fromEntries entries in
      Ok (Some (JS.JSON_stringify contextObject))
  end.

(* ================================================================== *)
(** ** Row counts: [getTotalGeneratedRows] *)

(** [getTotalGeneratedRows()]. *)
Definition getTotalGeneratedRows (cfg : Config) (w : World) : Z :=
  match getTotalRows (generatedSheet w) with
  | None => 0%Z
  | Some totalRows => (totalRows - generated_startRow cfg)%Z
  end.

(** Successive invocations of [generateNextRow], each on the sheet the
    one before has left: the world after [n] of them and what each has
    returned, oldest first; [None] when an invocation throws or issues an
    effect [applyEffect] has no reading for. *)
Fixpoint invocations (cfg : Config) (predictTitle predictDescription : string -> result string)
    (n : nat) (w : World) : option (World * list (option Z)) :=
  match n with
  | O => Some (w, [])
  | S n' =>
      match invoke cfg predictTitle predictDescription w with
      | Some (w', _, Ok returned) =>
          match invocations cfg predictTitle predictDescription n' w' with
          | Some (w'', others) => Some (w'', returned :: others)
          | None => None
          end
      | _ => None
      end
  end.

(* ================================================================== *)
(** ** Concrete sheets and responses *)

(** A configuration whose column indices are those of the array
    [optimizeRow] returns, with one header row in every sheet. *)
Definition sampleConfig : Config :=
  {| input_startRow := 1;
     generated_name := "Generated";
     generated_startRow := 1;
     generated_cols_approval := 0;
     generated_cols_status := 1;
     generated_cols_id := 2;
     generated_cols_titleGenerated := 3;
     generated_cols_descriptionGenerated := 4;
     generated_cols_gapAttributes := 12;
     generated_cols_originalInput := 13;
     output_name := "Output";
     output_startRow := 1;
     output_cols_modificationTimestamp := 0;
     output_cols_id_idx := 1;
     output_cols_id_name := "id";
     output_cols_title_idx := 2;
     output_cols_title_name := "title";
     output_cols_description_idx := 3;
     output_cols_description_name := "description";
     output_cols_gapCols_start := 4;
     Status_SUCCESS := "Success";
     Status_FAILED := "Failed";
     itemIdColumnName := "item_id";
     titleColumnName := "title";
     descriptionColumnName := "description";
     title_fullPrompt := "Generate the title attributes. ";
     description_fullPrompt := "Generate the description. " |}.

(** The four lines of a title response. *)
Definition responseOf (origKeys category keys values : string) : string :=
  ORIGINAL_TITLE_TEMPLATE_PROMPT_PART ++ origKeys ++ newline
  ++ CATEGORY_PROMPT_PART ++ category ++ newline
  ++ TEMPLATE_PROMPT_PART ++ keys ++ newline
  ++ ATTRIBUTES_PROMPT_PART ++ values.

(** The row and the response of the specification's example. *)
Definition shoeHeaders : list string := ["item_id"; "title"; "color"].
Definition shoeData : list string := ["1"; "Red Shoe"; ""].
Definition shoeResponse : string := responseOf "color|" "Footwear" "color|size|" "Red|10|".

(** A response that names the key [size] twice. *)
Definition repeatedKeyResponse : string := responseOf "color|" "Footwear" "size|size|" "10|11|".

(** A response with a blank between two separators. *)
Definition blankPieceResponse : string :=
  responseOf "color|" "Footwear" "color| |size|" "Red| |10|".

(** A response with two keys and one value. *)
Definition shortValuesResponse : string := responseOf "color|" "Footwear" "color|size|" "Red|".

(** A row whose header [__proto__] has an empty cell, and a response that
    names that key. *)
Definition protoHeaders : list string := ["item_id"; "__proto__"].
Definition protoData : list string := ["1"; ""].
Definition protoResponse : string := responseOf "" "Footwear" "__proto__|" "x|".

(** A language model that answers every prompt with the same text, and one
    whose call fails after its retries. *)
Definition answering (text : string) : string -> result string := fun _ => Ok text.
Definition unavailable : string -> result string := fun _ => Throw (Failure "Error: 503").

(** A generated row as [optimizeRow] lays it out, reduced to the cells the
    export reads. *)
Definition generatedRow (approval : bool) (id title description gap original : string)
    : list JS.value :=
  [ JS.Bool approval; JS.Str "Success"; JS.Str id; JS.Str title; JS.Str description;
    JS.Str ""; JS.Str ""; JS.Str ""; JS.Str ""; JS.Str ""; JS.Str ""; JS.Str "";
    JS.Str gap; JS.Str original ].

(** The two approved rows of the specification's export example: row A
    fills the empty column [color], row B invents [material]. *)
Definition rowA : list JS.value :=
  generatedRow true "1" "Red Shoe" "A shoe."
    (JS.JSON_stringify [("color", JS.Str "Red")])
    (JS.JSON_stringify [("item_id", JS.Str "1"); ("color", JS.Str "")]).
Definition rowB : list JS.value :=
  generatedRow true "2" "Wood Table" "A table."
    (JS.JSON_stringify [("material", JS.Str "Wood")])
    (JS.JSON_stringify [("item_id", JS.Str "2"); ("color", JS.Str "Brown")]).
Definition unapprovedRow : list JS.value :=
  generatedRow false "3" "Blue Hat" "A hat." "" (JS.JSON_stringify [("item_id", JS.Str "3")]).

Definition sampleTimestamp : nat -> string := fun _ => "2023-06-01T00:00:00.000Z".

(** An input sheet with one header row and two data rows, and a generated
    sheet that holds its header row only. *)
Definition sampleInput : InputSheet :=
  {| in_lastRow := 3;
     in_headers := ["item_id"; "title"];
     in_rowValues := fun row =>
       if (row =? 2)%Z then Ok ["1"; "Red Shoe"]
       else if (row =? 3)%Z then Ok ["2"; "Blue Hat"]
       else Throw (Failure "Exception: The range is not valid") |}.

Definition freshWorld : World :=
  {| inputSheet := Some sampleInput;
     generatedSheet := Some [[JS.Str "Approval"; JS.Str "Status"]] |}.

(* ================================================================== *)
(** ** Predicates of the statements *)

(** The string begins with white space. *)
Definition starts_white (s : string) : bool :=
  match s with
  | String c _ => Str.is_white_space c
  | EmptyString => false
  end.

(** The string ends in white space. *)
Fixpoint ends_white (s : string) : bool :=
  match s with
  | EmptyString => false
  | String c EmptyString => Str.is_white_space c
  | String _ s' => ends_white s'
  end.

(** The text of a string member. *)
Definition memberText (member : string * string) : string :=
  JS.json_quote (fst member) ++ ":" ++ JS.json_quote (snd member).

(** The members of an object that have a string for value. *)
Fixpoint stringMembers (entries : list (string * JS.value)) : list (string * string) :=
  match entries with
  | [] => []
  | (k, JS.Str s) :: rest => (k, s) :: stringMembers rest
  | _ :: rest => stringMembers rest
  end.

(** The value is a boolean. *)
Definition isBool (v : JS.value) : bool :=
  match v with JS.Bool _ => true | _ => false end.

(** The number a decimal numeral denotes: digits, then optionally a point
    and digits.  [None] for any other text. *)
Definition digitOf (c : ascii) : option Z :=
  let n := nat_of_ascii c in
  if (48 <=? n) && (n <=? 57) then Some (Z.of_nat (n - 48)) else None.

Fixpoint readFraction (s : string) (numerator : Z) (denominator : positive) : option Q :=
  match s with
  | EmptyString => Some (numerator # denominator)%Q
  | String c rest =>
      match digitOf c with
      | Some d => readFraction rest (10 * numerator + d)%Z (10 * denominator)%positive
      | None => None
      end
  end.

Fixpoint readDecimal (s : string) (whole : Z) : option Q :=
  match s with
  | EmptyString => Some (whole # 1)%Q
  | String c rest =>
      if Ascii.eqb c "."%char then readFraction rest whole 1
      else match digitOf c with
           | Some d => readDecimal rest (10 * whole + d)%Z
           | None => None
           end
  end.

Definition decimalValue (s : string) : option Q :=
  match s with
  | EmptyString => None
  | _ => readDecimal s 0
  end.

(** ** Predicates and examples of the further statements *)

(** A generated sheet with a generated row, a row that failed and a row
    that was generated after it. *)
Definition partlyGenerated : Sheet.sheet :=
  [ [JS.Str "Approval"; JS.Str "Status"];
    generatedRow false "1" "Red Shoe" "A shoe." "" "{}";
    [JS.Undefined; JS.Str "Failed. See log for more details."];
    generatedRow false "3" "Blue Hat" "A hat." "" "{}" ].

Definition partlyGeneratedWorld : World :=
  {| inputSheet := Some sampleInput; generatedSheet := Some partlyGenerated |}.

(** The status cell of the generated row numbered [j]. *)
Definition statusOf (cfg : Config) (s : Sheet.sheet) (j : nat) : JS.value :=
  Sheet.cell s (Z.to_nat (generated_startRow cfg) + 1 + j) (generated_cols_status cfg + 1).

(** What a cell written with the value [v] reads back as. *)
Definition readBack (v : JS.value) : JS.value :=
  match v with
  | JS.Undefined => JS.Str ""
  | w => w
  end.

(** The generated sheet has its header rows and [k] generated rows below
    them, all with the Success status, and nothing further down. *)
Definition generatedUpTo (cfg : Config) (s : Sheet.sheet) (k : nat) : Prop :=
  (0 <= generated_startRow cfg)%Z
  /\ Z.of_nat (Sheet.getLastRow s) = (generated_startRow cfg + Z.of_nat k)%Z
  /\ forall j, j < k -> statusOf cfg s j = JS.Str (Status_SUCCESS cfg).

(** A language model that returns for every prompt. *)
Definition answers (text : string -> string) : string -> result string :=
  fun prompt => Ok (text prompt).

(** The generated rows numbered below [k] hold, cell by cell, the records
    [optimizeRow] returns for the input rows of the same numbers. *)
Definition recordsUpTo (cfg : Config) (predictTitle predictDescription : string -> result string)
    (input : InputSheet) (s : Sheet.sheet) (k : nat) : Prop :=
  forall i, i < k ->
    exists row record,
      in_rowValues input (input_startRow cfg + 1 + Z.of_nat i)%Z = Ok row
      /\ optimizeRow cfg predictTitle predictDescription (in_headers input) row = Ok record
      /\ forall col, 0 < col <= 17 ->
           Sheet.cell s (Z.to_nat (generated_startRow cfg) + 1 + i) col
           = readBack (nth (col - 1) record JS.Undefined).

(** The output columns of the fixed cells are distinct and lie before the
    gap and invented columns. *)
Definition fixedColumnsApart (cfg : Config) : Prop :=
  NoDup [ output_cols_modificationTimestamp cfg; output_cols_id_idx cfg;
          output_cols_title_idx cfg; output_cols_description_idx cfg ]
  /\ output_cols_modificationTimestamp cfg < output_cols_gapCols_start cfg
  /\ output_cols_id_idx cfg < output_cols_gapCols_start cfg
  /\ output_cols_title_idx cfg < output_cols_gapCols_start cfg
  /\ output_cols_description_idx cfg < output_cols_gapCols_start cfg.

(** The generated columns are those of the array [optimizeRow] returns. *)
Definition generatedColumnsOfRecord (cfg : Config) : Prop :=
  generated_cols_approval cfg = 0
  /\ generated_cols_id cfg = 2
  /\ generated_cols_titleGenerated cfg = 3
  /\ generated_cols_descriptionGenerated cfg = 4
  /\ generated_cols_gapAttributes cfg = 12
  /\ generated_cols_originalInput cfg = 13.

(** The record [optimizeRow] returns for the row of the specification's
    example. *)
Definition shoeRecord : list JS.value :=
  Eval vm_compute in
    match optimizeRow sampleConfig (answering shoeResponse) (answering "A red shoe.")
            shoeHeaders shoeData with
    | Ok row => row
    | Throw _ => []
    end.

(** [row] is the first of [rows] whose cell in the column [itemIdIndex] is
    [itemId]. *)
Definition firstRowOfItem (rows : list (list string)) (itemIdIndex : Z) (itemId : string)
    (row : list string) : Prop :=
  exists before after,
    rows = (before ++ row :: after)%list
    /\ (forall other, In other before -> cellAt other itemIdIndex <> JS.Str itemId)
    /\ cellAt row itemIdIndex = JS.Str itemId.

(* ================================================================== *)
(** * Properties *)

(* ================================================================== *)
(** ** Facts about arrays of strings and plain objects *)

Lemma includes_In (l : list string) (x : string) :
  Str.includes l x = true <-> In x l.
Proof.
  unfold Str.includes. rewrite existsb_exists. split.
  - intros [y [Hy Heq]]. apply String.eqb_eq in Heq. now subst.
  - intros H. exists x. split; [assumption | apply String.eqb_refl].
Qed.

Lemma includes_false (l : list string) (x : string) :
  Str.includes l x = false <-> ~ In x l.
Proof.
  rewrite <- includes_In. destruct (Str.includes l x); split; congruence.
Qed.

Lemma dedup_In (l : list string) (x : string) : In x (Str.dedup l) <-> In x l.
Proof.
  induction l as [|y l IH]; simpl; [tauto|].
  rewrite filter_In, IH. destruct (String.eqb_spec y x) as [->|Hne]; simpl.
  - tauto.
  - split; [tauto|]. intros [H|H]; [contradiction | right; now split].
Qed.

Lemma get_own_In (o : JS.object) (k : string) :
  JS.has_own o k = true <-> In k (map fst o).
Proof.
  unfold JS.has_own. induction o as [|[k' v] o IH]; simpl.
  - split; [discriminate | tauto].
  - destruct (String.eqb_spec k k') as [->|Hne].
    + split; auto.
    + rewrite IH. split; [tauto|]. intros [H|H]; [congruence | assumption].
Qed.

Lemma get_own_define (o : JS.object) (k k' : string) (v : JS.value) :
  JS.get_own (JS.define o k v) k' = if String.eqb k' k then Some v else JS.get_own o k'.
Proof.
  induction o as [|[k0 v0] o IH]; simpl.
  - reflexivity.
  - destruct (String.eqb_spec k k0) as [->|Hne]; simpl.
    + destruct (String.eqb_spec k' k0); reflexivity.
    + rewrite IH. destruct (String.eqb_spec k' k0) as [->|Hne'].
      * destruct (String.eqb_spec k0 k); [congruence | reflexivity].
      * reflexivity.
Qed.

Lemma insert_by_index_In (n : N) (e : string * JS.value) l x :
  In x (JS.insert_by_index n e l) <-> x = (n, e) \/ In x l.
Proof.
  induction l as [|[m e'] l IH]; simpl.
  - intuition.
  - destruct (n <=? m)%N; simpl; [intuition|]. rewrite IH. intuition.
Qed.

Lemma indexed_entries_In (o : JS.object) (e : string * JS.value) :
  In e (map snd (JS.indexed_entries o)) <-> In e o /\ JS.array_index (fst e) <> None.
Proof.
  induction o as [|[k v] o IH]; simpl.
  - tauto.
  - destruct (JS.array_index k) as [n|] eqn:Hk.
    + rewrite in_map_iff. split.
      * intros [[m e'] [Heq Hin]]. simpl in Heq. subst e'.
        apply insert_by_index_In in Hin. destruct Hin as [Hin|Hin].
        -- inversion Hin; subst. split; [now left|]. simpl. congruence.
        -- assert (In e (map snd (JS.indexed_entries o))) as H
             by (apply in_map_iff; exists (m, e); auto).
           apply IH in H. tauto.
      * intros [[Heq|Hin] Hidx].
        -- subst e. exists (n, (k, v)). split; [reflexivity|].
           apply insert_by_index_In. now left.
        -- assert (In e (map snd (JS.indexed_entries o))) as H by (apply IH; tauto).
           apply in_map_iff in H. destruct H as [[m e'] [Heq Hin']]. simpl in Heq. subst e'.
           exists (m, e). split; [reflexivity|]. apply insert_by_index_In. now right.
    + rewrite IH. split; [tauto|]. intros [[Heq|Hin] Hidx]; [|tauto].
      subst e. simpl in Hidx. congruence.
Qed.

(** Enumeration reorders the own properties and loses none. *)
Lemma Object_entries_In (o : JS.object) (e : string * JS.value) :
  In e (JS.Object_entries o) <-> In e o.
Proof.
  unfold JS.Object_entries, JS.named_entries.
  rewrite in_app_iff, indexed_entries_In, filter_In.
  destruct (JS.array_index (fst e)); split; intros H.
  - destruct H as [H|H]; [tauto | destruct H; discriminate].
  - left. split; [assumption | discriminate].
  - destruct H as [H|H]; tauto.
  - right. tauto.
Qed.

Lemma Object_keys_In (o : JS.object) (k : string) :
  In k (JS.Object_keys o) <-> JS.has_own o k = true.
Proof.
  rewrite get_own_In. unfold JS.Object_keys. rewrite !in_map_iff.
  split; intros [e [Hk He]]; exists e; split; auto; now apply Object_entries_In.
Qed.

Lemma get_own_set (o : JS.object) (k k' : string) (v : JS.value) :
  k' <> "__proto__" ->
  JS.get_own (JS.set o k v) k' = if String.eqb k' k then Some v else JS.get_own o k'.
Proof.
  intros Hk'. unfold JS.set.
  destruct (String.eqb k "__proto__" && negb (JS.has_own o k)) eqn:Hguard.
  - apply andb_true_iff in Hguard. destruct Hguard as [Hk _].
    apply String.eqb_eq in Hk. subst k.
    destruct (String.eqb_spec k' "__proto__"); [contradiction | reflexivity].
  - apply get_own_define.
Qed.

(** ** Facts about the reconciliation loop *)

Lemma combine_seq_snoc {A : Type} (l : list A) (x : A) (start : nat) :
  combine (seq start (length (l ++ [x]))) (l ++ [x])
  = (combine (seq start (length l)) l ++ [(start + length l, x)])%list.
Proof.
  revert start. induction l as [|y l IH]; intros start; simpl.
  - now rewrite Nat.add_0_r.
  - rewrite IH. now rewrite Nat.add_succ_comm.
Qed.

Lemma indexed_snoc {A : Type} (l : list A) (x : A) :
  indexed (l ++ [x]) = (indexed l ++ [(length l, x)])%list.
Proof. unfold indexed. now rewrite combine_seq_snoc. Qed.

Section Reconcile.

Variable dataObj : JS.object.
Variables origAttributes genAttributeValues : list string.

(** The loop over a sequence extended by one key is the loop over the
    sequence followed by one more iteration. *)
Lemma reconcile_snoc (l : list string) (x : string) :
  reconcile dataObj origAttributes (l ++ [x]) genAttributeValues
  = reconcileStep dataObj origAttributes genAttributeValues (reconcile dataObj origAttributes l genAttributeValues) (length l, x).
Proof.
  unfold reconcile. now rewrite indexed_snoc, fold_left_app.
Qed.

Lemma titleFeatures_snoc (l : list string) (x : string) :
  fst (reconcile dataObj origAttributes (l ++ [x]) genAttributeValues)
  = (fst (reconcile dataObj origAttributes l genAttributeValues)
       ++ [JS.or_else (JS.get dataObj x) (string_at genAttributeValues (length l))])%list.
Proof.
  rewrite reconcile_snoc. destruct (reconcile dataObj origAttributes l genAttributeValues) as [features gap]. reflexivity.
Qed.

Lemma gap_snoc (l : list string) (x : string) :
  snd (reconcile dataObj origAttributes (l ++ [x]) genAttributeValues)
  = if isGap dataObj origAttributes x
    then JS.set (snd (reconcile dataObj origAttributes l genAttributeValues)) x (string_at genAttributeValues (length l))
    else snd (reconcile dataObj origAttributes l genAttributeValues).
Proof.
  rewrite reconcile_snoc. destruct (reconcile dataObj origAttributes l genAttributeValues) as [features gap]. reflexivity.
Qed.

Lemma titleFeatures_length (l : list string) : length (fst (reconcile dataObj origAttributes l genAttributeValues)) = length l.
Proof.
  induction l as [|x l IH] using rev_ind; [reflexivity|].
  rewrite titleFeatures_snoc, !length_app, IH. reflexivity.
Qed.

(** Every key contributes one title feature, at its own index: the row's
    value when it is truthy, the generated value of that index if not. *)
Lemma titleFeatures_nth (l : list string) (i : nat) (k : string) :
  nth_error l i = Some k ->
  nth_error (fst (reconcile dataObj origAttributes l genAttributeValues)) i
  = Some (JS.or_else (JS.get dataObj k) (string_at genAttributeValues i)).
Proof.
  induction l as [|x l IH] using rev_ind; intros Hi.
  - destruct i; discriminate.
  - rewrite titleFeatures_snoc.
    assert (i < length (l ++ [x])) as Hlt by (apply nth_error_Some; congruence).
    rewrite length_app in Hlt. simpl in Hlt.
    destruct (Nat.eq_dec i (length l)) as [->|Hne].
    + rewrite nth_error_app2 in Hi by lia. rewrite Nat.sub_diag in Hi.
      injection Hi as ->.
      rewrite nth_error_app2 by (rewrite titleFeatures_length; lia).
      now rewrite titleFeatures_length, Nat.sub_diag.
    + rewrite nth_error_app1 in Hi by lia.
      rewrite nth_error_app1 by (rewrite titleFeatures_length; lia).
      now apply IH.
Qed.

(** A key other than [__proto__] is an own key of the gap map exactly when
    it is one of the generated keys and passes the test of the loop. *)
Lemma gap_has_own (l : list string) (k : string) :
  k <> "__proto__" ->
  JS.has_own (snd (reconcile dataObj origAttributes l genAttributeValues)) k = true
  <-> In k l /\ isGap dataObj origAttributes k = true.
Proof.
  intros Hk. induction l as [|x l IH] using rev_ind.
  - simpl. split; [discriminate | tauto].
  - rewrite gap_snoc, in_app_iff. simpl.
    destruct (isGap dataObj origAttributes x) eqn:Hx.
    + unfold JS.has_own in *. rewrite get_own_set by assumption.
      destruct (String.eqb_spec k x) as [->|Hne].
      * split; [intros _|reflexivity]. split; [tauto | assumption].
      * rewrite IH. split; [tauto|]. intros [[H|[H|[]]] Hg]; [tauto | congruence].
    + rewrite IH. split; [tauto|]. intros [[H|[H|[]]] Hg]; [tauto | congruence].
Qed.

(** The value the gap map holds for a key is the generated value at the
    index of the key's last occurrence. *)
Lemma gap_get_own (l : list string) (k : string) (i : nat) :
  k <> "__proto__" ->
  isGap dataObj origAttributes k = true ->
  nth_error l i = Some k ->
  (forall j, i < j -> nth_error l j <> Some k) ->
  JS.get_own (snd (reconcile dataObj origAttributes l genAttributeValues)) k = Some (string_at genAttributeValues i).
Proof.
  intros Hk Hgap. induction l as [|x l IH] using rev_ind; intros Hi Hlast.
  - destruct i; discriminate.
  - assert (i < length (l ++ [x])) as Hlt by (apply nth_error_Some; congruence).
    rewrite length_app in Hlt. simpl in Hlt. rewrite gap_snoc.
    destruct (Nat.eq_dec i (length l)) as [->|Hne].
    + rewrite nth_error_app2 in Hi by lia. rewrite Nat.sub_diag in Hi.
      injection Hi as ->. rewrite Hgap, get_own_set by assumption.
      now rewrite String.eqb_refl.
    + rewrite nth_error_app1 in Hi by lia.
      assert (x <> k) as Hx.
      { intros ->. apply (Hlast (length l)); [lia|].
        rewrite nth_error_app2 by lia. now rewrite Nat.sub_diag. }
      assert (JS.get_own (snd (reconcile dataObj origAttributes l genAttributeValues)) k = Some (string_at genAttributeValues i)) as Hl.
      { apply IH; [assumption|]. intros j Hj Hnth.
        apply (Hlast j Hj). rewrite nth_error_app1; [assumption|].
        apply nth_error_Some. congruence. }
      destruct (isGap dataObj origAttributes x); [|assumption].
      rewrite get_own_set by assumption.
      destruct (String.eqb_spec k x); [congruence | assumption].
Qed.

End Reconcile.

(** A member of a list has a last occurrence. *)
Lemma last_occurrence (l : list string) (k : string) :
  In k l ->
  exists i, nth_error l i = Some k /\ forall j, i < j -> nth_error l j <> Some k.
Proof.
  induction l as [|x l IH]; intros Hin; [contradiction|].
  destruct (in_dec string_dec k l) as [Hl|Hl].
  - destruct (IH Hl) as [i [Hi Hlast]]. exists (S i). split; [assumption|].
    intros [|j] Hj; [lia|]. simpl. apply Hlast. lia.
  - destruct Hin as [->|Hin]; [|contradiction]. exists 0. split; [reflexivity|].
    intros [|j] Hj; [lia|]. simpl. intros Hnth. apply Hl. eapply nth_error_In; eassumption.
Qed.

(** ** Facts about [titlePhase] *)


Lemma parseSegment_Ok (row : option string) (prefix : string) (l : list string) :
  parseSegment row prefix = Ok l ->
  exists r, row = Some r /\ l = pieces (Str.replace prefix "" r).
Proof.
  destruct row as [r|]; simpl; [|discriminate].
  intros H. injection H as <-. now exists r.
Qed.

Section TitlePhase.

Variable cfg : Config.
Variable predictTitle : string -> result string.
Variables headers data : list string.

(** What a returned title phase was computed from. *)
Lemma titlePhase_inv (t : TitlePhase) :
  titlePhase cfg predictTitle headers data = Ok t ->
  tp_dataObj t = rowObject headers data
  /\ fetchTitleGenerationData cfg predictTitle (rowObject headers data) = Ok (tp_res t)
  /\ parseSegment (nth_error (Str.split Str.LF (tp_res t)) 2) TEMPLATE_PROMPT_PART
     = Ok (tp_genAttributes t)
  /\ parseSegment (nth_error (Str.split Str.LF (tp_res t)) 0)
       ORIGINAL_TITLE_TEMPLATE_PROMPT_PART
     = Ok (tp_origAttributes t)
  /\ parseSegment (nth_error (Str.split Str.LF (tp_res t)) 3) ATTRIBUTES_PROMPT_PART
     = Ok (tp_genAttributeValues t)
  /\ (tp_titleFeatures t, tp_gapAttributesAndValues t)
     = reconcile (tp_dataObj t) (tp_origAttributes t) (tp_genAttributes t)
         (tp_genAttributeValues t)
  /\ tp_genTemplate t = templateOf (tp_genAttributes t)
  /\ tp_genTitle t = JS.join " " (tp_titleFeatures t).
Proof.
  unfold titlePhase.
  destruct (fetchTitleGenerationData cfg predictTitle (rowObject headers data))
    as [res|e]; cbn [bind]; [|discriminate].
  destruct (replacePrefix (nth_error (Str.split Str.LF res) 1) CATEGORY_PROMPT_PART)
    as [category|e]; cbn [bind]; [|discriminate].
  destruct (parseSegment (nth_error (Str.split Str.LF res) 2) TEMPLATE_PROMPT_PART)
    as [gen|e] eqn:Hgen; cbn [bind]; [|discriminate].
  destruct (parseSegment (nth_error (Str.split Str.LF res) 0)
              ORIGINAL_TITLE_TEMPLATE_PROMPT_PART)
    as [orig|e] eqn:Horig; cbn [bind]; [|discriminate].
  destruct (parseSegment (nth_error (Str.split Str.LF res) 3) ATTRIBUTES_PROMPT_PART)
    as [vals|e] eqn:Hvals; cbn [bind]; [|discriminate].
  destruct (reconcile (rowObject headers data) orig gen vals) as [features gap] eqn:Hloop.
  intros H. injection H as <-.
  cbn [tp_dataObj tp_res tp_genAttributes tp_origAttributes tp_genAttributeValues
       tp_titleFeatures tp_gapAttributesAndValues tp_genTemplate tp_genTitle].
  rewrite Hgen, Horig, Hvals, Hloop. repeat split; reflexivity.
Qed.

(** A response of at least four lines always gets through the parser. *)
Lemma titlePhase_returns (res : string) (valuesRow : string) :
  fetchTitleGenerationData cfg predictTitle (rowObject headers data) = Ok res ->
  nth_error (Str.split Str.LF res) 3 = Some valuesRow ->
  exists t, titlePhase cfg predictTitle headers data = Ok t.
Proof.
  intros Hres Hrow. unfold titlePhase. rewrite Hres. simpl.
  destruct (Str.split Str.LF res) as [|l0 [|l1 [|l2 [|l3 rest]]]]; try discriminate.
  simpl.
  destruct (reconcile (rowObject headers data)
              (pieces (Str.replace ORIGINAL_TITLE_TEMPLATE_PROMPT_PART "" l0))
              (pieces (Str.replace TEMPLATE_PROMPT_PART "" l2))
              (pieces (Str.replace ATTRIBUTES_PROMPT_PART "" l3))) as [features gap].
  eexists. reflexivity.
Qed.

End TitlePhase.

(** ** Facts about the metrics *)

Lemma value_eqb_eq (a b : JS.value) : JS.value_eqb a b = true <-> a = b.
Proof.
  destruct a, b; simpl; split; intros H; try discriminate; try reflexivity.
  - apply Bool.eqb_prop in H. now subst.
  - injection H as ->. apply Bool.eqb_reflx.
  - apply String.eqb_eq in H. now subst.
  - injection H as ->. apply String.eqb_refl.
  - apply String.eqb_eq in H. now subst.
  - injection H as ->. apply String.eqb_refl.
Qed.

Lemma filter_nonempty {A : Type} (p : A -> bool) (l : list A) :
  (0 <? length (filter p l)) = true <-> exists x, In x l /\ p x = true.
Proof.
  rewrite Nat.ltb_lt. split.
  - intros H. destruct (filter p l) as [|x rest] eqn:Hf; [simpl in H; lia|].
    exists x. apply filter_In. rewrite Hf. now left.
  - intros [x Hx]. apply filter_In in Hx.
    destruct (filter p l); [contradiction | simpl; lia].
Qed.

Lemma dedup_empty (l : list string) :
  (length (Str.dedup l) =? 0) = true <-> l = [].
Proof.
  rewrite Nat.eqb_eq. destruct l; simpl; split; congruence || lia.
Qed.

Lemma filter_empty {A : Type} (p : A -> bool) (l : list A) :
  filter p l = [] <-> forall x, In x l -> p x = false.
Proof.
  induction l as [|y l IH]; simpl.
  - split; [contradiction | reflexivity].
  - destruct (p y) eqn:Hy.
    + split; [discriminate|]. intros H. specialize (H y (or_introl eq_refl)). congruence.
    + rewrite IH. split.
      * intros H x [<-|Hx]; auto.
      * intros H x Hx. apply H. now right.
Qed.

Lemma Number_le_1 (b : bool) : Number b <= 1.
Proof. destruct b; simpl; lia. Qed.

Lemma fifths_toString_values (n : nat) :
  In (fifths_toString n) ["0"; "0.2"; "0.4"; "0.6"; "0.8"; "1"].
Proof.
  destruct n as [|[|[|[|[|n]]]]]; simpl; tauto.
Qed.

(** C3. For every input of [getGenerationMetrics], [totalScore] is the
    arithmetic mean of five boolean indicators: attributes were
    added, the title changed, no new word was introduced, a gap attribute
    is present in the row context, a gap attribute is absent from it.  It
    is therefore a multiple of one fifth between 0 and 1.  The text
    returned for it is the decimal numeral of that mean: the one of 0,
    0.2, 0.4, 0.6, 0.8 and 1 at the position that is the number of
    indicators that hold. *)
Theorem totalScore_mean_of_indicators
    (origTitle : JS.value) (genTitle : string)
    (origAttributes genAttributes inputWords : list string)
    (gapAttributesAndValues originalInput : JS.object) :
  let s := generationSignals origTitle genTitle origAttributes genAttributes
             inputWords gapAttributesAndValues originalInput in
  let m := getGenerationMetrics origTitle genTitle origAttributes genAttributes
             inputWords gapAttributesAndValues originalInput in
  exists attributesAdded titleDiffers noNewWords gapPresent gapAbsent : bool,
    (attributesAdded = true
     <-> exists a, In a genAttributes /\ ~ In a origAttributes)
    /\ (titleDiffers = true <-> origTitle <> JS.Str genTitle)
    /\ (noNewWords = true
        <-> forall w, In w (Words.match_words genTitle) ->
                      In (Str.toLowerCase w) inputWords)
    /\ (gapPresent = true
        <-> exists k, In k (JS.Object_keys gapAttributesAndValues)
                      /\ JS.has_property originalInput k = true)
    /\ (gapAbsent = true
        <-> exists k, In k (JS.Object_keys gapAttributesAndValues)
                      /\ JS.has_property originalInput k = false)
    /\ (totalScoreValue s
        == inject_Z (Z.of_nat (Number attributesAdded + Number titleDiffers
                               + Number noNewWords + Number gapPresent
                               + Number gapAbsent)) / inject_Z 5)%Q
    /\ (exists n, n <= 5 /\ (totalScoreValue s == Z.of_nat n # 5)%Q
                  /\ totalScore m = fifths_toString n)
    /\ In (totalScore m) ["0"; "0.2"; "0.4"; "0.6"; "0.8"; "1"]
    /\ nth_error ["0"; "0.2"; "0.4"; "0.6"; "0.8"; "1"]
         (Number attributesAdded + Number titleDiffers + Number noNewWords
          + Number gapPresent + Number gapAbsent)
       = Some (totalScore m)
    /\ exists q,
         decimalValue (totalScore m) = Some q
         /\ (q == inject_Z (Z.of_nat (Number attributesAdded + Number titleDiffers
                                      + Number noNewWords + Number gapPresent
                                      + Number gapAbsent)) / inject_Z 5)%Q.
Proof.
  intros s m.
  exists (0 <? length (sig_addedAttributes s)), (sig_titleChanged s),
         (length (sig_newWordsAdded s) =? 0),
         (0 <? length (sig_gapAttributesPresent s)),
         (0 <? length (sig_gapAttributesInvented s)).
  split; [|split; [|split; [|split; [|split; [|split; [|split; [|split; [|split]]]]]]]].
  - split.
    + intros H. apply filter_nonempty in H. destruct H as [a [Ha Hn]].
      exists a. split; [assumption|]. apply includes_false. now apply negb_true_iff.
    + intros [a [Ha Hn]]. apply filter_nonempty. exists a. split; [assumption|].
      apply negb_true_iff. now apply includes_false.
  - simpl. split.
    + intros H Heq. apply negb_true_iff in H.
      apply value_eqb_eq in Heq. congruence.
    + intros H. apply negb_true_iff.
      destruct (JS.value_eqb origTitle (JS.Str genTitle)) eqn:Heq; [|reflexivity].
      apply value_eqb_eq in Heq. contradiction.
  - split.
    + intros H w Hw. apply dedup_empty in H.
      pose proof (proj1 (filter_empty _ _) H w Hw) as Hf. simpl in Hf.
      apply negb_false_iff in Hf. now apply includes_In.
    + intros H. apply dedup_empty. apply filter_empty. intros w Hw.
      apply negb_false_iff. apply includes_In. now apply H.
  - apply filter_nonempty.
  - split.
    + intros H. apply filter_nonempty in H. destruct H as [k [Hk Hn]].
      exists k. split; [assumption | now apply negb_true_iff].
    + intros [k [Hk Hn]]. apply filter_nonempty. exists k.
      split; [assumption | now apply negb_true_iff].
  - apply Qeq_refl.
  - exists (scoreSum s). split; [|split].
    + unfold scoreSum.
      pose proof (Number_le_1 (0 <? length (sig_addedAttributes s))).
      pose proof (Number_le_1 (sig_titleChanged s)).
      pose proof (Number_le_1 (length (sig_newWordsAdded s) =? 0)).
      pose proof (Number_le_1 (0 <? length (sig_gapAttributesPresent s))).
      pose proof (Number_le_1 (0 <? length (sig_gapAttributesInvented s))).
      lia.
    + unfold totalScoreValue, Qdiv, Qeq. simpl. lia.
    + reflexivity.
  - apply fifths_toString_values.
  - change (totalScore m) with (fifths_toString (scoreSum s)). unfold scoreSum.
    destruct (0 <? length (sig_addedAttributes s)), (sig_titleChanged s),
             (length (sig_newWordsAdded s) =? 0),
             (0 <? length (sig_gapAttributesPresent s)),
             (0 <? length (sig_gapAttributesInvented s)); reflexivity.
  - change (totalScore m) with (fifths_toString (scoreSum s)). unfold scoreSum.
    destruct (0 <? length (sig_addedAttributes s)), (sig_titleChanged s),
             (length (sig_newWordsAdded s) =? 0),
             (0 <? length (sig_gapAttributesPresent s)),
             (0 <? length (sig_gapAttributesInvented s));
      (eexists; split; [reflexivity | vm_compute; reflexivity]).
Qed.

Lemma isGap_spec (dataObj : JS.object) (origAttributes : list string) (k : string) :
  isGap dataObj origAttributes k = true
  <-> JS.truthy (JS.get dataObj k) = false
      /\ (~ In k origAttributes \/ In k (JS.Object_keys dataObj)).
Proof.
  unfold isGap.
  rewrite andb_true_iff, orb_true_iff, !negb_true_iff, includes_false, includes_In.
  reflexivity.
Qed.

(** C1, amended.  For every input row whose title response parses and every
    key of the generated-attribute-key sequence other than [__proto__]: the
    key is a key of the gap map if and only if the row object's value for
    it is falsy and the key is outside the original-title template's keys
    or is one of the row object's own keys; and when it is a key of the
    map, the map holds for it the generated value at the index of the
    key's last occurrence in the sequence, which is absent when that index
    is beyond the value sequence. *)
Theorem gap_map_membership_and_value
    (cfg : Config) (predictTitle : string -> result string)
    (headers data : list string) (t : TitlePhase) (k : string) :
  titlePhase cfg predictTitle headers data = Ok t ->
  In k (tp_genAttributes t) ->
  k <> "__proto__" ->
  (In k (JS.Object_keys (tp_gapAttributesAndValues t))
   <-> JS.truthy (JS.get (tp_dataObj t) k) = false
       /\ (~ In k (tp_origAttributes t) \/ In k (JS.Object_keys (tp_dataObj t))))
  /\ (In k (JS.Object_keys (tp_gapAttributesAndValues t)) ->
      exists i,
        nth_error (tp_genAttributes t) i = Some k
        /\ (forall j, i < j -> nth_error (tp_genAttributes t) j <> Some k)
        /\ JS.get_own (tp_gapAttributesAndValues t) k
           = Some (string_at (tp_genAttributeValues t) i)).
Proof.
  intros Ht Hin Hk.
  destruct (titlePhase_inv _ _ _ _ _ Ht) as (_ & _ & _ & _ & _ & Hloop & _).
  assert (tp_gapAttributesAndValues t
          = snd (reconcile (tp_dataObj t) (tp_origAttributes t) (tp_genAttributes t)
                   (tp_genAttributeValues t))) as Hgap by now rewrite <- Hloop.
  assert (In k (JS.Object_keys (tp_gapAttributesAndValues t))
          <-> isGap (tp_dataObj t) (tp_origAttributes t) k = true) as Hmem.
  { rewrite Object_keys_In, Hgap, gap_has_own by assumption. tauto. }
  split.
  - now rewrite Hmem, isGap_spec.
  - intros Hkey. apply Hmem in Hkey.
    destruct (last_occurrence _ _ Hin) as [i [Hi Hlast]].
    exists i. split; [assumption|]. split; [assumption|].
    rewrite Hgap. now apply gap_get_own.
Qed.

Lemma gap_map_membership_and_value_witness :
  exists t,
    titlePhase sampleConfig (answering shoeResponse) shoeHeaders shoeData = Ok t
    /\ In "size" (JS.Object_keys (tp_gapAttributesAndValues t))
    /\ exists i,
         nth_error (tp_genAttributes t) i = Some "size"
         /\ JS.get_own (tp_gapAttributesAndValues t) "size"
            = Some (string_at (tp_genAttributeValues t) i).
Proof.
  eexists. split; [vm_compute; reflexivity|].
  pose proof (gap_map_membership_and_value sampleConfig (answering shoeResponse)
                shoeHeaders shoeData _ "size" eq_refl) as H.
  destruct H as [Hmem Hval].
  - vm_compute. tauto.
  - discriminate.
  - assert (In "size" (JS.Object_keys [("color", JS.Str "Red"); ("size", JS.Str "10")])) as Hin
      by (vm_compute; tauto).
    split; [exact Hin|].
    destruct (Hval Hin) as [i [Hi [_ Hget]]]. exists i. split; assumption.
Defined.

(** C1 as stated fails in two ways.  A key the response names twice is
    mapped to the value of its last index, not to the one of the index it
    is met at first; and the key [__proto__] of a row that has that header
    with an empty cell passes the test and still is no key of the map. *)
Lemma gap_map_same_index_counterexample :
  (exists t,
      titlePhase sampleConfig (answering repeatedKeyResponse) shoeHeaders shoeData = Ok t
      /\ nth_error (tp_genAttributes t) 0 = Some "size"
      /\ In "size" (JS.Object_keys (tp_gapAttributesAndValues t))
      /\ string_at (tp_genAttributeValues t) 0 = JS.Str "10"
      /\ JS.get_own (tp_gapAttributesAndValues t) "size" = Some (JS.Str "11"))
  /\ (exists t,
        titlePhase sampleConfig (answering protoResponse) protoHeaders protoData = Ok t
        /\ In "__proto__" (tp_genAttributes t)
        /\ JS.truthy (JS.get (tp_dataObj t) "__proto__") = false
        /\ In "__proto__" (JS.Object_keys (tp_dataObj t))
        /\ ~ In "__proto__" (JS.Object_keys (tp_gapAttributesAndValues t))).
Proof.
  split; eexists; (split; [vm_compute; reflexivity|]); vm_compute; intuition congruence.
Qed.

(** C2, amended.  For the row context with [item_id] 1, [title] Red Shoe
    and an empty [color], and the four-line response of the specification's
    example, [optimizeRow] produces the generated template
    [<color> <size>], the gap map with exactly [color] mapped to Red and
    [size] mapped to 10, and the generated title [Red 10], whatever the
    configuration and the description the model returns. *)
Theorem shoe_example_outcome (cfg : Config) (describe : string -> string) :
  exists t row,
    titlePhase cfg (answering shoeResponse) shoeHeaders shoeData = Ok t
    /\ optimizeRow cfg (answering shoeResponse) (fun prompt => Ok (describe prompt))
         shoeHeaders shoeData = Ok row
    /\ tp_dataObj t
       = [("item_id", JS.Str "1"); ("title", JS.Str "Red Shoe"); ("color", JS.Str "")]
    /\ tp_genTemplate t = "<color> <size>"
    /\ JS.at_index row 9 = JS.Str "<color> <size>"
    /\ tp_gapAttributesAndValues t = [("color", JS.Str "Red"); ("size", JS.Str "10")]
    /\ JS.at_index row 12
       = JS.Str (JS.JSON_stringify [("color", JS.Str "Red"); ("size", JS.Str "10")])
    /\ tp_genTitle t = "Red 10"
    /\ JS.at_index row 3 = JS.Str "Red 10".
Proof.
  eexists. eexists.
  split; [vm_compute; reflexivity|].
  split; [unfold optimizeRow; vm_compute; reflexivity|].
  vm_compute. repeat split; reflexivity.
Qed.

(** C2 as stated fails: on the example, the gap map is not the one with
    [size] alone, and the generated title is not Red Shoe 10. *)
Lemma shoe_example_counterexample :
  exists t,
    titlePhase sampleConfig (answering shoeResponse) shoeHeaders shoeData = Ok t
    /\ tp_gapAttributesAndValues t <> [("size", JS.Str "10")]
    /\ JS.get_own (tp_gapAttributesAndValues t) "color" = Some (JS.Str "Red")
    /\ tp_genTitle t <> "Red Shoe 10".
Proof.
  eexists. split; [vm_compute; reflexivity|].
  vm_compute. repeat split; congruence.
Qed.



(** Once the title phase has returned, the row is generated as soon as
    the description call returns. *)
Lemma optimizeRow_returns (cfg : Config) (predictTitle : string -> result string)
    (describe : string -> string) (headers data : list string) (t : TitlePhase) :
  titlePhase cfg predictTitle headers data = Ok t ->
  exists row,
    optimizeRow cfg predictTitle (fun prompt => Ok (describe prompt)) headers data = Ok row
    /\ JS.at_index row 0 = JS.Bool false
    /\ JS.at_index row 1 = JS.Str "Success"
    /\ JS.at_index row 3 = JS.Str (tp_genTitle t)
    /\ JS.at_index row 13
       = JS.Str (JS.JSON_stringify
                   (JS.assign (tp_dataObj t) [("Generated Title", JS.Str (tp_genTitle t))])).
Proof.
  intros Ht. unfold optimizeRow. rewrite Ht. cbn [bind].
  unfold finishRow, fetchDescriptionGenerationData. cbn [bind].
  eexists. split; [reflexivity|]. repeat split; reflexivity.
Qed.



(** ** Facts about the export *)

Lemma at_index_set_index (l : list JS.value) (i j : nat) (v : JS.value) :
  JS.at_index (set_index l i v) j = if j =? i then v else JS.at_index l j.
Proof.
  unfold set_index, JS.at_index. revert l j.
  induction i as [|i IH]; intros l j; simpl.
  - destruct j as [|j]; [reflexivity|]. destruct l as [|x l]; simpl; [now destruct j|].
    reflexivity.
  - destruct l as [|x l]; destruct j as [|j]; simpl; try reflexivity.
    + rewrite IH. now destruct j.
    + apply IH.
Qed.

Section ExportFacts.

Variable cfg : Config.
Variable JSON_parse : string -> result JS.object.
Variable timestamp : nat -> string.

(** The keys [keysOfColumn] collects are those of the objects its rows
    hold in that column. *)
Lemma keysOfColumn_spec (col : nat) (rows : list (list JS.value)) (keys : list string) :
  keysOfColumn JSON_parse col rows = Ok keys ->
  forall k,
    In k keys
    <-> exists row o, In row rows /\ parseCellOr JSON_parse row col = Ok o
                      /\ In k (JS.Object_keys o).
Proof.
  revert keys. induction rows as [|row rows IH]; intros keys Hkeys k; simpl in Hkeys.
  - injection Hkeys as <-. split; [contradiction|]. now intros (row & o & [] & _).
  - destruct (JS.truthy (JS.at_index row col)) eqn:Hcell.
    + destruct (JSON_parse (JS.toString (JS.at_index row col))) as [parsed|e] eqn:Hparse;
        cbn [bind] in Hkeys; [|discriminate].
      destruct (keysOfColumn JSON_parse col rows) as [others|e]; cbn [bind] in Hkeys;
        [|discriminate].
      injection Hkeys as <-. rewrite in_app_iff, (IH others eq_refl k). split.
      * intros [Hk|(r & o & Hr & Ho & Hk)].
        -- exists row, parsed. split; [now left|]. split; [|assumption].
           unfold parseCellOr. now rewrite Hcell.
        -- exists r, o. split; [now right | now split].
      * intros (r & o & [<-|Hr] & Ho & Hk).
        -- left. unfold parseCellOr in Ho. rewrite Hcell, Hparse in Ho.
           now injection Ho as <-.
        -- right. now exists r, o.
    + rewrite (IH keys Hkeys k). split.
      * intros (r & o & Hr & Ho & Hk). exists r, o. split; [now right | now split].
      * intros (r & o & [<-|Hr] & Ho & Hk).
        -- unfold parseCellOr in Ho. rewrite Hcell in Ho. injection Ho as <-.
           contradiction.
        -- now exists r, o.
Qed.

Lemma keysOfColumn_returns (col : nat) (rows : list (list JS.value)) :
  (forall row, In row rows -> exists o, parseCellOr JSON_parse row col = Ok o) ->
  exists keys, keysOfColumn JSON_parse col rows = Ok keys.
Proof.
  induction rows as [|row rows IH]; intros Hall; simpl.
  - now exists [].
  - destruct IH as [others Hothers]; [intros r Hr; apply Hall; now right|].
    destruct (Hall row (or_introl eq_refl)) as [o Ho]. unfold parseCellOr in Ho.
    destruct (JS.truthy (JS.at_index row col)).
    + rewrite Ho, Hothers. cbn [bind]. eexists. reflexivity.
    + now exists others.
Qed.

(** The loop over the columns leaves, under column [start + j], the value
    of the attribute numbered [j]. *)
Lemma export_columns_nth (f : string -> JS.value) (start : nat)
    (attributes : list string) (resRow : list JS.value) (j : nat) (attribute : string) :
  nth_error attributes j = Some attribute ->
  JS.at_index
    (fold_left (fun acc item => set_index acc (start + fst item) (f (snd item)))
               (indexed attributes) resRow)
    (start + j)
  = f attribute.
Proof.
  induction attributes as [|x l IH] using rev_ind; intros Hj.
  - destruct j; discriminate.
  - rewrite indexed_snoc, fold_left_app. simpl. rewrite at_index_set_index.
    assert (j < length (l ++ [x])) as Hlt by (apply nth_error_Some; congruence).
    rewrite length_app in Hlt. simpl in Hlt.
    destruct (Nat.eq_dec j (length l)) as [->|Hne].
    + rewrite Nat.eqb_refl. rewrite nth_error_app2 in Hj by lia.
      rewrite Nat.sub_diag in Hj. now injection Hj as ->.
    + rewrite nth_error_app1 in Hj by lia.
      destruct (Nat.eqb_spec (start + j) (start + length l)); [lia|]. now apply IH.
Qed.

Lemma exportRow_cell (attributes : list string) (i : nat) (row resRow : list JS.value)
    (j : nat) (attribute : string) :
  exportRow cfg JSON_parse timestamp attributes i row = Ok resRow ->
  nth_error attributes j = Some attribute ->
  exists g o,
    parseCellOr JSON_parse row (generated_cols_gapAttributes cfg) = Ok g
    /\ parseCellOr JSON_parse row (generated_cols_originalInput cfg) = Ok o
    /\ JS.at_index resRow (output_cols_gapCols_start cfg + j) = exportedValue g o attribute.
Proof.
  unfold exportRow. intros Hrow Hj.
  destruct (parseCellOr JSON_parse row (generated_cols_gapAttributes cfg)) as [g|e];
    cbn [bind] in Hrow; [|discriminate].
  destruct (parseCellOr JSON_parse row (generated_cols_originalInput cfg)) as [o|e];
    cbn [bind] in Hrow; [|discriminate].
  injection Hrow as <-. exists g, o. split; [reflexivity|]. split; [reflexivity|].
  now apply (export_columns_nth (exportedValue g o)).
Qed.

Lemma exportRows_nth (attributes : list string) (rows out : list (list JS.value)) (i : nat) :
  exportRows cfg JSON_parse timestamp attributes i rows = Ok out ->
  length out = length rows
  /\ forall n row, nth_error rows n = Some row ->
       exists resRow, nth_error out n = Some resRow
         /\ exportRow cfg JSON_parse timestamp attributes (i + n) row = Ok resRow.
Proof.
  revert out i. induction rows as [|r rows IH]; intros out i Hout; simpl in Hout.
  - injection Hout as <-. split; [reflexivity|]. intros [|n] row; discriminate.
  - destruct (exportRow cfg JSON_parse timestamp attributes i r) as [resRow|e] eqn:Hr;
      cbn [bind] in Hout; [|discriminate].
    destruct (exportRows cfg JSON_parse timestamp attributes (S i) rows) as [others|e] eqn:Hrest;
      cbn [bind] in Hout; [|discriminate].
    injection Hout as <-. destruct (IH others (S i) Hrest) as [Hlen Hnth].
    split; [simpl; now rewrite Hlen|].
    intros [|n] row Hn; simpl in Hn.
    + injection Hn as <-. exists resRow. now rewrite Nat.add_0_r.
    + destruct (Hnth n row Hn) as [res [Hres Hrow]]. exists res.
      split; [assumption|]. now rewrite Nat.add_succ_r.
Qed.

Lemma exportRows_returns (attributes : list string) (rows : list (list JS.value)) (i : nat) :
  (forall row, In row rows ->
     exists g o, parseCellOr JSON_parse row (generated_cols_gapAttributes cfg) = Ok g
              /\ parseCellOr JSON_parse row (generated_cols_originalInput cfg) = Ok o) ->
  exists out, exportRows cfg JSON_parse timestamp attributes i rows = Ok out.
Proof.
  revert i. induction rows as [|r rows IH]; intros i Hall; simpl.
  - now exists [].
  - destruct (Hall r (or_introl eq_refl)) as (g & o & Hg & Ho).
    destruct (IH (S i)) as [others Hothers]; [intros x Hx; apply Hall; now right|].
    unfold exportRow. rewrite Hg, Ho, Hothers. cbn [bind]. eexists. reflexivity.
Qed.

End ExportFacts.

(** When every blob of a batch parses, the classification returns the two
    lists the source computes. *)
Lemma getGapAndInventedAttributes_returns
    (cfg : Config) (JSON_parse : string -> result JS.object)
    (rows : list (list JS.value)) :
  (forall row, In row rows ->
     exists g o,
       parseCellOr JSON_parse row (generated_cols_gapAttributes cfg) = Ok g
       /\ parseCellOr JSON_parse row (generated_cols_originalInput cfg) = Ok o) ->
  exists filled input,
    keysOfColumn JSON_parse (generated_cols_gapAttributes cfg) rows = Ok filled
    /\ keysOfColumn JSON_parse (generated_cols_originalInput cfg) rows = Ok input
    /\ getGapAndInventedAttributes cfg JSON_parse rows
       = Ok (filter (fun gapKey => negb (Str.includes (Str.dedup input) gapKey))
                    (Str.dedup filled),
             filter (fun gapKey =>
                       negb (Str.includes
                               (filter (fun gapKey => negb (Str.includes (Str.dedup input) gapKey))
                                       (Str.dedup filled)) gapKey))
                    (Str.dedup filled)).
Proof.
  intros Hall.
  destruct (keysOfColumn_returns JSON_parse (generated_cols_gapAttributes cfg) rows)
    as [filled Hfilled].
  { intros row Hrow. destruct (Hall row Hrow) as (g & _ & Hg & _). now exists g. }
  destruct (keysOfColumn_returns JSON_parse (generated_cols_originalInput cfg) rows)
    as [input Hinput].
  { intros row Hrow. destruct (Hall row Hrow) as (_ & o & _ & Ho). now exists o. }
  exists filled, input. split; [assumption|]. split; [assumption|].
  unfold getGapAndInventedAttributes. rewrite Hfilled, Hinput. reflexivity.
Qed.


(** C6. For every batch of rows whose blobs parse,
    [getGapAndInventedAttributes] returns, and what it returns is a
    bipartition of the filled-in keys, the keys of the rows' gap maps: a
    filled-in key is in the gap list when some row's original-input
    snapshot has it and in the invented list when none has, never in
    both and never in neither; and the two lists hold nothing else. *)
Theorem gap_invented_bipartition
    (cfg : Config) (JSON_parse : string -> result JS.object)
    (rows : list (list JS.value)) :
  (forall row, In row rows ->
     exists g o,
       parseCellOr JSON_parse row (generated_cols_gapAttributes cfg) = Ok g
       /\ parseCellOr JSON_parse row (generated_cols_originalInput cfg) = Ok o) ->
  exists invented gap,
    getGapAndInventedAttributes cfg JSON_parse rows = Ok (invented, gap)
    /\ forall k,
         let filledIn :=
           exists row g, In row rows
             /\ parseCellOr JSON_parse row (generated_cols_gapAttributes cfg) = Ok g
             /\ In k (JS.Object_keys g) in
         let inSomeInput :=
           exists row o, In row rows
             /\ parseCellOr JSON_parse row (generated_cols_originalInput cfg) = Ok o
             /\ In k (JS.Object_keys o) in
         (In k gap <-> filledIn /\ inSomeInput)
         /\ (In k invented <-> filledIn /\ ~ inSomeInput)
         /\ ~ (In k gap /\ In k invented)
         /\ (filledIn -> In k gap \/ In k invented).
Proof.
  intros Hall.
  destruct (getGapAndInventedAttributes_returns cfg JSON_parse rows Hall)
    as (filled & input & Hfilled & Hinput & Hret).
  eexists. eexists. split; [exact Hret|].
  intros k filledIn inSomeInput.
  pose proof (keysOfColumn_spec JSON_parse _ _ _ Hfilled k) as Hf.
  pose proof (keysOfColumn_spec JSON_parse _ _ _ Hinput k) as Hi.
  fold filledIn in Hf. fold inSomeInput in Hi.
  assert (forall x,
            In x (filter (fun gapKey => negb (Str.includes (Str.dedup input) gapKey))
                         (Str.dedup filled))
            <-> In x filled /\ ~ In x input) as Hinv.
  { intros x. rewrite filter_In, negb_true_iff, includes_false, !dedup_In. reflexivity. }
  rewrite filter_In, negb_true_iff, includes_false, Hinv, dedup_In.
  rewrite <- Hf, <- Hi.
  destruct (in_dec string_dec k input) as [Hk|Hk]; tauto.
Qed.

Lemma gap_invented_bipartition_witness :
  exists invented gap,
    getGapAndInventedAttributes sampleConfig Blob.parse [rowA; rowB] = Ok (invented, gap)
    /\ (In "color" gap /\ ~ In "color" invented)
    /\ (In "material" invented /\ ~ In "material" gap).
Proof.
  destruct (gap_invented_bipartition sampleConfig Blob.parse [rowA; rowB])
    as (invented & gap & Hret & Hpart).
  - intros row [<-|[<-|[]]]; eexists; eexists; split; vm_compute; reflexivity.
  - exists invented, gap. split; [exact Hret|].
    assert (Ok (invented, gap) = Ok (["material"], ["color"])) as Heq
      by (rewrite <- Hret; vm_compute; reflexivity).
    injection Heq as -> ->. simpl. intuition congruence.
Defined.

(** C7. For every batch with an approved row whose blobs parse,
    [exportApproved] clears the output sheet and writes one export row per
    approved row; in the export row of an approved row, the cell of the
    gap or invented column numbered [j] holds that row's own gap-map value
    for the column's key when the key is one of the row's gap keys, and
    the row's original-input snapshot value for it otherwise, which is
    [undefined] when the snapshot has no such key. *)
Theorem exported_cell_value
    (cfg : Config) (JSON_parse : string -> result JS.object)
    (timestamp : nat -> string) (generatedRows : list (list JS.value)) :
  approvedRows cfg generatedRows <> [] ->
  (forall row, In row (approvedRows cfg generatedRows) ->
     exists g o,
       parseCellOr JSON_parse row (generated_cols_gapAttributes cfg) = Ok g
       /\ parseCellOr JSON_parse row (generated_cols_originalInput cfg) = Ok o) ->
  exists invented gap rowsToWrite,
    getGapAndInventedAttributes cfg JSON_parse (approvedRows cfg generatedRows)
    = Ok (invented, gap)
    /\ exportApproved cfg JSON_parse timestamp generatedRows
       = ([ Log "Exporting approved rows...";
            Log "Clearing approved data...";
            ClearDefinedRange (output_name cfg) (output_startRow cfg)
              (Z.of_nat (output_cols_id_idx cfg) + 1);
            ClearDefinedRange (output_name cfg) (output_startRow cfg + 1) 1;
            Log "Writing approved data...";
            SetValuesInDefinedRange (output_name cfg) (output_startRow cfg)
              (Z.of_nat (output_cols_id_idx cfg) + 1)
              [map JS.Str (outputHeaderOf cfg invented gap)];
            SetValuesInDefinedRange (output_name cfg) (output_startRow cfg + 1) 1
              rowsToWrite ], Ok tt)
    /\ length rowsToWrite = length (approvedRows cfg generatedRows)
    /\ forall i row j attribute,
         nth_error (approvedRows cfg generatedRows) i = Some row ->
         nth_error (gap ++ invented) j = Some attribute ->
         exists g o resRow,
           parseCellOr JSON_parse row (generated_cols_gapAttributes cfg) = Ok g
           /\ parseCellOr JSON_parse row (generated_cols_originalInput cfg) = Ok o
           /\ nth_error rowsToWrite i = Some resRow
           /\ JS.at_index resRow (output_cols_gapCols_start cfg + j)
              = if Str.includes (JS.Object_keys g) attribute
                then JS.get g attribute
                else JS.get o attribute.
Proof.
  intros Hsome Hall.
  destruct (getGapAndInventedAttributes_returns cfg JSON_parse _ Hall)
    as (filled & input & _ & _ & Hattrs).
  set (invented := filter (fun gapKey => negb (Str.includes (Str.dedup input) gapKey))
                          (Str.dedup filled)) in *.
  set (gap := filter (fun gapKey => negb (Str.includes invented gapKey))
                     (Str.dedup filled)) in *.
  destruct (exportRows_returns cfg JSON_parse timestamp (gap ++ invented) _ 0 Hall)
    as [rowsToWrite Hrows].
  destruct (exportRows_nth cfg JSON_parse timestamp _ _ _ _ Hrows) as [Hlen Hnth].
  exists invented, gap, rowsToWrite.
  split; [assumption|]. split; [|split; [assumption|]].
  - unfold exportApproved.
    destruct (approvedRows cfg generatedRows) as [|r rest] eqn:Happroved; [contradiction|].
    cbn [length Nat.eqb]. rewrite Hattrs. unfold io_lift, emit, io_bind. cbn iota beta.
    rewrite Hrows. reflexivity.
  - intros i row j attribute Hi Hj.
    destruct (Hnth i row Hi) as [resRow [Hres Hrow]].
    destruct (exportRow_cell cfg JSON_parse timestamp _ _ _ _ j attribute Hrow Hj)
      as (g & o & Hg & Ho & Hcell).
    exists g, o, resRow. repeat (split; [assumption|]). exact Hcell.
Qed.

Lemma exported_cell_value_witness :
  exists rowsToWrite resRow,
    In (SetValuesInDefinedRange "Output" 2 1 rowsToWrite)
       (fst (exportApproved sampleConfig Blob.parse sampleTimestamp
               [rowA; unapprovedRow; rowB]))
    /\ nth_error rowsToWrite 0 = Some resRow
    /\ JS.at_index resRow 4 = JS.Str "Red"
    /\ JS.at_index resRow 5 = JS.Undefined.
Proof.
  destruct (exported_cell_value sampleConfig Blob.parse sampleTimestamp
              [rowA; unapprovedRow; rowB])
    as (invented & gap & rowsToWrite & Hattrs & Hrun & _ & Hcells).
  - vm_compute. discriminate.
  - intros row Hrow. vm_compute in Hrow.
    destruct Hrow as [<-|[<-|[]]]; eexists; eexists; split; vm_compute; reflexivity.
  - assert (Ok (invented, gap) = Ok (["material"], ["color"])) as Heq
      by (rewrite <- Hattrs; vm_compute; reflexivity).
    injection Heq as -> ->.
    destruct (Hcells 0 rowA 0 "color" eq_refl eq_refl)
      as (g0 & o0 & resRow & Hg0 & Ho0 & Hres & Hcolor).
    destruct (Hcells 0 rowA 1 "material" eq_refl eq_refl)
      as (g1 & o1 & resRow' & Hg1 & Ho1 & Hres' & Hmaterial).
    assert (resRow' = resRow) as -> by congruence.
    exists rowsToWrite, resRow. split; [|split; [assumption|split]].
    + rewrite Hrun. simpl. tauto.
    + vm_compute in Hg0, Ho0. injection Hg0 as <-. injection Ho0 as <-. exact Hcolor.
    + vm_compute in Hg1, Ho1. injection Hg1 as <-. injection Ho1 as <-. exact Hmaterial.
Defined.

(** C8. When no generated row has its approval cell equal to [true],
    [exportApproved] issues its opening log line and nothing else: no
    clearing and no writing of the output sheet. *)
Theorem export_without_approved_rows
    (cfg : Config) (JSON_parse : string -> result JS.object)
    (timestamp : nat -> string) (generatedRows : list (list JS.value)) :
  approvedRows cfg generatedRows = [] ->
  exportApproved cfg JSON_parse timestamp generatedRows
  = ([Log "Exporting approved rows..."], Ok tt)
  /\ forall e, In e (fst (exportApproved cfg JSON_parse timestamp generatedRows)) ->
       match e with
       | Log _ => True
       | ClearDefinedRange _ _ _ | SetValuesInDefinedRange _ _ _ _ | AppendRow _ _ => False
       end.
Proof.
  intros Hnone.
  assert (exportApproved cfg JSON_parse timestamp generatedRows
          = ([Log "Exporting approved rows..."], Ok tt)) as Hrun.
  { unfold exportApproved. rewrite Hnone. reflexivity. }
  split; [assumption|]. rewrite Hrun. intros e [<-|[]]. exact I.
Qed.

Lemma export_without_approved_rows_witness :
  exportApproved sampleConfig Blob.parse sampleTimestamp [unapprovedRow]
  = ([Log "Exporting approved rows..."], Ok tt).
Proof.
  apply (export_without_approved_rows sampleConfig Blob.parse sampleTimestamp
           [unapprovedRow]).
  reflexivity.
Defined.

(** C4 on the code: the original-input blob of the generated record is the
    text of the row object after [fetchDescriptionGenerationData] has
    assigned the generated title to it.  On the specification's example the
    blob has the member [Generated Title] and differs from the text of the
    row object read from the input row. *)
Lemma originalInput_blob_holds_generated_title :
  exists row,
    optimizeRow sampleConfig (answering shoeResponse) (answering "A red shoe.")
      shoeHeaders shoeData = Ok row
    /\ JS.at_index row (generated_cols_originalInput sampleConfig)
       = JS.Str (JS.JSON_stringify
                   [ ("item_id", JS.Str "1"); ("title", JS.Str "Red Shoe");
                     ("color", JS.Str ""); ("Generated Title", JS.Str "Red 10") ])
    /\ JS.at_index row (generated_cols_originalInput sampleConfig)
       <> JS.Str (JS.JSON_stringify (rowObject shoeHeaders shoeData)).
Proof.
  eexists. split; [vm_compute; reflexivity|].
  split; [vm_compute; reflexivity|]. vm_compute. discriminate.
Qed.

(** C5 on the code: the pieces are filtered before they are trimmed, so a
    piece of white space alone passes the filter and is trimmed to the
    empty string, which stays in the key and value sequences. *)
Lemma blank_piece_becomes_empty_element :
  pieces "color| |size|" = ["color"; ""; "size"]
  /\ exists t,
       titlePhase sampleConfig (answering blankPieceResponse) shoeHeaders shoeData = Ok t
       /\ tp_genAttributes t = ["color"; ""; "size"]
       /\ tp_genAttributeValues t = ["Red"; ""; "10"]
       /\ In "" (tp_genAttributes t)
       /\ In "" (tp_genAttributeValues t).
Proof.
  split; [reflexivity|].
  eexists. split; [vm_compute; reflexivity|]. simpl. tauto.
Qed.

(** C9 on the code: two invocations in a row while the model is
    unavailable.  Both work on the row 0, whose place is the sheet row 2.
    The first appends its Failed row there; the second appends another
    one below, at the sheet row 3, the place of the row 1, which has not
    been generated. *)
Lemma repeated_failure_appends_below :
  exists w1 w2 issued,
    invoke sampleConfig unavailable unavailable freshWorld
    = Some (w1, issued, Ok (Some 0%Z))
    /\ invoke sampleConfig unavailable unavailable w1
       = Some (w2, issued, Ok (Some 0%Z))
    /\ issued
       = [ Log "Generating for row 0";
           Log "Error: Error: 503";
           AppendRow "Generated" [JS.Undefined; JS.Str "Failed. See log for more details."] ]
    /\ generatedSheet w1
       = Some [ [JS.Str "Approval"; JS.Str "Status"];
                [JS.Undefined; JS.Str "Failed. See log for more details."] ]
    /\ generatedSheet w2
       = Some [ [JS.Str "Approval"; JS.Str "Status"];
                [JS.Undefined; JS.Str "Failed. See log for more details."];
                [JS.Undefined; JS.Str "Failed. See log for more details."] ].
Proof.
  eexists. eexists. eexists.
  split; [vm_compute; reflexivity|].
  split; [vm_compute; reflexivity|].
  repeat split; reflexivity.
Qed.

(* ================================================================== *)
(** * Further properties *)

(** ** Further properties of the parser and of the reconciler *)

(** X1. Every title feature comes from a key of the
    generated-attribute-key sequence: there is one feature per key, at the key's index, and it is
    the row's value for the key when that is truthy and the generated
    value of the same index if not; the generated title is their join. *)
Theorem title_features_follow_generated_keys
    (cfg : Config) (predictTitle : string -> result string)
    (headers data : list string) (t : TitlePhase) :
  titlePhase cfg predictTitle headers data = Ok t ->
  length (tp_titleFeatures t) = length (tp_genAttributes t)
  /\ (forall i k,
        nth_error (tp_genAttributes t) i = Some k ->
        nth_error (tp_titleFeatures t) i
        = Some (JS.or_else (JS.get (tp_dataObj t) k)
                           (string_at (tp_genAttributeValues t) i)))
  /\ tp_genTitle t = JS.join " " (tp_titleFeatures t).
Proof.
  intros Ht.
  destruct (titlePhase_inv _ _ _ _ _ Ht) as (_ & _ & _ & _ & _ & Hloop & _ & Htitle).
  assert (tp_titleFeatures t
          = fst (reconcile (tp_dataObj t) (tp_origAttributes t) (tp_genAttributes t)
                   (tp_genAttributeValues t))) as Hfeat by now rewrite <- Hloop.
  split; [|split; [|assumption]].
  - rewrite Hfeat. apply titleFeatures_length.
  - intros i k Hi. rewrite Hfeat. now apply titleFeatures_nth.
Qed.

Lemma title_features_follow_generated_keys_witness :
  exists t,
    titlePhase sampleConfig (answering shoeResponse) shoeHeaders shoeData = Ok t
    /\ length (tp_titleFeatures t) = length (tp_genAttributes t)
    /\ tp_genTitle t = JS.join " " (tp_titleFeatures t).
Proof.
  eexists. split; [vm_compute; reflexivity|].
  destruct (title_features_follow_generated_keys sampleConfig (answering shoeResponse)
              shoeHeaders shoeData _ eq_refl) as (Hlen & _ & Htitle).
  split; assumption.
Defined.

(** X2. A response with fewer than four lines makes [optimizeRow] throw the
    exception of a method call on [undefined], before any description is
    asked for. *)
Theorem missing_segment_throws
    (cfg : Config) (predictTitle predictDescription : string -> result string)
    (headers data : list string) (res : string) :
  fetchTitleGenerationData cfg predictTitle (rowObject headers data) = Ok res ->
  nth_error (Str.split Str.LF res) 3 = None ->
  optimizeRow cfg predictTitle predictDescription headers data
  = Throw replace_of_undefined.
Proof.
  intros Hres Hrow. unfold optimizeRow, titlePhase. rewrite Hres. cbn [bind].
  destruct (Str.split Str.LF res) as [|l0 [|l1 [|l2 [|l3 rest]]]];
    try discriminate; reflexivity.
Qed.

Lemma missing_segment_throws_witness :
  optimizeRow sampleConfig (answering "product category:Footwear") unavailable
    shoeHeaders shoeData
  = Throw replace_of_undefined.
Proof.
  apply (missing_segment_throws sampleConfig (answering "product category:Footwear")
           unavailable shoeHeaders shoeData "product category:Footwear");
    reflexivity.
Defined.

(** ** Further properties of the row driver *)

Section DriverFacts.

Variable cfg : Config.
Variables predictTitle predictDescription : string -> result string.

(** X3. An exception of [optimizeRow] does not leave [generateNextRow]: it is
    logged, a row with the Failed status is appended to the generated
    sheet, and the row index is returned as after a success. *)
Theorem generation_error_is_caught
    (w : World) (input : InputSheet) (s : Sheet.sheet) (rowIndex : Z)
    (row : list string) (e : exn) :
  inputSheet w = Some input ->
  generatedSheet w = Some s ->
  getNextRowIndexToBeGenerated cfg w = Ok rowIndex ->
  (rowIndex < in_lastRow input - input_startRow cfg)%Z ->
  in_rowValues input (input_startRow cfg + 1 + rowIndex)%Z = Ok row ->
  optimizeRow cfg predictTitle predictDescription (in_headers input) row = Throw e ->
  generateNextRow cfg predictTitle predictDescription w
  = ([ Log ("Generating for row " ++ Z_toString rowIndex);
       Log ("Error: " ++ exn_toString e);
       AppendRow (generated_name cfg) (failedRow cfg) ],
     Ok (Some rowIndex))
  /\ JS.at_index (failedRow cfg) (generated_cols_status cfg)
     = JS.Str (Status_FAILED cfg ++ ". See log for more details.").
Proof.
  intros Hin Hgen Hnext Hlt Hrow Hthrow. split.
  - unfold generateNextRow. rewrite Hin, Hgen, Hnext.
    unfold io_lift, io_bind at 1.
    destruct (Z.leb_spec (in_lastRow input - input_startRow cfg) rowIndex) as [H|_]; [lia|].
    rewrite Hrow. cbn [io_bind emit app]. rewrite Hthrow. reflexivity.
  - unfold failedRow. rewrite at_index_set_index. now rewrite Nat.eqb_refl.
Qed.

(** X4. A row [optimizeRow] returns is written at the place of its index in
    the generated sheet. *)
Theorem generated_row_is_written_in_place
    (w : World) (input : InputSheet) (s : Sheet.sheet) (rowIndex : Z)
    (row : list string) (optimizedRow : list JS.value) :
  inputSheet w = Some input ->
  generatedSheet w = Some s ->
  getNextRowIndexToBeGenerated cfg w = Ok rowIndex ->
  (rowIndex < in_lastRow input - input_startRow cfg)%Z ->
  in_rowValues input (input_startRow cfg + 1 + rowIndex)%Z = Ok row ->
  optimizeRow cfg predictTitle predictDescription (in_headers input) row
  = Ok optimizedRow ->
  generateNextRow cfg predictTitle predictDescription w
  = ([ Log ("Generating for row " ++ Z_toString rowIndex);
       SetValuesInDefinedRange (generated_name cfg)
         (generated_startRow cfg + 1 + rowIndex)%Z 1 [optimizedRow];
       Log (Status_SUCCESS cfg) ],
     Ok (Some rowIndex)).
Proof.
  intros Hin Hgen Hnext Hlt Hrow Hok.
  unfold generateNextRow. rewrite Hin, Hgen, Hnext.
  unfold io_lift, io_bind at 1.
  destruct (Z.leb_spec (in_lastRow input - input_startRow cfg) rowIndex) as [H|_]; [lia|].
  rewrite Hrow. cbn [io_bind emit app]. rewrite Hok. reflexivity.
Qed.

End DriverFacts.

Lemma generation_error_is_caught_witness :
  generateNextRow sampleConfig unavailable unavailable freshWorld
  = ([ Log "Generating for row 0";
       Log "Error: Error: 503";
       AppendRow "Generated" [JS.Undefined; JS.Str "Failed. See log for more details."] ],
     Ok (Some 0%Z)).
Proof.
  apply (generation_error_is_caught sampleConfig unavailable unavailable freshWorld
           sampleInput [[JS.Str "Approval"; JS.Str "Status"]] 0%Z
           ["1"; "Red Shoe"] (Failure "Error: 503"));
    solve [reflexivity | vm_compute; reflexivity].
Defined.

Lemma generated_row_is_written_in_place_witness :
  exists optimizedRow,
    generateNextRow sampleConfig (answering shoeResponse) (answering "A red shoe.")
      freshWorld
    = ([ Log "Generating for row 0";
         SetValuesInDefinedRange "Generated" 2 1 [optimizedRow];
         Log "Success" ],
       Ok (Some 0%Z)).
Proof.
  eexists.
  apply (generated_row_is_written_in_place sampleConfig (answering shoeResponse)
           (answering "A red shoe.") freshWorld sampleInput
           [[JS.Str "Approval"; JS.Str "Status"]] 0%Z ["1"; "Red Shoe"]);
    solve [reflexivity | vm_compute; reflexivity].
Defined.

(** ** What the assignment of the generated title does to the record *)

Lemma define_In (o : JS.object) (k : string) (v : JS.value) :
  In (k, v) (JS.define o k v).
Proof.
  induction o as [|[k' v'] o IH]; simpl.
  - now left.
  - destruct (String.eqb_spec k k') as [->|Hne]; simpl; [now left | now right].
Qed.

Lemma assign_generated_title (o : JS.object) (title : string) :
  JS.assign o [("Generated Title", JS.Str title)]
  = JS.define o "Generated Title" (JS.Str title).
Proof. reflexivity. Qed.

(** X5. The generated record keeps, as its original-input blob, the text of
    the row object with the generated title assigned to it: the blob
    always has the member [Generated Title], whose value is the generated
    title.  The words of the generated title are then among the input
    words, so that no word of it counts as new: the new-words cell of the
    record is always empty. *)
Theorem generated_title_enters_the_snapshot
    (cfg : Config) (predictTitle predictDescription : string -> result string)
    (headers data : list string) (row : list JS.value) :
  optimizeRow cfg predictTitle predictDescription headers data = Ok row ->
  exists t snapshot,
    titlePhase cfg predictTitle headers data = Ok t
    /\ snapshot = JS.define (tp_dataObj t) "Generated Title" (JS.Str (tp_genTitle t))
    /\ JS.at_index row 13 = JS.Str (JS.JSON_stringify snapshot)
    /\ In "Generated Title" (JS.Object_keys snapshot)
    /\ JS.get snapshot "Generated Title" = JS.Str (tp_genTitle t)
    /\ (forall w, In w (Words.match_words (tp_genTitle t)) ->
                  In (Str.toLowerCase w) (inputWordsOf snapshot))
    /\ JS.at_index row 11 = JS.Str "".
Proof.
  unfold optimizeRow. intros Hrow.
  destruct (titlePhase cfg predictTitle headers data) as [t|e] eqn:Ht;
    cbn [bind] in Hrow; [|discriminate].
  unfold finishRow, fetchDescriptionGenerationData in Hrow.
  rewrite assign_generated_title in Hrow.
  set (snapshot := JS.define (tp_dataObj t) "Generated Title" (JS.Str (tp_genTitle t))) in *.
  destruct (predictDescription _) as [description|e]; cbn [bind] in Hrow; [|discriminate].
  assert (forall w, In w (Words.match_words (tp_genTitle t)) ->
                    In (Str.toLowerCase w) (inputWordsOf snapshot)) as Hwords.
  { intros w Hw. unfold inputWordsOf. apply dedup_In. apply in_flat_map.
    exists (JS.Str (tp_genTitle t)). split.
    - unfold JS.Object_values. apply in_map_iff.
      exists ("Generated Title", JS.Str (tp_genTitle t)). split; [reflexivity|].
      apply Object_entries_In. apply define_In.
    - simpl. now apply in_map. }
  exists t, snapshot. split; [reflexivity|]. split; [reflexivity|].
  injection Hrow as <-. split; [reflexivity|]. split; [|split; [|split; [assumption|]]].
  - apply Object_keys_In. unfold JS.has_own, snapshot.
    now rewrite get_own_define, String.eqb_refl.
  - unfold JS.get, snapshot. now rewrite get_own_define, String.eqb_refl.
  - cbn [JS.at_index nth]. f_equal.
    unfold getGenerationMetrics, newWordsAdded, generationSignals, sig_newWordsAdded.
    replace (filter _ (Words.match_words (tp_genTitle t))) with (@nil string);
      [reflexivity|].
    symmetry. apply filter_empty. intros w Hw.
    apply negb_false_iff. apply includes_In. now apply Hwords.
Qed.

Lemma generated_title_enters_the_snapshot_witness :
  exists row,
    optimizeRow sampleConfig (answering shoeResponse) (answering "A red shoe.")
      shoeHeaders shoeData = Ok row
    /\ JS.at_index row 11 = JS.Str "".
Proof.
  eexists. split; [vm_compute; reflexivity|].
  destruct (generated_title_enters_the_snapshot sampleConfig (answering shoeResponse)
              (answering "A red shoe.") shoeHeaders shoeData _ eq_refl)
    as (t & snapshot & _ & _ & _ & _ & _ & _ & Hnew).
  exact Hnew.
Defined.

(** ** Trimmed pieces *)

Lemma trimStart_starts (s : string) : starts_white (Str.trimStart s) = false.
Proof.
  induction s as [|c s IH]; simpl; [reflexivity|].
  destruct (Str.is_white_space c) eqn:Hc; [assumption | simpl; assumption].
Qed.

Lemma trimStart_fixed (s : string) : starts_white s = false -> Str.trimStart s = s.
Proof.
  destruct s as [|c s]; simpl; [reflexivity|]. now intros ->.
Qed.

Lemma trimEnd_ends (s : string) : ends_white (Str.trimEnd s) = false.
Proof.
  induction s as [|c s IH]; simpl; [reflexivity|].
  destruct (Str.trimEnd s) as [|d t] eqn:Ht.
  - destruct (Str.is_white_space c) eqn:Hc; simpl; [reflexivity | assumption].
  - exact IH.
Qed.

Lemma trimEnd_starts (s : string) :
  starts_white s = false -> starts_white (Str.trimEnd s) = false.
Proof.
  destruct s as [|c s]; simpl; [reflexivity|]. intros Hc.
  destruct (Str.trimEnd s); [now rewrite Hc | exact Hc].
Qed.

Lemma trimEnd_idempotent (s : string) : Str.trimEnd (Str.trimEnd s) = Str.trimEnd s.
Proof.
  induction s as [|c s IH]; simpl; [reflexivity|].
  destruct (Str.trimEnd s) as [|d t] eqn:Ht.
  - destruct (Str.is_white_space c) eqn:Hc; simpl; [reflexivity | now rewrite Hc].
  - change (Str.trimEnd (String c (String d t))) with
      (match Str.trimEnd (String d t) with
       | EmptyString => if Str.is_white_space c then EmptyString else String c EmptyString
       | u => String c u
       end).
    now rewrite IH.
Qed.

Lemma trim_idempotent (s : string) : Str.trim (Str.trim s) = Str.trim s.
Proof.
  unfold Str.trim.
  rewrite (trimStart_fixed (Str.trimEnd (Str.trimStart s))).
  - apply trimEnd_idempotent.
  - apply trimEnd_starts, trimStart_starts.
Qed.

(** X6. No element of a parsed key or value sequence has white space at
    either end: trimming an element again changes nothing. *)
Theorem pieces_are_trimmed (text x : string) :
  In x (pieces text) ->
  Str.trim x = x /\ starts_white x = false /\ ends_white x = false.
Proof.
  unfold pieces. intros Hx. apply in_map_iff in Hx. destruct Hx as [y [<- _]].
  split; [apply trim_idempotent|]. split.
  - apply trimEnd_starts, trimStart_starts.
  - apply trimEnd_ends.
Qed.

Lemma pieces_are_trimmed_witness :
  Str.trim "size" = "size" /\ starts_white "size" = false /\ ends_white "size" = false.
Proof.
  apply (pieces_are_trimmed "color |  size |" "size"). simpl. tauto.
Defined.

(** ** Distinct export columns *)

Lemma dedup_NoDup (l : list string) : NoDup (Str.dedup l).
Proof.
  induction l as [|x l IH]; simpl; [constructor|].
  constructor.
  - rewrite filter_In. intros [_ H]. now rewrite String.eqb_refl in H.
  - now apply NoDup_filter.
Qed.

(** X7. The gap columns followed by the invented columns name every filled-in
    key once: no two export columns have the same key. *)
Theorem export_columns_are_distinct
    (cfg : Config) (JSON_parse : string -> result JS.object)
    (rows : list (list JS.value)) (invented gap : list string) :
  getGapAndInventedAttributes cfg JSON_parse rows = Ok (invented, gap) ->
  NoDup (gap ++ invented).
Proof.
  unfold getGapAndInventedAttributes. intros H.
  destruct (keysOfColumn JSON_parse (generated_cols_gapAttributes cfg) rows)
    as [filled|e]; cbn [bind] in H; [|discriminate].
  destruct (keysOfColumn JSON_parse (generated_cols_originalInput cfg) rows)
    as [input|e]; cbn [bind] in H; [|discriminate].
  injection H as <- <-.
  apply NoDup_app.
  - apply NoDup_filter, dedup_NoDup.
  - apply NoDup_filter, dedup_NoDup.
  - intros k Hgap Hinv. apply filter_In in Hgap. destruct Hgap as [_ Hgap].
    apply negb_true_iff, includes_false in Hgap. contradiction.
Qed.

Lemma export_columns_are_distinct_witness : NoDup (["color"] ++ ["material"]).
Proof.
  apply (export_columns_are_distinct sampleConfig Blob.parse [rowA; rowB]
           ["material"] ["color"]).
  vm_compute. reflexivity.
Defined.

(* ================================================================== *)
(** * The export reads back what the generation wrote *)

(** ** Reading back what [JSON.stringify] wrote *)

Lemma append_assoc (a b c : string) : (a ++ b) ++ c = a ++ (b ++ c).
Proof. induction a as [|x a IH]; simpl; [reflexivity | now rewrite IH]. Qed.

Lemma append_length (a b : string) :
  String.length (a ++ b) = String.length a + String.length b.
Proof. induction a as [|x a IH]; simpl; [reflexivity | now rewrite IH]. Qed.

(** The escape of a code unit is read back as that code unit. *)
Lemma string_body_escape (c : ascii) (rest t r : string) :
  Blob.string_body rest = Some (t, r) ->
  Blob.string_body (JS.json_escape c ++ rest) = Some (String c t, r).
Proof.
  intros H.
  destruct c as [[] [] [] [] [] [] [] []]; simpl; rewrite H; reflexivity.
Qed.

Lemma string_body_escape_all (s rest : string) :
  Blob.string_body (JS.json_escape_all s ++ String Str.dquote rest) = Some (s, rest).
Proof.
  induction s as [|c s IH]; [reflexivity|].
  cbn [JS.json_escape_all]. rewrite append_assoc. now apply string_body_escape.
Qed.

Lemma string_literal_quote (s rest : string) :
  Blob.string_literal (JS.json_quote s ++ rest) = Some (s, rest).
Proof.
  unfold JS.json_quote, Blob.string_literal.
  change (String Str.dquote (JS.json_escape_all s ++ String Str.dquote "") ++ rest)
    with (String Str.dquote ((JS.json_escape_all s ++ String Str.dquote "") ++ rest)).
  rewrite append_assoc. cbn -[Blob.string_body JS.json_escape_all].
  apply string_body_escape_all.
Qed.

Lemma expect_head (c : ascii) (rest : string) :
  Blob.is_json_space c = false -> Blob.expect c (String c rest) = Some rest.
Proof.
  intros Hc. unfold Blob.expect. simpl. now rewrite Hc, Ascii.eqb_refl.
Qed.

Lemma expect_other (c d : ascii) (rest : string) :
  Blob.is_json_space d = false -> Ascii.eqb c d = false ->
  Blob.expect c (String d rest) = None.
Proof.
  intros Hd Hcd. unfold Blob.expect. simpl. now rewrite Hd, Hcd.
Qed.

Lemma members_of_texts (es : list (string * string)) :
  forall (e : string * string) (acc : JS.object) (fuel : nat) (rest : string),
  length es < fuel ->
  Blob.members fuel (Str.join "," (map memberText (e :: es)) ++ "}" ++ rest) acc
  = Some (fold_left (fun o member => JS.define o (fst member) (JS.Str (snd member)))
                    (e :: es) acc, rest).
Proof.
  induction es as [|e2 es IH]; intros [k s] acc fuel rest Hfuel;
    (destruct fuel as [|fuel]; [lia|]).
  - cbn [map Str.join Blob.members]. unfold memberText. cbn [fst snd].
    rewrite !append_assoc, string_literal_quote.
    change (":" ++ JS.json_quote s ++ "}" ++ rest)
      with (String ":" (JS.json_quote s ++ String "}" rest)).
    rewrite expect_head by reflexivity. rewrite string_literal_quote.
    rewrite expect_other by reflexivity. rewrite expect_head by reflexivity.
    reflexivity.
  - change (Str.join "," (map memberText ((k, s) :: e2 :: es)))
      with (memberText (k, s) ++ "," ++ Str.join "," (map memberText (e2 :: es))).
    cbn [Blob.members]. unfold memberText at 1. cbn [fst snd].
    rewrite !append_assoc, string_literal_quote.
    change (":" ++ JS.json_quote s ++ "," ++ Str.join "," (map memberText (e2 :: es)) ++ "}" ++ rest)
      with (String ":" (JS.json_quote s
                        ++ String "," (Str.join "," (map memberText (e2 :: es)) ++ "}" ++ rest))).
    rewrite expect_head by reflexivity. rewrite string_literal_quote.
    rewrite expect_head by reflexivity.
    rewrite IH by (simpl in Hfuel; lia). reflexivity.
Qed.

Lemma json_members_texts (entries : list (string * JS.value)) :
  (forall e, In e entries -> isBool (snd e) = false) ->
  JS.json_members entries = map memberText (stringMembers entries).
Proof.
  induction entries as [|[k v] entries IH]; intros Hno; [reflexivity|].
  assert (JS.json_members entries = map memberText (stringMembers entries)) as Hrest
    by (apply IH; intros e He; apply Hno; now right).
  specialize (Hno (k, v) (or_introl eq_refl)).
  destruct v as [|b|s|name]; simpl in *; try assumption; [discriminate|].
  now rewrite Hrest.
Qed.

Lemma stringMembers_keys (entries : list (string * JS.value)) (k : string) :
  In k (map fst (stringMembers entries)) -> In k (map fst entries).
Proof.
  induction entries as [|[k' v] entries IH]; simpl; [tauto|].
  destruct v; simpl; tauto.
Qed.

Lemma stringMembers_NoDup (entries : list (string * JS.value)) :
  NoDup (map fst entries) -> NoDup (map fst (stringMembers entries)).
Proof.
  induction entries as [|[k v] entries IH]; simpl; intros Hnd; [constructor|].
  inversion Hnd as [|? ? Hk Hrest]; subst.
  destruct v; simpl; auto. constructor; auto.
  intros Hin. apply Hk. now apply stringMembers_keys.
Qed.

Lemma define_fresh (o : JS.object) (k : string) (v : JS.value) :
  ~ In k (map fst o) -> JS.define o k v = (o ++ [(k, v)])%list.
Proof.
  induction o as [|[k' v'] o IH]; simpl; intros Hk; [reflexivity|].
  destruct (String.eqb_spec k k') as [->|Hne]; [tauto|].
  rewrite IH; tauto.
Qed.

Lemma fold_define_distinct (es : list (string * string)) (acc : JS.object) :
  NoDup (map fst acc ++ map fst es) ->
  fold_left (fun o member => JS.define o (fst member) (JS.Str (snd member))) es acc
  = (acc ++ map (fun member => (fst member, JS.Str (snd member))) es)%list.
Proof.
  revert acc. induction es as [|[k s] es IH]; intros acc Hnd; simpl.
  - now rewrite app_nil_r.
  - simpl in Hnd. rewrite define_fresh.
    + rewrite IH.
      * now rewrite <- app_assoc.
      * rewrite map_app. simpl. rewrite <- app_assoc. exact Hnd.
    + apply NoDup_remove_2 in Hnd. intros Hin. apply Hnd. apply in_or_app. now left.
Qed.

Lemma join_length (l : list (string * string)) :
  length l <= String.length (Str.join "," (map memberText l)).
Proof.
  induction l as [|e l IH]; [simpl; lia|].
  destruct l as [|e2 l].
  - simpl. unfold memberText, JS.json_quote. simpl. lia.
  - change (Str.join "," (map memberText (e :: e2 :: l)))
      with (memberText e ++ "," ++ Str.join "," (map memberText (e2 :: l))).
    rewrite !append_length. simpl in *. lia.
Qed.

(** The text [JSON.stringify] gives for an object with distinct keys and
    no boolean member is read back as the members that have a string for
    value, in the order of enumeration. *)
Lemma parse_stringify (o : JS.object) :
  (forall e, In e o -> isBool (snd e) = false) ->
  NoDup (JS.Object_keys o) ->
  Blob.parse (JS.JSON_stringify o)
  = Ok (map (fun member => (fst member, JS.Str (snd member)))
            (stringMembers (JS.Object_entries o))).
Proof.
  intros Hno Hnd. unfold Blob.parse, JS.JSON_stringify.
  rewrite json_members_texts
    by (intros e He; apply Hno; now apply Object_entries_In).
  pose proof (stringMembers_NoDup _ Hnd) as Hdistinct.
  destruct (stringMembers (JS.Object_entries o)) as [|[k s] es] eqn:Hes; [reflexivity|].
  unfold Blob.parse_object.
  change ("{" ++ Str.join "," (map memberText ((k, s) :: es)) ++ "}")
    with (String "{" (Str.join "," (map memberText ((k, s) :: es)) ++ "}" ++ "")).
  rewrite expect_head by reflexivity.
  assert (exists tail,
            Str.join "," (map memberText ((k, s) :: es)) ++ "}" ++ ""
            = String Str.dquote tail) as [tail Htail].
  { destruct es; eexists; reflexivity. }
  rewrite Htail at 1. rewrite expect_other by reflexivity.
  rewrite members_of_texts.
  - cbn [Blob.skip_space]. rewrite fold_define_distinct by exact Hdistinct. reflexivity.
  - cbn [String.length]. rewrite append_length.
    pose proof (join_length ((k, s) :: es)) as Hlen. cbn [length] in Hlen. lia.
Qed.

(** ** The objects the controller builds *)

Lemma insert_by_index_Permutation (n : N) (e : string * JS.value)
    (l : list (N * (string * JS.value))) :
  Permutation (JS.insert_by_index n e l) ((n, e) :: l).
Proof.
  induction l as [|[m e'] l IH]; simpl; [reflexivity|].
  destruct (n <=? m)%N; [reflexivity|].
  rewrite IH. apply perm_swap.
Qed.

(** Enumeration is a rearrangement of the own properties. *)
Lemma Object_entries_Permutation (o : JS.object) : Permutation (JS.Object_entries o) o.
Proof.
  unfold JS.Object_entries, JS.named_entries.
  induction o as [|[k v] o IH]; simpl; [reflexivity|].
  destruct (JS.array_index k) as [n|]; simpl.
  - rewrite (Permutation_map snd (insert_by_index_Permutation n (k, v) _)). simpl.
    now constructor.
  - rewrite <- Permutation_middle. now constructor.
Qed.

Lemma Object_keys_NoDup (o : JS.object) : NoDup (map fst o) -> NoDup (JS.Object_keys o).
Proof.
  intros Hnd. unfold JS.Object_keys.
  eapply Permutation_NoDup; [|exact Hnd].
  apply Permutation_map. symmetry. apply Object_entries_Permutation.
Qed.

Lemma define_keys (o : JS.object) (k : string) (v : JS.value) :
  map fst (JS.define o k v)
  = if JS.has_own o k then map fst o else (map fst o ++ [k])%list.
Proof.
  unfold JS.has_own. induction o as [|[k' v'] o IH]; simpl; [reflexivity|].
  destruct (String.eqb_spec k k') as [->|Hne]; simpl; [reflexivity|].
  rewrite IH. now destruct (JS.get_own o k).
Qed.

Lemma define_NoDup (o : JS.object) (k : string) (v : JS.value) :
  NoDup (map fst o) -> NoDup (map fst (JS.define o k v)).
Proof.
  intros Hnd. rewrite define_keys. destruct (JS.has_own o k) eqn:Hk; [assumption|].
  apply NoDup_app; [assumption | repeat constructor; tauto |].
  intros x Hx [<-|[]]. apply get_own_In in Hx. congruence.
Qed.

Lemma set_NoDup (o : JS.object) (k : string) (v : JS.value) :
  NoDup (map fst o) -> NoDup (map fst (JS.set o k v)).
Proof.
  intros Hnd. unfold JS.set.
  destruct (String.eqb k "__proto__" && negb (JS.has_own o k)); [assumption|].
  now apply define_NoDup.
Qed.

Lemma define_values (o : JS.object) (k : string) (v : JS.value) (e : string * JS.value) :
  In e (JS.define o k v) -> In e o \/ snd e = v.
Proof.
  induction o as [|[k' v'] o IH]; simpl.
  - intros [<-|[]]. now right.
  - destruct (String.eqb_spec k k') as [->|Hne]; simpl.
    + intros [<-|H]; [now right | left; now right].
    + intros [<-|H]; [left; now left|]. destruct (IH H); [left; now right | now right].
Qed.

Lemma set_values (o : JS.object) (k : string) (v : JS.value) (e : string * JS.value) :
  In e (JS.set o k v) -> In e o \/ snd e = v.
Proof.
  unfold JS.set.
  destruct (String.eqb k "__proto__" && negb (JS.has_own o k)); [now left|].
  apply define_values.
Qed.

Lemma fromEntries_invariant (entries : list (string * JS.value)) (acc : JS.object) :
  NoDup (map fst acc) ->
  (forall e, In e acc -> exists s, snd e = JS.Str s) ->
  (forall e, In e entries -> exists s, snd e = JS.Str s) ->
  let o := fold_left (fun o kv => JS.define o (fst kv) (snd kv)) entries acc in
  NoDup (map fst o) /\ forall e, In e o -> exists s, snd e = JS.Str s.
Proof.
  revert acc. induction entries as [|[k v] entries IH]; intros acc Hnd Hacc Hall; simpl.
  - now split.
  - apply IH.
    + now apply define_NoDup.
    + intros e He. destruct (define_values _ _ _ _ He) as [H|H]; [now apply Hacc|].
      destruct (Hall (k, v) (or_introl eq_refl)) as [s Hs]. exists s. simpl in *. congruence.
    + intros e He. apply Hall. now right.
Qed.

(** The row object has distinct keys and strings for values. *)
Lemma rowObject_invariant (headers data : list string) :
  NoDup (map fst (rowObject headers data))
  /\ forall e, In e (rowObject headers data) -> exists s, snd e = JS.Str s.
Proof.
  unfold rowObject, JS.fromEntries. apply fromEntries_invariant.
  - constructor.
  - intros e [].
  - intros e He. apply in_map_iff in He. destruct He as [item [<- _]]. simpl. eauto.
Qed.

(** The gap map has distinct keys and no boolean for value. *)
Lemma gap_invariant (dataObj : JS.object) (orig vals l : list string) :
  NoDup (map fst (snd (reconcile dataObj orig l vals)))
  /\ forall e, In e (snd (reconcile dataObj orig l vals)) -> isBool (snd e) = false.
Proof.
  induction l as [|x l [IHnd IHval]] using rev_ind.
  - split; [constructor | intros e []].
  - rewrite gap_snoc. destruct (isGap dataObj orig x); [|now split]. split.
    + now apply set_NoDup.
    + intros e He. destruct (set_values _ _ _ _ He) as [H|H]; [now apply IHval|].
      rewrite H. unfold string_at. now destruct (nth_error vals (length l)).
Qed.

Lemma stringMembers_all (entries : list (string * JS.value)) :
  (forall e, In e entries -> exists s, snd e = JS.Str s) ->
  map (fun member => (fst member, JS.Str (snd member))) (stringMembers entries) = entries.
Proof.
  induction entries as [|[k v] entries IH]; intros Hall; [reflexivity|].
  destruct (Hall (k, v) (or_introl eq_refl)) as [s Hs]. simpl in Hs. subst v. simpl.
  rewrite IH; [reflexivity|]. intros e He. apply Hall. now right.
Qed.

Lemma JSON_stringify_truthy (o : JS.object) :
  JS.truthy (JS.Str (JS.JSON_stringify o)) = true.
Proof. reflexivity. Qed.

(** X8. What the export reads back from the two blob cells of a record
    [optimizeRow] has returned: from the original-input cell, the row
    object with the generated title assigned to it, its members in the
    order of enumeration; from the gap cell, the members of the gap map
    that have a value, in the order of enumeration. *)
Theorem export_reads_back_generation
    (cfg : Config) (predictTitle predictDescription : string -> result string)
    (headers data : list string) (row : list JS.value) :
  optimizeRow cfg predictTitle predictDescription headers data = Ok row ->
  exists t snapshot,
    titlePhase cfg predictTitle headers data = Ok t
    /\ snapshot = JS.define (tp_dataObj t) "Generated Title" (JS.Str (tp_genTitle t))
    /\ parseCellOr Blob.parse row 13 = Ok (JS.Object_entries snapshot)
    /\ parseCellOr Blob.parse row 12
       = Ok (map (fun member => (fst member, JS.Str (snd member)))
                 (stringMembers (JS.Object_entries (tp_gapAttributesAndValues t)))).
Proof.
  unfold optimizeRow. intros Hrow.
  destruct (titlePhase cfg predictTitle headers data) as [t|e] eqn:Ht;
    cbn [bind] in Hrow; [|discriminate].
  unfold finishRow, fetchDescriptionGenerationData in Hrow.
  rewrite assign_generated_title in Hrow.
  set (snapshot := JS.define (tp_dataObj t) "Generated Title" (JS.Str (tp_genTitle t))) in *.
  destruct (predictDescription _) as [description|e]; cbn [bind] in Hrow; [|discriminate].
  injection Hrow as <-.
  destruct (titlePhase_inv _ _ _ _ _ Ht) as (Hdata & _ & _ & _ & _ & Hloop & _).
  destruct (rowObject_invariant headers data) as [Hnd Hstr]. rewrite <- Hdata in Hnd, Hstr.
  assert (forall e, In e snapshot -> exists s, snd e = JS.Str s) as Hsnap.
  { intros e He. destruct (define_values _ _ _ _ He) as [H|H]; [now apply Hstr | eauto]. }
  assert (tp_gapAttributesAndValues t
          = snd (reconcile (tp_dataObj t) (tp_origAttributes t) (tp_genAttributes t)
                   (tp_genAttributeValues t))) as Hgap by now rewrite <- Hloop.
  destruct (gap_invariant (tp_dataObj t) (tp_origAttributes t)
              (tp_genAttributeValues t) (tp_genAttributes t)) as [Hgnd Hgval].
  rewrite <- Hgap in Hgnd, Hgval.
  exists t, snapshot. split; [reflexivity|]. split; [reflexivity|]. split.
  - unfold parseCellOr. cbn [JS.at_index nth]. rewrite JSON_stringify_truthy.
    cbn [JS.toString]. rewrite parse_stringify.
    + rewrite stringMembers_all; [reflexivity|].
      intros e He. apply Hsnap. now apply Object_entries_In.
    + intros e He. destruct (Hsnap e He) as [s ->]. reflexivity.
    + apply Object_keys_NoDup. now apply define_NoDup.
  - unfold parseCellOr. cbn [JS.at_index nth].
    destruct (JS.Object_keys (tp_gapAttributesAndValues t)) as [|k ks] eqn:Hkeys.
    + cbn [length Nat.ltb Nat.leb JS.truthy Str.nonempty].
      unfold JS.Object_keys in Hkeys.
      destruct (JS.Object_entries (tp_gapAttributesAndValues t)); [reflexivity | discriminate].
    + cbn [length Nat.ltb Nat.leb]. rewrite JSON_stringify_truthy. cbn [JS.toString].
      apply parse_stringify; [assumption|]. now apply Object_keys_NoDup.
Qed.

Lemma export_reads_back_generation_witness :
  exists row,
    optimizeRow sampleConfig (answering shortValuesResponse) (answering "A red shoe.")
      shoeHeaders shoeData = Ok row
    /\ parseCellOr Blob.parse row 12 = Ok [("color", JS.Str "Red")]
    /\ parseCellOr Blob.parse row 13
       = Ok [ ("item_id", JS.Str "1"); ("title", JS.Str "Red Shoe"); ("color", JS.Str "");
              ("Generated Title", JS.Str "Red ") ].
Proof.
  eexists. split; [vm_compute; reflexivity|].
  destruct (export_reads_back_generation sampleConfig (answering shortValuesResponse)
              (answering "A red shoe.") shoeHeaders shoeData _ eq_refl)
    as (t & snapshot & Ht & Hsnap & Horiginal & Hgap).
  assert (Ok t = titlePhase sampleConfig (answering shortValuesResponse) shoeHeaders shoeData)
    as Heq by now rewrite Ht.
  vm_compute in Heq. injection Heq as ->. subst snapshot.
  split; [exact Hgap | exact Horiginal].
Defined.

(* ================================================================== *)
(** * The row driver over successive invocations *)

(** ** The next row to be generated *)

Lemma findIndex_range {A : Type} (p : A -> bool) (l : list A) :
  (-1 <= findIndex p l < Z.of_nat (length l))%Z.
Proof.
  induction l as [|x l IH]; simpl; [lia|].
  destruct (p x); [lia|].
  destruct (Z.ltb_spec (findIndex p l) 0); lia.
Qed.

Lemma findIndex_none {A : Type} (p : A -> bool) (l : list A) :
  (findIndex p l < 0)%Z -> forall x, In x l -> p x = false.
Proof.
  induction l as [|y l IH]; simpl; [tauto|].
  destruct (p y) eqn:Hy; [lia|].
  destruct (Z.ltb_spec (findIndex p l) 0) as [Hlt|Hge]; [|lia].
  intros _ x [<-|Hx]; [assumption | now apply IH].
Qed.

Lemma findIndex_found {A : Type} (p : A -> bool) (l : list A) :
  (0 <= findIndex p l)%Z ->
  (exists x, nth_error l (Z.to_nat (findIndex p l)) = Some x /\ p x = true)
  /\ forall j y, j < Z.to_nat (findIndex p l) -> nth_error l j = Some y -> p y = false.
Proof.
  induction l as [|x l IH]; simpl; [lia|].
  destruct (p x) eqn:Hx.
  - intros _. split; [now exists x|]. intros j y Hj. simpl in Hj. lia.
  - destruct (Z.ltb_spec (findIndex p l) 0) as [Hlt|Hge]; [lia|]. intros _.
    destruct (IH Hge) as [[y [Hy Hp]] Hbefore].
    replace (Z.to_nat (findIndex p l + 1)) with (S (Z.to_nat (findIndex p l))) by lia.
    split; [now exists y|].
    intros [|j] z Hj Hz; simpl in Hz.
    + now injection Hz as <-.
    + apply (Hbefore j z); [lia | assumption].
Qed.

Lemma includesCell_single (value : string) (cell : JS.value) :
  includesCell [value] cell = true <-> cell = JS.Str value.
Proof.
  destruct cell as [|b|s|name]; simpl; try (split; [discriminate | congruence]).
  unfold Str.includes. simpl. rewrite orb_false_r. rewrite String.eqb_eq.
  split; [now intros -> | congruence].
Qed.

Lemma nth_error_map_seq {A : Type} (f : nat -> A) (start len j : nat) :
  j < len -> nth_error (map f (seq start len)) j = Some (f (start + j)).
Proof.
  intros Hj. rewrite nth_error_map, nth_error_seq.
  destruct (Nat.ltb_spec j len); [reflexivity | lia].
Qed.

(** On a generated sheet that has its header rows, the index
    [getNextRowIndexToBeGenerated] returns is at most the number of
    generated rows; the rows before it have the Success status and the row
    at it, when there is one, has not. *)
Lemma getNext_first_without_success
    (cfg : Config) (w : World) (s : Sheet.sheet) :
  generatedSheet w = Some s ->
  (0 <= generated_startRow cfg <= Z.of_nat (Sheet.getLastRow s))%Z ->
  exists n,
    getNextRowIndexToBeGenerated cfg w = Ok (Z.of_nat n)
    /\ (Z.of_nat n <= Z.of_nat (Sheet.getLastRow s) - generated_startRow cfg)%Z
    /\ (forall j, j < n -> statusOf cfg s j = JS.Str (Status_SUCCESS cfg))
    /\ ((Z.of_nat n < Z.of_nat (Sheet.getLastRow s) - generated_startRow cfg)%Z ->
        statusOf cfg s n <> JS.Str (Status_SUCCESS cfg)).
Proof.
  intros Hs Hrows. unfold getNextRowIndexToBeGenerated, findRowIndex, getTotalRows.
  rewrite Hs.
  set (lastRow := Z.of_nat (Sheet.getLastRow s)) in *.
  set (startRow := generated_startRow cfg) in *.
  replace (lastRow - (startRow + 1) + 1)%Z with (lastRow - startRow)%Z by lia.
  destruct (Z.eqb_spec (lastRow - startRow) 0) as [Hzero|Hsome].
  - exists 0. cbn [bind]. split; [reflexivity|]. split; [simpl; lia|].
    split; [intros j Hj; lia | simpl; lia].
  - destruct (Z.ltb_spec (startRow + 1) 1); [lia|].
    destruct (Z.ltb_spec (Z.of_nat (generated_cols_status cfg) + 1) 1); [lia|].
    destruct (Z.ltb_spec (lastRow - startRow) 0); [lia|].
    cbn [orb bind].
    set (data := map _ (seq _ _)).
    set (p := fun cell : JS.value => negb (includesCell [Status_SUCCESS cfg] cell)).
    assert (length data = Z.to_nat (lastRow - startRow)) as Hlen
      by (unfold data; now rewrite length_map, length_seq).
    assert (forall j, j < Z.to_nat (lastRow - startRow) ->
              nth_error data j = Some (statusOf cfg s j)) as Hnth.
    { intros j Hj. unfold data. rewrite nth_error_map_seq by assumption.
      unfold statusOf. fold startRow. do 2 f_equal; lia. }
    assert (forall cell, p cell = false <-> cell = JS.Str (Status_SUCCESS cfg)) as Hp.
    { intros cell. unfold p. rewrite negb_false_iff. apply includesCell_single. }
    pose proof (findIndex_range p data) as Hrange.
    destruct (Z.leb_spec 0 (findIndex p data)) as [Hfound|Hnone].
    + destruct (Z.ltb_spec (findIndex p data) 0); [lia|].
      destruct (findIndex_found p data Hfound) as [[x [Hx Hpx]] Hbefore].
      exists (Z.to_nat (findIndex p data)).
      split; [f_equal; lia|]. split; [lia|]. split.
      * intros j Hj. apply Hp. apply (Hbefore j); [assumption|]. apply Hnth. lia.
      * intros _ Heq. rewrite Hnth in Hx by lia. injection Hx as <-.
        apply Hp in Heq. congruence.
    + destruct (Z.ltb_spec (-1) 0); [|lia].
      exists (Z.to_nat (lastRow - startRow)).
      split; [f_equal; lia|]. split; [lia|]. split; [|lia].
      intros j Hj. apply Hp. apply (findIndex_none p data); [lia|].
      eapply nth_error_In. now apply Hnth.
Qed.

(** X9. On a generated sheet that has its header rows,
    [getNextRowIndexToBeGenerated] returns the index of the first
    generated row whose status is not the Success status; when every
    generated row has that status, it returns their number, which is what
    [getTotalGeneratedRows] returns. *)
Theorem next_row_is_first_without_success
    (cfg : Config) (w : World) (s : Sheet.sheet) :
  generatedSheet w = Some s ->
  (0 <= generated_startRow cfg <= Z.of_nat (Sheet.getLastRow s))%Z ->
  exists n,
    getNextRowIndexToBeGenerated cfg w = Ok (Z.of_nat n)
    /\ (Z.of_nat n <= getTotalGeneratedRows cfg w)%Z
    /\ (forall j, j < n -> statusOf cfg s j = JS.Str (Status_SUCCESS cfg))
    /\ ((Z.of_nat n < getTotalGeneratedRows cfg w)%Z ->
        statusOf cfg s n <> JS.Str (Status_SUCCESS cfg))
    /\ ((forall j, (Z.of_nat j < getTotalGeneratedRows cfg w)%Z ->
                   statusOf cfg s j = JS.Str (Status_SUCCESS cfg)) ->
        Z.of_nat n = getTotalGeneratedRows cfg w).
Proof.
  intros Hs Hrows.
  destruct (getNext_first_without_success cfg w s Hs Hrows)
    as (n & Hn & Hle & Hbefore & Hat).
  assert (getTotalGeneratedRows cfg w
          = (Z.of_nat (Sheet.getLastRow s) - generated_startRow cfg)%Z) as Htotal
    by (unfold getTotalGeneratedRows, getTotalRows; now rewrite Hs).
  rewrite Htotal. exists n. repeat (split; [assumption|]).
  intros Hall. destruct (Z.eq_dec (Z.of_nat n)
                           (Z.of_nat (Sheet.getLastRow s) - generated_startRow cfg))
    as [Heq|Hne]; [assumption|].
  exfalso. apply Hat; [lia|]. apply Hall. lia.
Qed.

Lemma next_row_is_first_without_success_witness :
  exists n,
    getNextRowIndexToBeGenerated sampleConfig partlyGeneratedWorld = Ok (Z.of_nat n)
    /\ statusOf sampleConfig partlyGenerated n <> JS.Str "Success".
Proof.
  destruct (next_row_is_first_without_success sampleConfig partlyGeneratedWorld
              partlyGenerated eq_refl)
    as (n & Hn & _ & _ & Hat & _).
  - simpl. lia.
  - exists n. split; [exact Hn|]. apply Hat.
    assert (Ok (Z.of_nat n) = Ok 1%Z) as Heq by (rewrite <- Hn; reflexivity).
    injection Heq as ->. vm_compute. reflexivity.
Defined.

(** ** Facts about the grid of a sheet *)

Lemma nth_overwrite_single {A : Type} (pad v : A) (i j : nat) (l : list A) :
  nth j (Sheet.overwrite pad i [v] l) pad = if j =? i then v else nth j l pad.
Proof.
  revert l j. induction i as [|i IH]; intros l j; simpl.
  - destruct j as [|j]; [reflexivity|]. destruct l as [|x l]; simpl; [now destruct j|].
    reflexivity.
  - destruct l as [|x l]; destruct j as [|j]; simpl; try reflexivity.
    + rewrite IH. now destruct j.
    + apply IH.
Qed.

Lemma getLastRow_bounds (s : Sheet.sheet) :
  (forall j, Sheet.getLastRow s <= j -> Sheet.blank_row (nth j s []) = true)
  /\ (0 < Sheet.getLastRow s ->
      Sheet.blank_row (nth (Sheet.getLastRow s - 1) s []) = false).
Proof.
  induction s as [|r s [IHafter IHlast]]; simpl.
  - split; [intros j _; now destruct j | lia].
  - destruct (Sheet.getLastRow s) as [|n] eqn:Hn.
    + destruct (Sheet.blank_row r) eqn:Hr.
      * split; [|lia]. intros [|j] _; [assumption | apply IHafter; lia].
      * split; [|intros _; exact Hr]. intros [|j] Hj; [lia | apply IHafter; lia].
    + split.
      * intros [|j] Hj; [lia | apply IHafter; lia].
      * intros _. replace (S (S n) - 1) with (S n) by lia. cbn [nth].
        replace n with (S n - 1) at 1 by lia. apply IHlast. lia.
Qed.

(** The last row with content is the only position with a row of content
    just before it and none from it on. *)
Lemma getLastRow_unique (s : Sheet.sheet) (m : nat) :
  (forall j, m <= j -> Sheet.blank_row (nth j s []) = true) ->
  (0 < m -> Sheet.blank_row (nth (m - 1) s []) = false) ->
  Sheet.getLastRow s = m.
Proof.
  intros Hafter Hlast. destruct (getLastRow_bounds s) as [Hafter' Hlast'].
  destruct (Nat.lt_trichotomy (Sheet.getLastRow s) m) as [Hlt|[Heq|Hgt]]; [|assumption|].
  - rewrite Hafter' in Hlast by lia. specialize (Hlast ltac:(lia)). discriminate.
  - rewrite Hafter in Hlast' by lia. specialize (Hlast' ltac:(lia)). discriminate.
Qed.

Lemma writeRows_single (s : Sheet.sheet) (row : nat) (r : list JS.value) (j : nat) :
  nth j (Sheet.writeRows s row 1 [r]) []
  = if j =? row - 1 then (r ++ skipn (length r) (nth (row - 1) s []))%list
    else nth j s [].
Proof.
  simpl. now rewrite nth_overwrite_single.
Qed.

Lemma blank_row_app (a b : list JS.value) :
  Sheet.blank_row (a ++ b) = Sheet.blank_row a && Sheet.blank_row b.
Proof. unfold Sheet.blank_row. apply forallb_app. Qed.

(** A row with content, put right below the last row with content, is
    the new last row; the rows above it keep their cells. *)
Lemma appended_row (s : Sheet.sheet) (r : list JS.value) :
  Sheet.blank_row r = false ->
  let s' := Sheet.writeRows s (S (Sheet.getLastRow s)) 1 [r] in
  Sheet.getLastRow s' = S (Sheet.getLastRow s)
  /\ (forall row col, 0 < row <= Sheet.getLastRow s ->
        Sheet.cell s' row col = Sheet.cell s row col)
  /\ (forall col, 0 < col <= length r ->
        Sheet.cell s' (S (Sheet.getLastRow s)) col
        = readBack (nth (col - 1) r JS.Undefined)).
Proof.
  intros Hr s'. destruct (getLastRow_bounds s) as [Hafter _].
  split; [|split].
  - apply getLastRow_unique.
    + intros j Hj. unfold s'. rewrite writeRows_single.
      destruct (Nat.eqb_spec j (S (Sheet.getLastRow s) - 1)); [lia|]. apply Hafter. lia.
    + intros _. unfold s'. rewrite writeRows_single. rewrite Nat.eqb_refl.
      rewrite blank_row_app, Hr. reflexivity.
  - intros row col Hrow. unfold Sheet.cell, s'. rewrite writeRows_single.
    destruct (Nat.eqb_spec (row - 1) (S (Sheet.getLastRow s) - 1)); [lia | reflexivity].
  - intros col Hcol. unfold Sheet.cell, s'. rewrite writeRows_single, Nat.eqb_refl.
    rewrite app_nth1 by lia. now destruct (nth (col - 1) r JS.Undefined).
Qed.

Lemma blank_row_cell (r : list JS.value) (i : nat) :
  Sheet.blank_row r = true -> readBack (nth i r JS.Undefined) = JS.Str "".
Proof.
  intros Hr. destruct (Nat.lt_ge_cases i (length r)) as [Hi|Hi].
  - unfold Sheet.blank_row in Hr. rewrite forallb_forall in Hr.
    specialize (Hr (nth i r JS.Undefined) (nth_In r JS.Undefined Hi)).
    destruct (nth i r JS.Undefined) as [|b|t|name]; try discriminate; [reflexivity|].
    now destruct t.
  - now rewrite nth_overflow.
Qed.

(** To the right of the row put below the last row, the cells are empty. *)
Lemma appended_row_beyond (s : Sheet.sheet) (r : list JS.value) (col : nat) :
  length r < col ->
  Sheet.cell (Sheet.writeRows s (S (Sheet.getLastRow s)) 1 [r]) (S (Sheet.getLastRow s)) col
  = JS.Str "".
Proof.
  intros Hcol. destruct (getLastRow_bounds s) as [Hafter _].
  unfold Sheet.cell. rewrite writeRows_single, Nat.eqb_refl.
  rewrite app_nth2 by lia. rewrite nth_skipn.
  pose proof (blank_row_cell (nth (S (Sheet.getLastRow s) - 1) s [])
                (length r + (col - 1 - length r))
                (Hafter (S (Sheet.getLastRow s) - 1) ltac:(lia))) as Hblank.
  unfold readBack in Hblank.
  now destruct (nth (length r + (col - 1 - length r)) _ JS.Undefined).
Qed.

(** ** One invocation after another *)

Section Invocations.

Variable cfg : Config.
Variables predictTitle predictDescription : string -> result string.

Lemma getNext_of_generatedUpTo (w : World) (s : Sheet.sheet) (k : nat) :
  generatedSheet w = Some s ->
  generatedUpTo cfg s k ->
  getNextRowIndexToBeGenerated cfg w = Ok (Z.of_nat k).
Proof.
  intros Hs (Hstart & Hlast & Hall).
  destruct (getNext_first_without_success cfg w s Hs) as (n & Hn & Hle & _ & Hat); [lia|].
  rewrite Hn. f_equal.
  destruct (Nat.eq_dec n k) as [->|Hne]; [reflexivity|].
  exfalso. apply Hat; [lia|]. apply Hall. lia.
Qed.

Lemma getNext_of_failed_row (w : World) (s : Sheet.sheet) (k : nat) :
  generatedSheet w = Some s ->
  (0 <= generated_startRow cfg)%Z ->
  Z.of_nat (Sheet.getLastRow s) = (generated_startRow cfg + Z.of_nat k + 1)%Z ->
  (forall j, j < k -> statusOf cfg s j = JS.Str (Status_SUCCESS cfg)) ->
  statusOf cfg s k <> JS.Str (Status_SUCCESS cfg) ->
  getNextRowIndexToBeGenerated cfg w = Ok (Z.of_nat k).
Proof.
  intros Hs Hstart Hlast Hall Hfailed.
  destruct (getNext_first_without_success cfg w s Hs)
    as (n & Hn & Hle & Hbefore & Hat); [lia|].
  rewrite Hn. f_equal.
  destruct (Nat.lt_trichotomy n k) as [Hlt|[->|Hgt]]; [|reflexivity|].
  - exfalso. apply Hat; [lia|]. now apply Hall.
  - exfalso. apply Hfailed. now apply Hbefore.
Qed.

Lemma generateNextRow_on_success (w : World) (input : InputSheet) (s : Sheet.sheet)
    (rowIndex : Z) (row : list string) (optimizedRow : list JS.value) :
  inputSheet w = Some input ->
  generatedSheet w = Some s ->
  getNextRowIndexToBeGenerated cfg w = Ok rowIndex ->
  (rowIndex < in_lastRow input - input_startRow cfg)%Z ->
  in_rowValues input (input_startRow cfg + 1 + rowIndex)%Z = Ok row ->
  optimizeRow cfg predictTitle predictDescription (in_headers input) row
  = Ok optimizedRow ->
  generateNextRow cfg predictTitle predictDescription w
  = ([ Log ("Generating for row " ++ Z_toString rowIndex);
       SetValuesInDefinedRange (generated_name cfg)
         (generated_startRow cfg + 1 + rowIndex)%Z 1 [optimizedRow];
       Log (Status_SUCCESS cfg) ],
     Ok (Some rowIndex)).
Proof.
  intros Hin Hgen Hnext Hlt Hrow Hok.
  unfold generateNextRow. rewrite Hin, Hgen, Hnext.
  unfold io_lift, io_bind at 1.
  destruct (Z.leb_spec (in_lastRow input - input_startRow cfg) rowIndex) as [H|_]; [lia|].
  rewrite Hrow. cbn [io_bind emit app]. rewrite Hok. reflexivity.
Qed.

Lemma generateNextRow_on_error (w : World) (input : InputSheet) (s : Sheet.sheet)
    (rowIndex : Z) (row : list string) (e : exn) :
  inputSheet w = Some input ->
  generatedSheet w = Some s ->
  getNextRowIndexToBeGenerated cfg w = Ok rowIndex ->
  (rowIndex < in_lastRow input - input_startRow cfg)%Z ->
  in_rowValues input (input_startRow cfg + 1 + rowIndex)%Z = Ok row ->
  optimizeRow cfg predictTitle predictDescription (in_headers input) row = Throw e ->
  generateNextRow cfg predictTitle predictDescription w
  = ([ Log ("Generating for row " ++ Z_toString rowIndex);
       Log ("Error: " ++ exn_toString e);
       AppendRow (generated_name cfg) (failedRow cfg) ],
     Ok (Some rowIndex)).
Proof.
  intros Hin Hgen Hnext Hlt Hrow Hthrow.
  unfold generateNextRow. rewrite Hin, Hgen, Hnext.
  unfold io_lift, io_bind at 1.
  destruct (Z.leb_spec (in_lastRow input - input_startRow cfg) rowIndex) as [H|_]; [lia|].
  rewrite Hrow. cbn [io_bind emit app]. rewrite Hthrow. reflexivity.
Qed.

(** The array [optimizeRow] returns has seventeen cells, the first two
    being [false] and the literal Success. *)
Lemma optimizeRow_shape (headers data : list string) (row : list JS.value) :
  optimizeRow cfg predictTitle predictDescription headers data = Ok row ->
  length row = 17 /\ nth 0 row JS.Undefined = JS.Bool false
  /\ nth 1 row JS.Undefined = JS.Str "Success".
Proof.
  unfold optimizeRow. intros Hrow.
  destruct (titlePhase cfg predictTitle headers data) as [t|e];
    cbn [bind] in Hrow; [|discriminate].
  unfold finishRow, fetchDescriptionGenerationData in Hrow.
  destruct (predictDescription _) as [description|e]; cbn [bind] in Hrow; [|discriminate].
  injection Hrow as <-. repeat split.
Qed.

Lemma blank_row_false (r : list JS.value) (i : nat) :
  i < length r -> Sheet.blank_cell (nth i r JS.Undefined) = false ->
  Sheet.blank_row r = false.
Proof.
  intros Hi Hcell. unfold Sheet.blank_row.
  destruct (forallb Sheet.blank_cell r) eqn:Hall; [|reflexivity].
  rewrite forallb_forall in Hall. rewrite Hall in Hcell; [discriminate|].
  now apply nth_In.
Qed.

(** The step of a batch: on a sheet of [k] generated rows, an invocation
    whose row is generated puts the record right below them, so that the
    sheet has [k + 1] generated rows. *)
Lemma invoke_success_step (w : World) (input : InputSheet) (s : Sheet.sheet)
    (k : nat) (row : list string) (optimizedRow : list JS.value) :
  generated_cols_status cfg = 1 ->
  Status_SUCCESS cfg = "Success" ->
  inputSheet w = Some input ->
  generatedSheet w = Some s ->
  generatedUpTo cfg s k ->
  (Z.of_nat k < in_lastRow input - input_startRow cfg)%Z ->
  in_rowValues input (input_startRow cfg + 1 + Z.of_nat k)%Z = Ok row ->
  optimizeRow cfg predictTitle predictDescription (in_headers input) row
  = Ok optimizedRow ->
  exists issued s',
    invoke cfg predictTitle predictDescription w
    = Some ({| inputSheet := Some input; generatedSheet := Some s' |}, issued,
            Ok (Some (Z.of_nat k)))
    /\ generatedUpTo cfg s' (S k)
    /\ (forall row col, 0 < row <= Sheet.getLastRow s ->
          Sheet.cell s' row col = Sheet.cell s row col)
    /\ forall col, 0 < col <= 17 ->
         Sheet.cell s' (Z.to_nat (generated_startRow cfg) + 1 + k) col
         = readBack (nth (col - 1) optimizedRow JS.Undefined).
Proof.
  intros Hcol Hsuccess Hin Hgen Hstate Hlt Hrow Hok.
  pose proof (getNext_of_generatedUpTo w s k Hgen Hstate) as Hnext.
  pose proof (generateNextRow_on_success w input s _ row optimizedRow
                Hin Hgen Hnext Hlt Hrow Hok) as Hrun.
  destruct (optimizeRow_shape _ _ _ Hok) as (Hlen & Hfirst & Hstatus).
  destruct Hstate as (Hstart & Hlast & Hall).
  assert (Sheet.blank_row optimizedRow = false) as Hcontent.
  { apply (blank_row_false _ 0); [lia|]. now rewrite Hfirst. }
  destruct (appended_row s optimizedRow Hcontent) as (Hnew & Habove & Hcells).
  assert (Z.to_nat (generated_startRow cfg + 1 + Z.of_nat k) = S (Sheet.getLastRow s))
    as Hplace by lia.
  eexists. exists (Sheet.writeRows s (S (Sheet.getLastRow s)) 1 [optimizedRow]).
  split; [|split; [|split; [exact Habove|]]].
  - unfold invoke. rewrite Hrun, Hgen. cbn [applyEffects applyEffect].
    rewrite String.eqb_refl. cbn [applyEffects applyEffect]. rewrite Hin, Hplace.
    reflexivity.
  - split; [assumption|]. split; [rewrite Hnew; lia|].
    intros j Hj. unfold statusOf.
    destruct (Nat.eq_dec j k) as [->|Hne].
    + replace (Z.to_nat (generated_startRow cfg) + 1 + k) with (S (Sheet.getLastRow s))
        by lia.
      rewrite Hcells by lia. rewrite Hcol, Hsuccess. cbn [Nat.add Nat.sub].
      now rewrite Hstatus.
    + rewrite Habove by lia. apply Hall. lia.
  - intros col Hcolumn.
    replace (Z.to_nat (generated_startRow cfg) + 1 + k) with (S (Sheet.getLastRow s))
      by lia.
    apply Hcells. lia.
Qed.

Lemma failedRow_cells :
  length (failedRow cfg) = S (generated_cols_status cfg)
  /\ nth (generated_cols_status cfg) (failedRow cfg) JS.Undefined
     = JS.Str (Status_FAILED cfg ++ ". See log for more details.")
  /\ Sheet.blank_row (failedRow cfg) = false.
Proof.
  assert (forall (i : nat) (v : JS.value),
            length (Sheet.overwrite JS.Undefined i [v] []) = S i) as Hlen
    by (induction i as [|i IH]; intros v; simpl; [reflexivity | now rewrite IH]).
  assert (nth (generated_cols_status cfg) (failedRow cfg) JS.Undefined
          = JS.Str (Status_FAILED cfg ++ ". See log for more details.")) as Hnth
    by (unfold failedRow, set_index; now rewrite nth_overwrite_single, Nat.eqb_refl).
  split; [apply Hlen|]. split; [exact Hnth|].
  apply (blank_row_false _ (generated_cols_status cfg)).
  - unfold failedRow, set_index. rewrite Hlen. lia.
  - rewrite Hnth. simpl. now destruct (Status_FAILED cfg).
Qed.

(** X10. On a sheet of [k] generated rows, an invocation whose row fails
    logs the row and the error, puts the Failed row right below them and
    returns [k].  The sheet has one row more; every cell of every row it
    had, header rows included, is what it was; the new row has the
    failure text in its status cell and nothing in any other cell.  The
    next invocation finds that row first and works on the row [k]
    again. *)
Theorem failed_row_is_retried
    (w : World) (input : InputSheet) (s : Sheet.sheet) (k : nat)
    (row : list string) (e : exn) :
  Status_SUCCESS cfg <> Status_FAILED cfg ++ ". See log for more details." ->
  inputSheet w = Some input ->
  generatedSheet w = Some s ->
  generatedUpTo cfg s k ->
  (Z.of_nat k < in_lastRow input - input_startRow cfg)%Z ->
  in_rowValues input (input_startRow cfg + 1 + Z.of_nat k)%Z = Ok row ->
  optimizeRow cfg predictTitle predictDescription (in_headers input) row = Throw e ->
  exists s',
    invoke cfg predictTitle predictDescription w
    = Some ({| inputSheet := Some input; generatedSheet := Some s' |},
            [ Log ("Generating for row " ++ Z_toString (Z.of_nat k));
              Log ("Error: " ++ exn_toString e);
              AppendRow (generated_name cfg) (failedRow cfg) ],
            Ok (Some (Z.of_nat k)))
    /\ Sheet.getLastRow s' = S (Sheet.getLastRow s)
    /\ (forall position col, 0 < position <= Sheet.getLastRow s ->
          Sheet.cell s' position col = Sheet.cell s position col)
    /\ (forall col, 0 < col ->
          Sheet.cell s' (S (Sheet.getLastRow s)) col
          = if col =? generated_cols_status cfg + 1
            then JS.Str (Status_FAILED cfg ++ ". See log for more details.")
            else JS.Str "")
    /\ statusOf cfg s' k = JS.Str (Status_FAILED cfg ++ ". See log for more details.")
    /\ (forall j, j < k -> statusOf cfg s' j = JS.Str (Status_SUCCESS cfg))
    /\ getNextRowIndexToBeGenerated cfg
         {| inputSheet := Some input; generatedSheet := Some s' |}
       = Ok (Z.of_nat k).
Proof.
  intros Hdistinct Hin Hgen Hstate Hlt Hrow Hthrow.
  pose proof (getNext_of_generatedUpTo w s k Hgen Hstate) as Hnext.
  pose proof (generateNextRow_on_error w input s _ row e
                Hin Hgen Hnext Hlt Hrow Hthrow) as Hrun.
  destruct failedRow_cells as (Hlen & Hcell & Hcontent).
  destruct Hstate as (Hstart & Hlast & Hall).
  destruct (appended_row s (failedRow cfg) Hcontent) as (Hnew & Habove & Hcells).
  assert (forall col, 0 < col ->
            Sheet.cell (Sheet.appendRow s (failedRow cfg)) (S (Sheet.getLastRow s)) col
            = if col =? generated_cols_status cfg + 1
              then JS.Str (Status_FAILED cfg ++ ". See log for more details.")
              else JS.Str "") as Hrowcells.
  { intros col Hcol. unfold Sheet.appendRow.
    destruct (Nat.eqb_spec col (generated_cols_status cfg + 1)) as [->|Hother].
    - rewrite Hcells by lia. replace (generated_cols_status cfg + 1 - 1)
        with (generated_cols_status cfg) by lia. now rewrite Hcell.
    - destruct (Nat.le_gt_cases col (length (failedRow cfg))) as [Hle|Hgt].
      + rewrite Hcells by lia. unfold failedRow, set_index.
        rewrite nth_overwrite_single.
        destruct (Nat.eqb_spec (col - 1) (generated_cols_status cfg)); [lia|].
        now destruct (col - 1).
      + now apply appended_row_beyond. }
  assert (statusOf cfg (Sheet.appendRow s (failedRow cfg)) k
          = JS.Str (Status_FAILED cfg ++ ". See log for more details.")) as Hfailed.
  { unfold statusOf.
    replace (Z.to_nat (generated_startRow cfg) + 1 + k) with (S (Sheet.getLastRow s))
      by lia.
    rewrite Hrowcells by lia. now rewrite Nat.eqb_refl. }
  assert (forall j, j < k ->
            statusOf cfg (Sheet.appendRow s (failedRow cfg)) j
            = JS.Str (Status_SUCCESS cfg)) as Hbefore.
  { intros j Hj. unfold statusOf, Sheet.appendRow. rewrite Habove by lia.
    apply Hall. lia. }
  exists (Sheet.appendRow s (failedRow cfg)).
  split; [|split; [exact Hnew|split; [exact Habove|split; [exact Hrowcells|
          split; [exact Hfailed|split; [exact Hbefore|]]]]]].
  - unfold invoke. rewrite Hrun, Hgen. cbn [applyEffects applyEffect].
    rewrite String.eqb_refl. cbn [applyEffects applyEffect]. rewrite Hin. reflexivity.
  - apply (getNext_of_failed_row _ (Sheet.appendRow s (failedRow cfg)));
      try assumption; try reflexivity.
    + unfold Sheet.appendRow. rewrite Hnew. lia.
    + rewrite Hfailed. congruence.
Qed.

End Invocations.

Lemma failed_row_is_retried_witness :
  exists s',
    invoke sampleConfig unavailable unavailable freshWorld
    = Some ({| inputSheet := Some sampleInput; generatedSheet := Some s' |},
            [ Log "Generating for row 0"; Log "Error: Error: 503";
              AppendRow "Generated" (failedRow sampleConfig) ],
            Ok (Some 0%Z))
    /\ Sheet.getLastRow s' = 2
    /\ Sheet.cell s' 1 2 = JS.Str "Status"
    /\ Sheet.cell s' 2 2 = JS.Str "Failed. See log for more details."
    /\ Sheet.cell s' 2 1 = JS.Str ""
    /\ getNextRowIndexToBeGenerated sampleConfig
         {| inputSheet := Some sampleInput; generatedSheet := Some s' |}
       = Ok 0%Z.
Proof.
  destruct (failed_row_is_retried sampleConfig unavailable unavailable freshWorld
              sampleInput [[JS.Str "Approval"; JS.Str "Status"]] 0
              ["1"; "Red Shoe"] (Failure "Error: 503"))
    as (s' & Hrun & Hlast & Habove & Hnew & _ & _ & Hnext).
  - discriminate.
  - reflexivity.
  - reflexivity.
  - split; [simpl; lia|]. split; [reflexivity|]. intros j Hj. lia.
  - simpl. lia.
  - reflexivity.
  - vm_compute. reflexivity.
  - exists s'. split; [exact Hrun|]. split; [exact Hlast|].
    split; [apply (Habove 1 2); simpl; lia|].
    split; [apply (Hnew 2); lia|]. split; [apply (Hnew 1); lia | exact Hnext].
Defined.

(** ** A whole batch *)

Section Batch.

Variable cfg : Config.
Variables respond describe : string -> string.

Hypothesis status_column : generated_cols_status cfg = 1.
Hypothesis success_text : Status_SUCCESS cfg = "Success".
Hypothesis four_lines : forall prompt, nth_error (Str.split Str.LF (respond prompt)) 3 <> None.

Lemma optimizeRow_answers (headers data : list string) :
  exists record, optimizeRow cfg (answers respond) (answers describe) headers data = Ok record.
Proof.
  pose proof (four_lines (title_fullPrompt cfg ++ "Context: "
                            ++ JS.JSON_stringify (rowObject headers data)
                            ++ newline ++ newline)) as Hlines.
  destruct (nth_error _ 3) as [valuesRow|] eqn:Hrow; [|congruence].
  destruct (titlePhase_returns cfg (answers respond) headers data _ valuesRow eq_refl Hrow)
    as [t Ht].
  destruct (optimizeRow_returns cfg (answers respond) describe headers data t Ht)
    as (record & Hrecord & _).
  now exists record.
Qed.

Lemma batch_from (input : InputSheet) (m : nat) :
  forall (k : nat) (s : Sheet.sheet),
  generatedUpTo cfg s k ->
  recordsUpTo cfg (answers respond) (answers describe) input s k ->
  (Z.of_nat (k + m) <= in_lastRow input - input_startRow cfg)%Z ->
  (forall i, i < k + m ->
     exists row, in_rowValues input (input_startRow cfg + 1 + Z.of_nat i)%Z = Ok row) ->
  exists s',
    invocations cfg (answers respond) (answers describe) m
      {| inputSheet := Some input; generatedSheet := Some s |}
    = Some ({| inputSheet := Some input; generatedSheet := Some s' |},
            map (fun i => Some (Z.of_nat i)) (seq k m))
    /\ generatedUpTo cfg s' (k + m)
    /\ recordsUpTo cfg (answers respond) (answers describe) input s' (k + m).
Proof.
  induction m as [|m IH]; intros k s Hstate Hrecords Hrows Hread.
  - exists s. rewrite Nat.add_0_r. now split.
  - assert (k < k + S m) as Hk by lia. destruct (Hread k Hk) as [row Hrow].
    destruct (optimizeRow_answers (in_headers input) row) as [record Hrecord].
    assert (Z.of_nat k < in_lastRow input - input_startRow cfg)%Z as Hmore by lia.
    destruct (invoke_success_step cfg (answers respond) (answers describe)
                {| inputSheet := Some input; generatedSheet := Some s |}
                input s k row record status_column success_text eq_refl eq_refl
                Hstate Hmore Hrow Hrecord)
      as (issued & s1 & Hinvoke & Hstate1 & Habove & Hcells).
    destruct (IH (S k) s1 Hstate1) as (s' & Hrest & Hstate' & Hrecords').
    + intros i Hi. destruct (Nat.eq_dec i k) as [->|Hne].
      * exists row, record. split; [assumption|]. split; [assumption|].
        intros col Hcol. now apply Hcells.
      * assert (i < k) as Hik by lia.
        destruct (Hrecords i Hik) as (r & rec & Hr & Hrec & Hold).
        exists r, rec. split; [assumption|]. split; [assumption|].
        intros col Hcol. rewrite Habove; [now apply Hold|].
        destruct Hstate as (Hstart & Hlast & _). lia.
    + lia.
    + intros i Hi. apply Hread. lia.
    + exists s'. replace (k + S m) with (S k + m) by lia.
      split; [|now split].
      cbn [invocations seq map]. rewrite Hinvoke, Hrest. reflexivity.
Qed.

(** X11. A batch runs to its end.  With a model that answers every title
    prompt with at least four lines and every description prompt, on an
    input sheet of [n] readable rows and a generated sheet that holds its
    header rows only, [n] invocations of [generateNextRow] return the row
    numbers 0 to [n - 1] in order; afterwards every generated row holds the
    record of the input row of its number, with the Success status, and
    one more invocation returns -1 and changes nothing. *)
Theorem batch_generates_every_row (input : InputSheet) (s : Sheet.sheet) (n : nat) :
  in_lastRow input = (input_startRow cfg + Z.of_nat n)%Z ->
  (forall i, i < n ->
     exists row, in_rowValues input (input_startRow cfg + 1 + Z.of_nat i)%Z = Ok row) ->
  generatedUpTo cfg s 0 ->
  exists s',
    invocations cfg (answers respond) (answers describe) n
      {| inputSheet := Some input; generatedSheet := Some s |}
    = Some ({| inputSheet := Some input; generatedSheet := Some s' |},
            map (fun i => Some (Z.of_nat i)) (seq 0 n))
    /\ generatedUpTo cfg s' n
    /\ recordsUpTo cfg (answers respond) (answers describe) input s' n
    /\ generateNextRow cfg (answers respond) (answers describe)
         {| inputSheet := Some input; generatedSheet := Some s' |}
       = ([], Ok (Some (-1)%Z)).
Proof.
  intros Hlast Hread Hstate.
  destruct (batch_from input n 0 s Hstate) as (s' & Hrun & Hstate' & Hrecords).
  - intros i Hi. lia.
  - simpl. lia.
  - exact Hread.
  - exists s'. split; [exact Hrun|]. split; [exact Hstate'|]. split; [exact Hrecords|].
    simpl in Hstate'.
    unfold generateNextRow. cbn [inputSheet generatedSheet].
    rewrite (getNext_of_generatedUpTo cfg
               {| inputSheet := Some input; generatedSheet := Some s' |} s' n eq_refl Hstate').
    unfold io_lift, io_bind.
    destruct (Z.leb_spec (in_lastRow input - input_startRow cfg) (Z.of_nat n));
      [reflexivity | lia].
Qed.

End Batch.

Lemma batch_generates_every_row_witness :
  exists s',
    invocations sampleConfig (answering shoeResponse) (answering "A red shoe.") 2 freshWorld
    = Some ({| inputSheet := Some sampleInput; generatedSheet := Some s' |},
            [Some 0%Z; Some 1%Z])
    /\ generateNextRow sampleConfig (answering shoeResponse) (answering "A red shoe.")
         {| inputSheet := Some sampleInput; generatedSheet := Some s' |}
       = ([], Ok (Some (-1)%Z)).
Proof.
  assert (forall prompt : string,
            nth_error (Str.split Str.LF shoeResponse) 3 <> None) as Hlines
    by (intros _; discriminate).
  destruct (batch_generates_every_row sampleConfig (fun _ => shoeResponse)
              (fun _ => "A red shoe.") eq_refl eq_refl Hlines sampleInput
              [[JS.Str "Approval"; JS.Str "Status"]] 2)
    as (s' & Hrun & _ & _ & Hend).
  - reflexivity.
  - intros [|[|i]] Hi; [eexists; reflexivity | eexists; reflexivity | lia].
  - split; [simpl; lia|]. split; [reflexivity|]. intros j Hj. lia.
  - exists s'. split; [exact Hrun | exact Hend].
Defined.

(* ================================================================== *)
(** * Approval *)

Lemma combine_seq_nth {A : Type} (l : list A) (start i : nat) (x : A) :
  nth_error l i = Some x ->
  nth_error (combine (seq start (length l)) l) i = Some (start + i, x).
Proof.
  revert start i. induction l as [|y l IH]; intros start [|i] Hi; simpl in *;
    try discriminate.
  - injection Hi as ->. now rewrite Nat.add_0_r.
  - rewrite (IH (S start) i Hi). f_equal. f_equal. lia.
Qed.

Lemma indexed_nth {A : Type} (l : list A) (i : nat) (x : A) :
  nth_error l i = Some x -> nth_error (indexed l) i = Some (i, x).
Proof. intros Hi. unfold indexed. now rewrite (combine_seq_nth l 0 i x Hi). Qed.

Lemma combine_seq_map {A B : Type} (f : nat -> A -> B) (l : list A) (start : nat) :
  combine (seq start (length (map (fun item => f (fst item) (snd item))
                                  (combine (seq start (length l)) l))))
          (map (fun item => f (fst item) (snd item)) (combine (seq start (length l)) l))
  = map (fun item => (fst item, f (fst item) (snd item)))
        (combine (seq start (length l)) l).
Proof.
  revert start. induction l as [|x l IH]; intros start; [reflexivity|].
  simpl. f_equal. apply IH.
Qed.

Lemma set_index_twice (l : list JS.value) (i : nat) (a b : JS.value) :
  set_index (set_index l i a) i b = set_index l i b.
Proof.
  unfold set_index. revert l. induction i as [|i IH]; intros l; simpl.
  - now destruct l.
  - destruct l as [|x l]; simpl; now rewrite IH.
Qed.

Section ApprovalFacts.

Variable cfg : Config.
Variable isRowHiddenByFilter : Z -> bool.

(** X12. [approveFiltered] writes back, from the first generated row on,
    as many rows as it has read.  In each of them the approval cell is
    [true] when the filter shows the row and what it was when the filter
    hides it; every other cell is what it was. *)
Theorem approval_changes_the_approval_cell_only (rows : list (list JS.value)) :
  exists written,
    approveFiltered cfg (Some isRowHiddenByFilter) (Some rows)
    = ([ Log "Approving filtered rows...";
         SetValuesInDefinedRange (generated_name cfg) (generated_startRow cfg + 1)%Z 1
           written;
         Log "Writing approved rows..." ], Ok tt)
    /\ length written = length rows
    /\ forall i row,
         nth_error rows i = Some row ->
         exists row',
           nth_error written i = Some row'
           /\ JS.at_index row' (generated_cols_approval cfg)
              = (if isRowHiddenByFilter (Z.of_nat i + generated_startRow cfg + 1)%Z
                 then JS.at_index row (generated_cols_approval cfg)
                 else JS.Bool true)
           /\ forall col, col <> generated_cols_approval cfg ->
                JS.at_index row' col = JS.at_index row col.
Proof.
  exists (approveRows cfg isRowHiddenByFilter rows).
  split; [reflexivity|]. split.
  - unfold approveRows, indexed. now rewrite length_map, length_combine, length_seq, Nat.min_id.
  - intros i row Hi. exists (approveRow cfg isRowHiddenByFilter i row). split; [|split].
    + unfold approveRows. rewrite nth_error_map, (indexed_nth rows i row Hi). reflexivity.
    + unfold approveRow. now rewrite at_index_set_index, Nat.eqb_refl.
    + intros col Hcol. unfold approveRow. rewrite at_index_set_index.
      destruct (Nat.eqb_spec col (generated_cols_approval cfg)); [contradiction | reflexivity].
Qed.

Lemma approveRow_twice (index : nat) (row : list JS.value) :
  approveRow cfg isRowHiddenByFilter index (approveRow cfg isRowHiddenByFilter index row)
  = approveRow cfg isRowHiddenByFilter index row.
Proof.
  unfold approveRow.
  destruct (isRowHiddenByFilter (Z.of_nat index + generated_startRow cfg + 1)%Z).
  - rewrite at_index_set_index, Nat.eqb_refl. apply set_index_twice.
  - apply set_index_twice.
Qed.

(** X13. Approving again under the same filter changes nothing: the rows
    [approveFiltered] writes are those it would write if it read them
    back. *)
Theorem approval_is_idempotent (rows : list (list JS.value)) :
  approveRows cfg isRowHiddenByFilter (approveRows cfg isRowHiddenByFilter rows)
  = approveRows cfg isRowHiddenByFilter rows
  /\ approveFiltered cfg (Some isRowHiddenByFilter)
       (Some (approveRows cfg isRowHiddenByFilter rows))
     = approveFiltered cfg (Some isRowHiddenByFilter) (Some rows).
Proof.
  assert (approveRows cfg isRowHiddenByFilter (approveRows cfg isRowHiddenByFilter rows)
          = approveRows cfg isRowHiddenByFilter rows) as Hrows.
  { unfold approveRows at 1 3. unfold approveRows, indexed.
    rewrite (combine_seq_map (approveRow cfg isRowHiddenByFilter) rows 0).
    rewrite map_map. apply map_ext. intros [index row]. cbn [fst snd].
    apply approveRow_twice. }
  split; [exact Hrows|].
  unfold approveFiltered, writeGeneratedRows. now rewrite Hrows.
Qed.

Lemma approvedRows_after_approval (rows : list (list JS.value)) :
  (forall position, isRowHiddenByFilter position = false) ->
  approvedRows cfg (approveRows cfg isRowHiddenByFilter rows)
  = approveRows cfg isRowHiddenByFilter rows.
Proof.
  intros Hshown. unfold approvedRows. apply forallb_filter_id.
  apply forallb_forall. intros row' Hrow'. unfold approveRows in Hrow'.
  apply in_map_iff in Hrow'. destruct Hrow' as [[index row] [<- _]]. cbn [fst snd].
  unfold approveRow. now rewrite at_index_set_index, Nat.eqb_refl, Hshown.
Qed.

(** X14. [approveFiltered] withdraws no approval, whatever the filter:
    every row the export would have taken before is one it takes
    afterwards.  When the filter hides no row, the export takes every row
    [approveFiltered] has written. *)
Theorem approval_is_never_withdrawn (rows : list (list JS.value)) :
  (forall i row,
     nth_error rows i = Some row ->
     JS.at_index row (generated_cols_approval cfg) = JS.Bool true ->
     exists row',
       nth_error (approveRows cfg isRowHiddenByFilter rows) i = Some row'
       /\ In row' (approvedRows cfg (approveRows cfg isRowHiddenByFilter rows)))
  /\ ((forall position, isRowHiddenByFilter position = false) ->
      approvedRows cfg (approveRows cfg isRowHiddenByFilter rows)
      = approveRows cfg isRowHiddenByFilter rows).
Proof.
  split.
  - intros i row Hi Happroved.
    exists (approveRow cfg isRowHiddenByFilter i row).
    assert (nth_error (approveRows cfg isRowHiddenByFilter rows) i
            = Some (approveRow cfg isRowHiddenByFilter i row)) as Hnth
      by (unfold approveRows; now rewrite nth_error_map, (indexed_nth rows i row Hi)).
    split; [exact Hnth|]. unfold approvedRows. apply filter_In.
    split; [eapply nth_error_In; exact Hnth|].
    unfold approveRow. rewrite at_index_set_index, Nat.eqb_refl, Happroved.
    now destruct (isRowHiddenByFilter _).
  - apply approvedRows_after_approval.
Qed.

End ApprovalFacts.

Lemma approval_is_never_withdrawn_witness :
  approvedRows sampleConfig (approveRows sampleConfig (fun _ => false) [unapprovedRow; rowA])
  = approveRows sampleConfig (fun _ => false) [unapprovedRow; rowA].
Proof.
  apply (approval_is_never_withdrawn sampleConfig (fun _ => false) [unapprovedRow; rowA]).
  reflexivity.
Defined.

(* ================================================================== *)
(** * More about the export *)

Section MoreExportFacts.

Variable cfg : Config.
Variable JSON_parse : string -> result JS.object.
Variable timestamp : nat -> string.

Lemma export_columns_before (f : string -> JS.value) (start col : nat)
    (items : list (nat * string)) (resRow : list JS.value) :
  col < start ->
  JS.at_index
    (fold_left (fun acc item => set_index acc (start + fst item) (f (snd item)))
               items resRow) col
  = JS.at_index resRow col.
Proof.
  intros Hcol. revert resRow. induction items as [|item items IH]; intros resRow;
    [reflexivity|].
  simpl. rewrite IH, at_index_set_index.
  destruct (Nat.eqb_spec col (start + fst item)); [lia | reflexivity].
Qed.

Lemma exportRow_fixed_cells (attributes : list string) (i : nat)
    (row resRow : list JS.value) :
  fixedColumnsApart cfg ->
  exportRow cfg JSON_parse timestamp attributes i row = Ok resRow ->
  JS.at_index resRow (output_cols_modificationTimestamp cfg) = JS.Str (timestamp i)
  /\ JS.at_index resRow (output_cols_id_idx cfg) = JS.at_index row (generated_cols_id cfg)
  /\ JS.at_index resRow (output_cols_title_idx cfg)
     = JS.at_index row (generated_cols_titleGenerated cfg)
  /\ JS.at_index resRow (output_cols_description_idx cfg)
     = JS.at_index row (generated_cols_descriptionGenerated cfg).
Proof.
  intros (Hdistinct & Hts & Hid & Htitle & Hdesc) Hrow. unfold exportRow in Hrow.
  destruct (parseCellOr JSON_parse row (generated_cols_gapAttributes cfg)) as [g|e];
    cbn [bind] in Hrow; [|discriminate].
  destruct (parseCellOr JSON_parse row (generated_cols_originalInput cfg)) as [o|e];
    cbn [bind] in Hrow; [|discriminate].
  injection Hrow as <-.
  inversion Hdistinct as [|? ? H1 Hrest1]; subst.
  inversion Hrest1 as [|? ? H2 Hrest2]; subst.
  inversion Hrest2 as [|? ? H3 _]; subst.
  simpl in H1, H2, H3.
  rewrite !export_columns_before by assumption.
  rewrite !at_index_set_index.
  repeat split.
  - destruct (Nat.eqb_spec (output_cols_modificationTimestamp cfg)
                (output_cols_description_idx cfg)); [exfalso; intuition congruence|].
    destruct (Nat.eqb_spec (output_cols_modificationTimestamp cfg)
                (output_cols_title_idx cfg)); [exfalso; intuition congruence|].
    destruct (Nat.eqb_spec (output_cols_modificationTimestamp cfg)
                (output_cols_id_idx cfg)); [exfalso; intuition congruence|].
    now rewrite Nat.eqb_refl.
  - destruct (Nat.eqb_spec (output_cols_id_idx cfg) (output_cols_description_idx cfg));
      [exfalso; intuition congruence|].
    destruct (Nat.eqb_spec (output_cols_id_idx cfg) (output_cols_title_idx cfg)); [exfalso; intuition congruence|].
    now rewrite Nat.eqb_refl.
  - destruct (Nat.eqb_spec (output_cols_title_idx cfg) (output_cols_description_idx cfg));
      [exfalso; intuition congruence|].
    now rewrite Nat.eqb_refl.
  - now rewrite Nat.eqb_refl.
Qed.

(** What [exportApproved] does with approved rows whose blobs parse. *)
Lemma exportApproved_returns (generatedRows : list (list JS.value)) :
  approvedRows cfg generatedRows <> [] ->
  (forall row, In row (approvedRows cfg generatedRows) ->
     exists g o,
       parseCellOr JSON_parse row (generated_cols_gapAttributes cfg) = Ok g
       /\ parseCellOr JSON_parse row (generated_cols_originalInput cfg) = Ok o) ->
  exists invented gap rowsToWrite,
    exportRows cfg JSON_parse timestamp (gap ++ invented) 0 (approvedRows cfg generatedRows)
    = Ok rowsToWrite
    /\ exportApproved cfg JSON_parse timestamp generatedRows
       = ([ Log "Exporting approved rows...";
            Log "Clearing approved data...";
            ClearDefinedRange (output_name cfg) (output_startRow cfg)
              (Z.of_nat (output_cols_id_idx cfg) + 1);
            ClearDefinedRange (output_name cfg) (output_startRow cfg + 1) 1;
            Log "Writing approved data...";
            SetValuesInDefinedRange (output_name cfg) (output_startRow cfg)
              (Z.of_nat (output_cols_id_idx cfg) + 1)
              [map JS.Str (outputHeaderOf cfg invented gap)];
            SetValuesInDefinedRange (output_name cfg) (output_startRow cfg + 1) 1
              rowsToWrite ], Ok tt).
Proof.
  intros Hsome Hall.
  destruct (getGapAndInventedAttributes_returns cfg JSON_parse _ Hall)
    as (filled & input & _ & _ & Hattrs).
  set (invented := filter (fun gapKey => negb (Str.includes (Str.dedup input) gapKey))
                          (Str.dedup filled)) in *.
  set (gap := filter (fun gapKey => negb (Str.includes invented gapKey))
                     (Str.dedup filled)) in *.
  destruct (exportRows_returns cfg JSON_parse timestamp (gap ++ invented) _ 0 Hall)
    as [rowsToWrite Hrows].
  exists invented, gap, rowsToWrite. split; [exact Hrows|].
  unfold exportApproved.
  destruct (approvedRows cfg generatedRows) as [|r rest] eqn:Happroved; [contradiction|].
  cbn [length Nat.eqb]. rewrite Hattrs. unfold io_lift, emit, io_bind. cbn iota beta.
  rewrite Hrows. reflexivity.
Qed.

(** X15. When the output columns of the timestamp, the id, the title and
    the description are distinct and lie before the gap and invented
    columns, the export row of every approved row carries, in those
    columns, the timestamp of its making and the id, the generated title
    and the generated description of the row. *)
Theorem exported_fixed_cells (generatedRows : list (list JS.value)) :
  fixedColumnsApart cfg ->
  approvedRows cfg generatedRows <> [] ->
  (forall row, In row (approvedRows cfg generatedRows) ->
     exists g o,
       parseCellOr JSON_parse row (generated_cols_gapAttributes cfg) = Ok g
       /\ parseCellOr JSON_parse row (generated_cols_originalInput cfg) = Ok o) ->
  exists rowsToWrite,
    In (SetValuesInDefinedRange (output_name cfg) (output_startRow cfg + 1) 1 rowsToWrite)
       (fst (exportApproved cfg JSON_parse timestamp generatedRows))
    /\ snd (exportApproved cfg JSON_parse timestamp generatedRows) = Ok tt
    /\ length rowsToWrite = length (approvedRows cfg generatedRows)
    /\ forall i row,
         nth_error (approvedRows cfg generatedRows) i = Some row ->
         exists resRow,
           nth_error rowsToWrite i = Some resRow
           /\ JS.at_index resRow (output_cols_modificationTimestamp cfg)
              = JS.Str (timestamp i)
           /\ JS.at_index resRow (output_cols_id_idx cfg)
              = JS.at_index row (generated_cols_id cfg)
           /\ JS.at_index resRow (output_cols_title_idx cfg)
              = JS.at_index row (generated_cols_titleGenerated cfg)
           /\ JS.at_index resRow (output_cols_description_idx cfg)
              = JS.at_index row (generated_cols_descriptionGenerated cfg).
Proof.
  intros Hapart Hsome Hall.
  destruct (exportApproved_returns generatedRows Hsome Hall)
    as (invented & gap & rowsToWrite & Hrows & Hrun).
  destruct (exportRows_nth cfg JSON_parse timestamp _ _ _ _ Hrows) as [Hlen Hnth].
  exists rowsToWrite. rewrite Hrun. cbn [fst snd].
  split; [simpl; tauto|]. split; [reflexivity|]. split; [exact Hlen|].
  intros i row Hi. destruct (Hnth i row Hi) as [resRow [Hres Hrow]].
  exists resRow. split; [exact Hres|].
  exact (exportRow_fixed_cells _ _ _ _ Hapart Hrow).
Qed.

(** X16. [exportApproved] parses every blob before it touches the output
    sheet: when it throws, it has issued its opening log line and nothing
    else, so that the output sheet is neither cleared nor written. *)
Theorem export_throws_before_writing (generatedRows : list (list JS.value))
    (issued : list effect) (e : exn) :
  exportApproved cfg JSON_parse timestamp generatedRows = (issued, Throw e) ->
  issued = [Log "Exporting approved rows..."].
Proof.
  unfold exportApproved. intros Hrun.
  destruct (length (approvedRows cfg generatedRows) =? 0); [discriminate|].
  destruct (getGapAndInventedAttributes cfg JSON_parse (approvedRows cfg generatedRows))
    as [[invented gap]|e1].
  - unfold io_lift, emit, io_bind in Hrun. cbn iota beta in Hrun.
    destruct (exportRows cfg JSON_parse timestamp (gap ++ invented) 0
                (approvedRows cfg generatedRows)) as [rowsToWrite|e2];
      cbn in Hrun; [discriminate|].
    now injection Hrun as <- _.
  - cbn in Hrun. now injection Hrun as <- _.
Qed.

End MoreExportFacts.

Lemma exported_fixed_cells_witness :
  exists rowsToWrite,
    In (SetValuesInDefinedRange "Output" 2 1 rowsToWrite)
       (fst (exportApproved sampleConfig Blob.parse sampleTimestamp
               [rowA; unapprovedRow; rowB]))
    /\ exists resRow,
         nth_error rowsToWrite 1 = Some resRow
         /\ JS.at_index resRow 2 = JS.Str "Wood Table".
Proof.
  destruct (exported_fixed_cells sampleConfig Blob.parse sampleTimestamp
              [rowA; unapprovedRow; rowB])
    as (rowsToWrite & Hin & _ & _ & Hcells).
  - unfold fixedColumnsApart. simpl. repeat split; try lia.
    repeat constructor; simpl; intuition discriminate.
  - vm_compute. discriminate.
  - intros row Hrow. vm_compute in Hrow.
    destruct Hrow as [<-|[<-|[]]]; eexists; eexists; split; vm_compute; reflexivity.
  - exists rowsToWrite. split; [exact Hin|].
    destruct (Hcells 1 rowB eq_refl) as (resRow & Hres & _ & _ & Htitle & _).
    exists resRow. split; [exact Hres | exact Htitle].
Defined.

Lemma export_throws_before_writing_witness :
  fst (exportApproved sampleConfig Blob.parse sampleTimestamp
         [generatedRow true "1" "Red Shoe" "A shoe." "{" "{}"])
  = [Log "Exporting approved rows..."].
Proof.
  apply (export_throws_before_writing sampleConfig Blob.parse sampleTimestamp
           [generatedRow true "1" "Red Shoe" "A shoe." "{" "{}"] _
           (Failure "SyntaxError: Unexpected token in JSON")).
  vm_compute. reflexivity.
Defined.

(* ================================================================== *)
(** * From generation to export *)

(** The two blobs of a record [optimizeRow] has returned parse. *)
Lemma record_blobs_parse
    (cfg : Config) (predictTitle predictDescription : string -> result string)
    (headers data : list string) (row : list JS.value) :
  optimizeRow cfg predictTitle predictDescription headers data = Ok row ->
  exists g o,
    parseCellOr Blob.parse row 12 = Ok g /\ parseCellOr Blob.parse row 13 = Ok o.
Proof.
  unfold optimizeRow. intros Hrow.
  destruct (titlePhase cfg predictTitle headers data) as [t|e] eqn:Ht;
    cbn [bind] in Hrow; [|discriminate].
  unfold finishRow, fetchDescriptionGenerationData in Hrow.
  rewrite assign_generated_title in Hrow.
  set (snapshot := JS.define (tp_dataObj t) "Generated Title" (JS.Str (tp_genTitle t))) in *.
  destruct (predictDescription _) as [description|e]; cbn [bind] in Hrow; [|discriminate].
  injection Hrow as <-.
  destruct (titlePhase_inv _ _ _ _ _ Ht) as (Hdata & _ & _ & _ & _ & Hloop & _).
  destruct (rowObject_invariant headers data) as [Hnd Hstr]. rewrite <- Hdata in Hnd, Hstr.
  assert (forall e, In e snapshot -> isBool (snd e) = false) as Hsnap.
  { intros e He. destruct (define_values _ _ _ _ He) as [H|H].
    - destruct (Hstr e H) as [s ->]. reflexivity.
    - now rewrite H. }
  destruct (gap_invariant (tp_dataObj t) (tp_origAttributes t)
              (tp_genAttributeValues t) (tp_genAttributes t)) as [Hgnd Hgval].
  rewrite <- Hloop in Hgnd, Hgval. cbn [snd] in Hgnd, Hgval.
  assert (exists g, (if 0 <? length (JS.Object_keys (tp_gapAttributesAndValues t))
                     then Blob.parse (JS.JSON_stringify (tp_gapAttributesAndValues t))
                     else Ok []) = Ok g) as [g Hg].
  { destruct (JS.Object_keys (tp_gapAttributesAndValues t)) as [|k ks] eqn:Hkeys.
    - now eexists.
    - cbn [length Nat.ltb Nat.leb]. eexists.
      apply parse_stringify; [assumption|]. now apply Object_keys_NoDup. }
  exists g. eexists. split.
  - unfold parseCellOr. cbn [JS.at_index nth].
    destruct (JS.Object_keys (tp_gapAttributesAndValues t)) as [|k ks] eqn:Hkeys.
    + cbn [length Nat.ltb Nat.leb] in Hg |- *. exact Hg.
    + cbn [length Nat.ltb Nat.leb] in Hg |- *. rewrite JSON_stringify_truthy.
      cbn [JS.toString]. exact Hg.
  - unfold parseCellOr. cbn [JS.at_index nth]. rewrite JSON_stringify_truthy.
    cbn [JS.toString]. apply parse_stringify; [assumption|].
    apply Object_keys_NoDup. now apply define_NoDup.
Qed.

Lemma parseCellOr_same_cell (JSON_parse : string -> result JS.object)
    (row row' : list JS.value) (col : nat) :
  JS.at_index row' col = JS.at_index row col ->
  parseCellOr JSON_parse row' col = parseCellOr JSON_parse row col.
Proof. unfold parseCellOr. now intros ->. Qed.

(** X17. From generation to export.  Take records as [optimizeRow]
    returns them, the generated columns being those of the record and the
    fixed output columns lying apart.  As they are, the export takes none
    of them and writes nothing.  Once [approveFiltered] has approved
    them, no row being hidden, the export does not throw: it writes one
    export row per record, in order, with the id, the generated title and
    the generated description of the record. *)
Theorem generated_records_are_exported_once_approved
    (cfg : Config) (predictTitle predictDescription : string -> result string)
    (timestamp : nat -> string) (records : list (list JS.value)) :
  generatedColumnsOfRecord cfg ->
  fixedColumnsApart cfg ->
  records <> [] ->
  (forall record, In record records ->
     exists headers data,
       optimizeRow cfg predictTitle predictDescription headers data = Ok record) ->
  exportApproved cfg Blob.parse timestamp records
  = ([Log "Exporting approved rows..."], Ok tt)
  /\ exists rowsToWrite,
       In (SetValuesInDefinedRange (output_name cfg) (output_startRow cfg + 1) 1
             rowsToWrite)
          (fst (exportApproved cfg Blob.parse timestamp
                  (approveRows cfg (fun _ => false) records)))
       /\ snd (exportApproved cfg Blob.parse timestamp
                 (approveRows cfg (fun _ => false) records)) = Ok tt
       /\ length rowsToWrite = length records
       /\ forall i record,
            nth_error records i = Some record ->
            exists resRow,
              nth_error rowsToWrite i = Some resRow
              /\ JS.at_index resRow (output_cols_id_idx cfg) = JS.at_index record 2
              /\ JS.at_index resRow (output_cols_title_idx cfg) = JS.at_index record 3
              /\ JS.at_index resRow (output_cols_description_idx cfg)
                 = JS.at_index record 4.
Proof.
  intros (Happroval & Hid & Htitle & Hdesc & Hgapcol & Horigcol) Hapart Hsome Hrecords.
  split.
  - assert (approvedRows cfg records = []) as Hnone.
    { unfold approvedRows. apply filter_empty. intros record Hin.
      destruct (Hrecords record Hin) as (headers & data & Hrecord).
      destruct (optimizeRow_shape _ _ _ _ _ _ Hrecord) as (_ & Hfirst & _).
      unfold JS.at_index. now rewrite Happroval, Hfirst. }
    unfold exportApproved. now rewrite Hnone.
  - set (approved := approveRows cfg (fun _ => false) records).
    assert (approvedRows cfg approved = approved) as Hall
      by now apply approvedRows_after_approval.
    assert (forall i record, nth_error records i = Some record ->
              nth_error approved i = Some (approveRow cfg (fun _ => false) i record))
      as Hnth.
    { intros i record Hi. unfold approved, approveRows.
      now rewrite nth_error_map, (indexed_nth records i record Hi). }
    assert (forall i record col, col <> 0 ->
              JS.at_index (approveRow cfg (fun _ => false) i record) col
              = JS.at_index record col) as Hframe.
    { intros i record col Hcol. unfold approveRow. rewrite at_index_set_index, Happroval.
      destruct (Nat.eqb_spec col 0); [contradiction | reflexivity]. }
    assert (length approved = length records) as Hlength
      by (unfold approved, approveRows, indexed;
          now rewrite length_map, length_combine, length_seq, Nat.min_id).
    assert (approvedRows cfg approved <> []) as Hnonempty.
    { rewrite Hall. intros Hempty. rewrite Hempty in Hlength.
      destruct records; [contradiction | discriminate]. }
    assert (forall row, In row (approvedRows cfg approved) ->
              exists g o,
                parseCellOr Blob.parse row (generated_cols_gapAttributes cfg) = Ok g
                /\ parseCellOr Blob.parse row (generated_cols_originalInput cfg) = Ok o)
      as Hparse.
    { rewrite Hall. intros row Hrow. unfold approved, approveRows in Hrow.
      apply in_map_iff in Hrow. destruct Hrow as [[i record] [<- Hin]]. cbn [fst snd].
      assert (In record records) as Hrecord.
      { unfold indexed in Hin. now apply in_combine_r in Hin. }
      destruct (Hrecords record Hrecord) as (headers & data & Hopt).
      destruct (record_blobs_parse _ _ _ _ _ _ Hopt) as (g & o & Hg & Ho).
      exists g, o. rewrite Hgapcol, Horigcol.
      split.
      + rewrite <- Hg. apply parseCellOr_same_cell, Hframe. discriminate.
      + rewrite <- Ho. apply parseCellOr_same_cell, Hframe. discriminate. }
    destruct (exportApproved_returns cfg Blob.parse timestamp approved Hnonempty Hparse)
      as (invented & gap & rowsToWrite & Hrows & Hrun).
    destruct (exportRows_nth cfg Blob.parse timestamp _ _ _ _ Hrows) as [Hlen Hcells].
    exists rowsToWrite. rewrite Hrun. cbn [fst snd].
    split; [simpl; tauto|]. split; [reflexivity|].
    split; [rewrite Hlen, Hall; exact Hlength|].
    intros i record Hi. rewrite Hall in Hcells.
    destruct (Hcells i _ (Hnth i record Hi)) as [resRow [Hres Hrow]].
    destruct (exportRow_fixed_cells cfg Blob.parse timestamp _ _ _ _ Hapart Hrow)
      as (_ & Hcid & Hctitle & Hcdesc).
    exists resRow. split; [exact Hres|].
    rewrite Hcid, Hctitle, Hcdesc, Hid, Htitle, Hdesc.
    rewrite !Hframe by discriminate. repeat split.
Qed.

Lemma generated_records_are_exported_once_approved_witness :
  exportApproved sampleConfig Blob.parse sampleTimestamp [shoeRecord]
  = ([Log "Exporting approved rows..."], Ok tt)
  /\ exists rowsToWrite,
       In (SetValuesInDefinedRange (output_name sampleConfig)
             (output_startRow sampleConfig + 1) 1 rowsToWrite)
          (fst (exportApproved sampleConfig Blob.parse sampleTimestamp
                  (approveRows sampleConfig (fun _ => false) [shoeRecord])))
       /\ exists resRow,
            nth_error rowsToWrite 0 = Some resRow
            /\ JS.at_index resRow (output_cols_title_idx sampleConfig)
               = JS.Str "Red 10".
Proof.
  destruct (generated_records_are_exported_once_approved sampleConfig
              (answering shoeResponse) (answering "A red shoe.") sampleTimestamp
              [shoeRecord])
    as (Hbefore & rowsToWrite & Hin & _ & _ & Hcells).
  - unfold generatedColumnsOfRecord. repeat split.
  - unfold fixedColumnsApart. simpl. repeat split; try lia.
    repeat constructor; simpl; intuition discriminate.
  - discriminate.
  - intros record [<-|[]]. exists shoeHeaders, shoeData. vm_compute. reflexivity.
  - split; [exact Hbefore|]. exists rowsToWrite. split; [exact Hin|].
    destruct (Hcells 0 shoeRecord eq_refl) as (resRow & Hres & _ & Htitle & _).
    exists resRow. split; [exact Hres | exact Htitle].
Defined.

(* ================================================================== *)
(** * The few-shot context *)

Lemma selectRow_first (rows : list (list string)) (itemIdIndex : Z) (itemId : string)
    (row : list string) :
  firstRowOfItem rows itemIdIndex itemId row ->
  selectRow rows itemIdIndex itemId = Some row.
Proof.
  intros (before & after & -> & Hbefore & Hrow). unfold selectRow.
  rewrite filter_app.
  assert (filter (fun r => JS.value_eqb (cellAt r itemIdIndex) (JS.Str itemId)) before = [])
    as ->.
  { apply filter_empty. intros other Hother.
    destruct (JS.value_eqb _ _) eqn:Heq; [|reflexivity].
    apply value_eqb_eq in Heq. now apply Hbefore in Heq. }
  cbn [app filter]. rewrite Hrow.
  assert (JS.value_eqb (JS.Str itemId) (JS.Str itemId) = true) as ->
    by now apply value_eqb_eq.
  reflexivity.
Qed.

Lemma selectRow_none (rows : list (list string)) (itemIdIndex : Z) (itemId : string) :
  (forall row, In row rows -> cellAt row itemIdIndex <> JS.Str itemId) ->
  selectRow rows itemIdIndex itemId = None.
Proof.
  intros Hrows. unfold selectRow.
  assert (filter (fun r => JS.value_eqb (cellAt r itemIdIndex) (JS.Str itemId)) rows = [])
    as ->; [|reflexivity].
  apply filter_empty. intros other Hother.
  destruct (JS.value_eqb _ _) eqn:Heq; [|reflexivity].
  apply value_eqb_eq in Heq. now apply Hrows in Heq.
Qed.

Lemma fold_define_other (entries : list (string * JS.value)) (acc : JS.object)
    (k : string) :
  (forall e, In e entries -> fst e <> k) ->
  JS.get_own (fold_left (fun o kv => JS.define o (fst kv) (snd kv)) entries acc) k
  = JS.get_own acc k.
Proof.
  revert acc. induction entries as [|[k' v'] entries IH]; intros acc Hother; [reflexivity|].
  cbn [fold_left fst snd]. rewrite IH by (intros e He; apply Hother; now right).
  rewrite get_own_define. destruct (String.eqb_spec k k') as [->|Hne]; [|reflexivity].
  now specialize (Hother (k', v') (or_introl eq_refl)).
Qed.

Lemma fold_define_last (entries : list (string * JS.value)) (acc : JS.object)
    (i : nat) (k : string) (v : JS.value) :
  nth_error entries i = Some (k, v) ->
  (forall j e, i < j -> nth_error entries j = Some e -> fst e <> k) ->
  JS.get_own (fold_left (fun o kv => JS.define o (fst kv) (snd kv)) entries acc) k
  = Some v.
Proof.
  revert acc i. induction entries as [|[k' v'] entries IH]; intros acc [|i] Hi Hlast;
    try discriminate.
  - injection Hi as -> ->. cbn [fold_left fst snd]. rewrite fold_define_other.
    + now rewrite get_own_define, String.eqb_refl.
    + intros e He. destruct (In_nth_error _ _ He) as [j Hj].
      apply (Hlast (S j) e); [lia | exact Hj].
  - cbn [fold_left]. apply (IH _ i); [exact Hi|].
    intros j e Hj He. apply (Hlast (S j) e); [lia | exact He].
Qed.

Lemma context_entries_of_full_headers (headers row : list string) :
  length row = length headers ->
  map (fun item : nat * string => (snd item, string_at row (fst item))) (indexed headers)
  = map (fun item : nat * string => (headerAt headers (fst item), JS.Str (snd item)))
        (indexed row).
Proof.
  intros Hlen. apply nth_error_ext. intros i. rewrite !nth_error_map.
  destruct (nth_error headers i) as [h|] eqn:Hh.
  - destruct (nth_error row i) as [r|] eqn:Hr.
    + rewrite (indexed_nth _ _ _ Hh), (indexed_nth _ _ _ Hr). cbn [option_map fst snd].
      unfold string_at, headerAt. rewrite Hr. now rewrite (nth_error_nth _ _ _ Hh).
    + apply nth_error_None in Hr. assert (nth_error headers i <> None) as Hsome
        by congruence. apply nth_error_Some in Hsome. lia.
  - pose proof Hh as Hr. apply nth_error_None in Hr. rewrite <- Hlen in Hr.
    apply nth_error_None in Hr.
    assert (nth_error (indexed headers) i = None) as ->.
    { apply nth_error_None. unfold indexed.
      rewrite length_combine, length_seq, Nat.min_id. now apply nth_error_None. }
    assert (nth_error (indexed row) i = None) as ->.
    { apply nth_error_None. unfold indexed.
      rewrite length_combine, length_seq, Nat.min_id. now apply nth_error_None. }
    reflexivity.
Qed.

(** X18. For an input sheet without an empty header, the few-shot context
    of an item is the JSON text of the row object [optimizeRow] builds for
    the first row of that item: the text the title prompt carries after
    [Context: ]. *)
Theorem context_of_item_is_the_prompt_context
    (cfg : Config) (headers : list string) (rows : list (list string))
    (itemId : string) (row : list string) :
  forallb Str.nonempty headers = true ->
  firstRowOfItem rows (indexOf headers (itemIdColumnName cfg)) itemId row ->
  length row = length headers ->
  FEEDGEN_CREATE_JSON_CONTEXT_FOR_ITEM cfg (Some (headers :: rows)) itemId
  = Ok (Some (JS.JSON_stringify (rowObject headers row))).
Proof.
  intros Hfull Hrow Hlen. unfold FEEDGEN_CREATE_JSON_CONTEXT_FOR_ITEM.
  rewrite (selectRow_first _ _ _ _ Hrow). unfold contextEntries.
  rewrite (forallb_filter_id _ _ Hfull).
  destruct headers as [|h headers].
  - destruct row; [reflexivity | discriminate].
  - cbn [bind]. unfold rowObject. now rewrite context_entries_of_full_headers.
Qed.

Lemma context_of_item_is_the_prompt_context_witness :
  FEEDGEN_CREATE_JSON_CONTEXT_FOR_ITEM sampleConfig
    (Some [["item_id"; "title"]; ["1"; "Red Shoe"]; ["2"; "Blue Hat"]]) "2"
  = Ok (Some (JS.JSON_stringify (rowObject ["item_id"; "title"] ["2"; "Blue Hat"]))).
Proof.
  apply context_of_item_is_the_prompt_context.
  - reflexivity.
  - exists [["1"; "Red Shoe"]], []. split; [reflexivity|]. split; [|reflexivity].
    intros other [<-|[]]. discriminate.
  - reflexivity.
Defined.

(** X19. When no row of the input sheet has the item id in the id column
    (in particular when no header is the id column name) and some header
    is not empty, [FEEDGEN_CREATE_JSON_CONTEXT_FOR_ITEM] throws the
    TypeError of the read [selectedRow[0]] on [undefined]. *)
Theorem context_of_unknown_item_throws
    (cfg : Config) (headers : list string) (rows : list (list string))
    (itemId : string) :
  (exists header, In header headers /\ header <> "") ->
  (~ In (itemIdColumnName cfg) headers
   \/ forall row, In row rows ->
        cellAt row (indexOf headers (itemIdColumnName cfg)) <> JS.Str itemId) ->
  FEEDGEN_CREATE_JSON_CONTEXT_FOR_ITEM cfg (Some (headers :: rows)) itemId
  = Throw (TypeError "Cannot read properties of undefined (reading '0')").
Proof.
  intros [header [Hin Hheader]] Hnone. unfold FEEDGEN_CREATE_JSON_CONTEXT_FOR_ITEM.
  assert (forall row, In row rows ->
            cellAt row (indexOf headers (itemIdColumnName cfg)) <> JS.Str itemId)
    as Hrows.
  { destruct Hnone as [Hcolumn|Hrows]; [|exact Hrows].
    intros row _. unfold cellAt, indexOf.
    destruct (Z.ltb_spec (findIndex (String.eqb (itemIdColumnName cfg)) headers) 0)
      as [Hlt|Hge]; [discriminate|].
    destruct (findIndex_found _ _ Hge) as [[x [Hx Heq]] _].
    apply String.eqb_eq in Heq. subst x. apply nth_error_In in Hx. contradiction. }
  rewrite (selectRow_none _ _ _ Hrows). unfold contextEntries.
  destruct (filter Str.nonempty headers) as [|key keys] eqn:Hkeys.
  - assert (Str.nonempty header = false) as Hempty
      by (apply (proj1 (filter_empty Str.nonempty headers) Hkeys); exact Hin).
    destruct header; [contradiction | discriminate].
  - reflexivity.
Qed.

Lemma context_of_unknown_item_throws_witness :
  FEEDGEN_CREATE_JSON_CONTEXT_FOR_ITEM sampleConfig
    (Some [["item_id"; "title"]; ["1"; "Red Shoe"]; ["2"; "Blue Hat"]]) "3"
  = Throw (TypeError "Cannot read properties of undefined (reading '0')").
Proof.
  apply context_of_unknown_item_throws.
  - exists "title". split; [simpl; tauto | discriminate].
  - right. intros row [<-|[<-|[]]]; discriminate.
Defined.

(** X20. The context pairs the i-th non-empty header with the i-th cell
    of the row, whatever the column of that header: the value of a key is
    the cell at the position of the key's last occurrence among the
    non-empty headers.  After an empty header the values are those of the
    columns to the left. *)
Theorem context_values_follow_nonempty_headers
    (cfg : Config) (headers : list string) (rows : list (list string))
    (itemId : string) (row : list string) :
  firstRowOfItem rows (indexOf headers (itemIdColumnName cfg)) itemId row ->
  exists contextObject,
    FEEDGEN_CREATE_JSON_CONTEXT_FOR_ITEM cfg (Some (headers :: rows)) itemId
    = Ok (Some (JS.JSON_stringify contextObject))
    /\ forall i key,
         nth_error (filter Str.nonempty headers) i = Some key ->
         (forall j, i < j -> nth_error (filter Str.nonempty headers) j <> Some key) ->
         JS.get_own contextObject key = Some (string_at row i).
Proof.
  intros Hrow. unfold FEEDGEN_CREATE_JSON_CONTEXT_FOR_ITEM.
  rewrite (selectRow_first _ _ _ _ Hrow). unfold contextEntries.
  set (keys := filter Str.nonempty headers).
  exists (JS.fromEntries
            (map (fun item : nat * string => (snd item, string_at row (fst item)))
                 (indexed keys))).
  split; [now destruct keys|].
  intros i key Hi Hlast. unfold JS.fromEntries. apply (fold_define_last _ _ i).
  - now rewrite nth_error_map, (indexed_nth _ _ _ Hi).
  - intros j e Hj He Hkey. rewrite nth_error_map in He.
    destruct (nth_error (indexed keys) j) as [[j' key']|] eqn:Hj'; [|discriminate].
    injection He as <-. cbn [fst snd] in Hkey. subst key'.
    destruct (nth_error keys j) as [key'|] eqn:Hkj.
    + rewrite (indexed_nth _ _ _ Hkj) in Hj'. injection Hj' as _ ->.
      now apply (Hlast j Hj).
    + apply nth_error_None in Hkj.
      assert (nth_error (indexed keys) j = None) as Hnone.
      { apply nth_error_None. unfold indexed.
        now rewrite length_combine, length_seq, Nat.min_id. }
      congruence.
Qed.

Lemma context_values_follow_nonempty_headers_witness :
  exists contextObject,
    FEEDGEN_CREATE_JSON_CONTEXT_FOR_ITEM sampleConfig
      (Some [["item_id"; ""; "color"]; ["1"; "x"; "red"]]) "1"
    = Ok (Some (JS.JSON_stringify contextObject))
    /\ JS.get_own contextObject "color" = Some (JS.Str "x").
Proof.
  destruct (context_values_follow_nonempty_headers sampleConfig ["item_id"; ""; "color"]
              [["1"; "x"; "red"]] "1" ["1"; "x"; "red"])
    as (contextObject & Hrun & Hvalues).
  - exists [], []. split; [reflexivity|]. split; [intros other []|reflexivity].
  - exists contextObject. split; [exact Hrun|].
    apply (Hvalues 1 "color" eq_refl). intros [|[|[|j]]] Hj; try lia; discriminate.
Defined.
